(** * pi-irc-messenger: session lifecycle and message routing

    A shallow embedding of [src/index.ts], [src/profiles.ts] and
    [src/types.ts].  The extension keeps its state in module-level and
    closure-level variables ([ircClient], [currentState], [messageBuffers],
    [eventBuffers]) and reacts to callbacks of the IRC transport and of the
    timer queue.  Here that state is one record, [World], threaded through
    every handler; calls into the transport, the agent API and the UI are
    appended to an effect trace; timers are a finite map from timer ids to
    deadlines and closures; buffer objects live in a store so that the
    sharing between the [Map] entry and the timer closure is kept.

    Strings are sequences of code units, one [ascii] per unit, which is exact
    for the ASCII nicks and channel names IRC uses. *)

From Stdlib Require Import ZArith NArith Ascii String List Sorting.Permutation.
From stdpp Require Import base option list gmap strings pretty sorting.

Open Scope string_scope.
Open Scope list_scope.

(** ** Strings *)

Module Str.

(** The double quote and the line feed, which the source writes inside
    template literals. *)
Definition dq : string := String "034"%char EmptyString.
Definition nl : string := String "010"%char EmptyString.

(** [s.startsWith(p)] *)
Definition startsWith (p s : string) : bool := String.prefix p s.

(** [s.includes(sub)]: plain substring search, no case folding. *)
Fixpoint includes (sub s : string) : bool :=
  if String.prefix sub s then true
  else match s with
       | EmptyString => false
       | String _ s' => includes sub s'
       end.

(** [arr.join(sep)] *)
Definition join (sep : string) (l : list string) : string := String.concat sep l.

(** [s.substring(0, n)] *)
Definition substring0 (n : nat) (s : string) : string := String.substring 0 n s.

End Str.

(** ** Types ([src/types.ts]) *)

Record IRCServer := {
  srv_host : string;
  srv_port : Z;
  srv_ssl : option bool
}.

Record IRCProfile := {
  prof_server : string;
  prof_nick : string;
  prof_username : option string;
  prof_realname : option string;
  prof_channels : list string;
  prof_nickservPass : option string;
  prof_autoConnect : option bool;
  prof_agentsFile : option string
}.

Record IRCConfig := {
  servers : gmap string IRCServer;
  profiles : gmap string IRCProfile
}.

Record IRCState := {
  connected : bool;
  host : string;
  port : Z;
  nick : string;
  channels : list string;
  profileName : option string
}.

Definition set_connected (b : bool) (s : IRCState) : IRCState :=
  {| connected := b; host := host s; port := port s; nick := nick s;
     channels := channels s; profileName := profileName s |}.

Definition set_nick (n : string) (s : IRCState) : IRCState :=
  {| connected := connected s; host := host s; port := port s; nick := n;
     channels := channels s; profileName := profileName s |}.

(** ** Profile resolution ([src/profiles.ts]) *)

Module Profiles.

(** What a rejected promise carries: an error of one of three classes, with
    its message. *)
Inductive Thrown :=
  | PlainError (message : string)
  | TypeError (message : string)
  | SyntaxError (message : string).

(** [`${error}`] *)
Definition thrown_text (e : Thrown) : string :=
  match e with
  | PlainError m => "Error: " +:+ m
  | TypeError m => "TypeError: " +:+ m
  | SyntaxError m => "SyntaxError: " +:+ m
  end.

(** A promise settles with a value or rejects with what was thrown. *)
Inductive Settled (A : Type) :=
  | Fulfilled (a : A)
  | Rejected (e : Thrown).
Arguments Fulfilled {A} a.
Arguments Rejected {A} e.

(** The value [JSON.parse] returned, as far as the resolver reads it: its
    [servers] and [profiles] properties, [None] for a property the value does
    not have. A property that is there holds what [IRCConfig] declares. *)
Record ConfigValue := {
  cv_servers : option (gmap string IRCServer);
  cv_profiles : option (gmap string IRCProfile)
}.

Definition typed (cfg : IRCConfig) : ConfigValue :=
  {| cv_servers := Some (servers cfg); cv_profiles := Some (profiles cfg) |}.

(** What [loadConfig] finds on disk: no file, a file [JSON.parse] rejects
    with the given message, or a file it parses. *)
Inductive ConfigFile :=
  | Missing
  | Malformed (message : string)
  | Parsed (value : ConfigValue).

Definition loadConfig (file : ConfigFile) : Settled ConfigValue :=
  match file with
  | Missing => Fulfilled (typed {| servers := ∅; profiles := ∅ |})
  | Malformed message => Rejected (SyntaxError message)
  | Parsed value => Fulfilled value
  end.

(** The names every object made by [JSON.parse] inherits from
    [Object.prototype]; each of them holds a function, or for [__proto__] the
    prototype object itself, and so passes a truthiness test. *)
Definition object_prototype_names : list string :=
  ["constructor"; "__defineGetter__"; "__defineSetter__"; "hasOwnProperty";
   "__lookupGetter__"; "__lookupSetter__"; "isPrototypeOf";
   "propertyIsEnumerable"; "toString"; "valueOf"; "__proto__";
   "toLocaleString"].

(** What a property read on a parsed object gives when it is not
    [undefined]: the entry of an own key, or the member of
    [Object.prototype] of that name. *)
Inductive Held (A : Type) :=
  | Entry (a : A)
  | ProtoMember (name : string).
Arguments Entry {A} a.
Arguments ProtoMember {A} name.

(** [obj[key]]: own keys first, then the prototype; [None] is [undefined]. *)
Definition get {A : Type} (obj : gmap string A) (key : string) : option (Held A) :=
  match obj !! key with
  | Some a => Some (Entry a)
  | None => if bool_decide (key ∈ object_prototype_names)
            then Some (ProtoMember key) else None
  end.

(** [profile.server] as a property key and inside a template literal: no
    member of [Object.prototype] has a [server] property, so there the read
    gives [undefined], which both uses turn into the text [undefined]. *)
Definition server_key (profile : Held IRCProfile) : string :=
  match profile with
  | Entry p => prof_server p
  | ProtoMember _ => "undefined"
  end.

Record Resolved := {
  profile : Held IRCProfile;
  server : Held IRCServer
}.

Definition unknown_server_message (profileName serverName : string) : string :=
  "Profile " +:+ Str.dq +:+ profileName +:+ Str.dq +:+
  " references unknown server " +:+ Str.dq +:+ serverName +:+ Str.dq.

(** The message of the [TypeError] for a property read on [undefined], in
    the wording of V8. *)
Definition cannot_read (key : string) : string :=
  "Cannot read properties of undefined (reading '" +:+ key +:+ "')".

(** [getResolvedProfile]: [Fulfilled None] is the source's [null]. *)
Definition getResolvedProfile (file : ConfigFile) (profileName : string)
  : Settled (option Resolved) :=
  match loadConfig file with
  | Rejected e => Rejected e
  | Fulfilled config =>
      match cv_profiles config with
      | None => Rejected (TypeError (cannot_read profileName))
      | Some profiles =>
          match get profiles profileName with
          | None => Fulfilled None
          | Some profile =>
              match cv_servers config with
              | None => Rejected (TypeError (cannot_read (server_key profile)))
              | Some servers =>
                  match get servers (server_key profile) with
                  | None =>
                      Rejected (PlainError
                                  (unknown_server_message profileName
                                     (server_key profile)))
                  | Some server =>
                      Fulfilled (Some {| profile := profile; server := server |})
                  end
              end
          end
      end
  end.

End Profiles.

(** ** The extension's state and its effects ([src/index.ts]) *)

(** [ExtensionContext]: whether a UI is attached, and the theme's colouring
    function, which the embedding treats as opaque. *)
Record Ctx := {
  hasUI : bool;
  theme_fg : string → string → string
}.

(** [details] payloads of [pi.sendMessage]. *)
Inductive MessageDetails :=
  | DChannelMessage (channel nick message : string)
  | DJoinPart (channel : string) (events : list string).

(** A timer closure. The message closure captures [isDM], [bufferKey] and the
    buffer object; the membership closure captures [bufferKey] and the buffer
    object. Buffer objects are named by their address in the store. *)
Inductive Callback :=
  | CbFlushMessage (isDM : bool) (bufferKey : string) (buffer : nat)
  | CbFlushEvent (bufferKey : string) (buffer : nat).

(** Calls that leave the extension, in program order. [ETimerFired] records
    that the timer queue invoked a closure; [EUncaughtTypeError] is a property
    read on [null]. *)
Inductive Effect :=
  | ENewClient (client : nat)
  | EConnect (client : nat) (host : string) (port : Z) (nick : string)
  | EQuit (client : nat) (message : option string)
  | EJoin (client : nat) (channel : string)
  | ESendUserMessage (content deliverAs : string)
  | ESendMessage (customType content : string) (details : MessageDetails)
                 (triggerTurn : bool)
  | ENotify (message level : string)
  | ESetStatus (key text : string)
  | ETimerFired (cb : Callback)
  | EUncaughtTypeError.

Definition is_transport (e : Effect) : bool :=
  match e with
  | ENewClient _ | EConnect _ _ _ _ | EQuit _ _ | EJoin _ _ => true
  | _ => false
  end.

Definition is_fire (e : Effect) : bool :=
  match e with
  | ETimerFired _ => true
  | _ => false
  end.

Record MessageBuffer := {
  mb_nick : string;
  mb_target : string;
  mb_messages : list string;
  mb_timer : option nat
}.

Record EventBuffer := {
  eb_channel : string;
  eb_events : list string;
  eb_timer : option nat
}.

Definition MESSAGE_BUFFER_DELAY_MS : N := 1000.
Definition EVENT_BUFFER_DELAY_MS : N := 2000.

Record World := {
  ircClient : option nat;
  currentState : option IRCState;
  cachedAgentsContent : option string;
  messageBuffers : gmap string nat;
  eventBuffers : gmap string nat;
  msgStore : gmap nat MessageBuffer;
  evtStore : gmap nat EventBuffer;
  timers : gmap nat (N * Callback);
  now : N;
  next : nat;
  trace : list Effect
}.

Definition init : World :=
  {| ircClient := None; currentState := None; cachedAgentsContent := None;
     messageBuffers := ∅; eventBuffers := ∅; msgStore := ∅; evtStore := ∅;
     timers := ∅; now := 0; next := 0; trace := [] |}.

Section Updates.
Variable w : World.

Definition with_ircClient (c : option nat) : World :=
  {| ircClient := c; currentState := currentState w;
     cachedAgentsContent := cachedAgentsContent w;
     messageBuffers := messageBuffers w; eventBuffers := eventBuffers w;
     msgStore := msgStore w; evtStore := evtStore w; timers := timers w;
     now := now w; next := next w; trace := trace w |}.

Definition with_currentState (s : option IRCState) : World :=
  {| ircClient := ircClient w; currentState := s;
     cachedAgentsContent := cachedAgentsContent w;
     messageBuffers := messageBuffers w; eventBuffers := eventBuffers w;
     msgStore := msgStore w; evtStore := evtStore w; timers := timers w;
     now := now w; next := next w; trace := trace w |}.

Definition with_cachedAgentsContent (c : option string) : World :=
  {| ircClient := ircClient w; currentState := currentState w;
     cachedAgentsContent := c;
     messageBuffers := messageBuffers w; eventBuffers := eventBuffers w;
     msgStore := msgStore w; evtStore := evtStore w; timers := timers w;
     now := now w; next := next w; trace := trace w |}.

Definition with_messageBuffers (m : gmap string nat) : World :=
  {| ircClient := ircClient w; currentState := currentState w;
     cachedAgentsContent := cachedAgentsContent w;
     messageBuffers := m; eventBuffers := eventBuffers w;
     msgStore := msgStore w; evtStore := evtStore w; timers := timers w;
     now := now w; next := next w; trace := trace w |}.

Definition with_eventBuffers (m : gmap string nat) : World :=
  {| ircClient := ircClient w; currentState := currentState w;
     cachedAgentsContent := cachedAgentsContent w;
     messageBuffers := messageBuffers w; eventBuffers := m;
     msgStore := msgStore w; evtStore := evtStore w; timers := timers w;
     now := now w; next := next w; trace := trace w |}.

Definition with_msgStore (m : gmap nat MessageBuffer) : World :=
  {| ircClient := ircClient w; currentState := currentState w;
     cachedAgentsContent := cachedAgentsContent w;
     messageBuffers := messageBuffers w; eventBuffers := eventBuffers w;
     msgStore := m; evtStore := evtStore w; timers := timers w;
     now := now w; next := next w; trace := trace w |}.

Definition with_evtStore (m : gmap nat EventBuffer) : World :=
  {| ircClient := ircClient w; currentState := currentState w;
     cachedAgentsContent := cachedAgentsContent w;
     messageBuffers := messageBuffers w; eventBuffers := eventBuffers w;
     msgStore := msgStore w; evtStore := m; timers := timers w;
     now := now w; next := next w; trace := trace w |}.

Definition with_timers (m : gmap nat (N * Callback)) : World :=
  {| ircClient := ircClient w; currentState := currentState w;
     cachedAgentsContent := cachedAgentsContent w;
     messageBuffers := messageBuffers w; eventBuffers := eventBuffers w;
     msgStore := msgStore w; evtStore := evtStore w; timers := m;
     now := now w; next := next w; trace := trace w |}.

Definition with_now (t : N) : World :=
  {| ircClient := ircClient w; currentState := currentState w;
     cachedAgentsContent := cachedAgentsContent w;
     messageBuffers := messageBuffers w; eventBuffers := eventBuffers w;
     msgStore := msgStore w; evtStore := evtStore w; timers := timers w;
     now := t; next := next w; trace := trace w |}.

Definition with_next (n : nat) : World :=
  {| ircClient := ircClient w; currentState := currentState w;
     cachedAgentsContent := cachedAgentsContent w;
     messageBuffers := messageBuffers w; eventBuffers := eventBuffers w;
     msgStore := msgStore w; evtStore := evtStore w; timers := timers w;
     now := now w; next := n; trace := trace w |}.

(** One call leaving the extension. *)
Definition emit (e : Effect) : World :=
  {| ircClient := ircClient w; currentState := currentState w;
     cachedAgentsContent := cachedAgentsContent w;
     messageBuffers := messageBuffers w; eventBuffers := eventBuffers w;
     msgStore := msgStore w; evtStore := evtStore w; timers := timers w;
     now := now w; next := next w; trace := trace w ++ [e] |}.
End Updates.

(** [setTimeout(cb, delay)]: a fresh timer id, due [delay] ms from now. *)
Definition setTimeout (cb : Callback) (delay : N) (w : World) : nat * World :=
  let id := next w in
  (id, with_next (with_timers w (<[id := ((now w + delay)%N, cb)]> (timers w))) (S id)).

(** [clearTimeout(id)] *)
Definition clearTimeout (id : nat) (w : World) : World :=
  with_timers w (delete id (timers w)).

(** [ctx.ui.notify], behind the [ctx.hasUI] test of every call site. *)
Definition notify (ctx : Ctx) (message level : string) (w : World) : World :=
  if hasUI ctx then emit w (ENotify message level) else w.

(** [ircClient && currentState?.connected] *)
Definition isConnected (w : World) : bool :=
  match ircClient w, currentState w with
  | Some _, Some s => connected s
  | _, _ => false
  end.

Definition updateStatus (ctx : Ctx) (w : World) : World :=
  match currentState w with
  | Some s =>
      if negb (hasUI ctx) then w
      else if connected s
           then emit w (ESetStatus "irc" ("irc: " +:+ theme_fg ctx "accent" (nick s)))
           else emit w (ESetStatus "irc" EmptyString)
  | None => w
  end.

(** ** Transport events *)

Record MessageEvent := {
  ev_target : string;
  ev_nick : string;
  ev_message : string
}.

Record MembershipEvent := {
  mev_nick : string;
  mev_channel : string
}.

Record NickEvent := {
  nev_nick : string;
  nev_new_nick : string
}.

(** ** Flushing ([flushBuffer], [flushEventBuffer]) *)

(** [flushBuffer(buffer)] as closed over [isDM] and [bufferKey]. The channel
    branch reads [currentState!.nick] before it sends; with no session that
    read throws and nothing after it runs. *)
Definition flushBuffer (isDM : bool) (bufferKey : string) (buffer : nat)
    (w : World) : World :=
  match msgStore w !! buffer with
  | None => w
  | Some b =>
      match mb_messages b with
      | [] => w
      | _ :: _ =>
          let combinedMessage := Str.join Str.nl (mb_messages b) in
          if isDM then
            let content := "IRC DM from " +:+ mb_nick b +:+ ": " +:+ combinedMessage in
            let w1 := emit w (ESendUserMessage content "steer") in
            with_messageBuffers w1 (delete bufferKey (messageBuffers w1))
          else
            let content :=
              "[" +:+ mb_target b +:+ "] " +:+ mb_nick b +:+ ": " +:+ combinedMessage in
            match currentState w with
            | None => emit w EUncaughtTypeError
            | Some s =>
                let ourNick := nick s in
                let hasMention := Str.includes ("@" +:+ ourNick) combinedMessage in
                let w1 :=
                  emit w (ESendMessage "irc_channel_message" content
                            (DChannelMessage (mb_target b) (mb_nick b) combinedMessage)
                            hasMention) in
                with_messageBuffers w1 (delete bufferKey (messageBuffers w1))
            end
      end
  end.

Definition flushEventBuffer (bufferKey : string) (buffer : nat) (w : World) : World :=
  match evtStore w !! buffer with
  | None => w
  | Some b =>
      match eb_events b with
      | [] => w
      | _ :: _ =>
          let content := Str.join Str.nl (eb_events b) in
          let w1 :=
            emit w (ESendMessage "irc_join_part" content
                      (DJoinPart (eb_channel b) (eb_events b)) false) in
          with_eventBuffers w1 (delete bufferKey (eventBuffers w1))
      end
  end.

(** ** Listeners attached by [setupClient] *)

Definition on_registered (ctx : Ctx) (w : World) : World :=
  match currentState w with
  | None => w
  | Some s =>
      let w1 := with_currentState w (Some (set_connected true s)) in
      let w2 :=
        if hasUI ctx
        then updateStatus ctx (emit w1 (ENotify ("IRC connected as " +:+ nick s) "info"))
        else w1 in
      match ircClient w2 with
      | Some c => foldl (λ acc channel, emit acc (EJoin c channel)) w2 (channels s)
      | None => match channels s with
                | [] => w2
                | _ :: _ => emit w2 EUncaughtTypeError
                end
      end
  end.

(** The block both membership listeners inline: find or create the channel's
    buffer, cancel its timer, push the line, start a new timer. *)
Definition bufferEvent (channel line : string) (w : World) : World :=
  let bufferKey := channel in
  let '(buffer, w1) :=
    match eventBuffers w !! bufferKey with
    | Some l => (l, w)
    | None =>
        let l := next w in
        let w' := with_next (with_evtStore w
                   (<[l := {| eb_channel := channel; eb_events := []; eb_timer := None |}]>
                      (evtStore w))) (S l) in
        (l, with_eventBuffers w' (<[bufferKey := l]> (eventBuffers w')))
    end in
  match evtStore w1 !! buffer with
  | None => w1
  | Some b =>
      let w2 := match eb_timer b with
                | Some t => clearTimeout t w1
                | None => w1
                end in
      let '(t, w3) := setTimeout (CbFlushEvent bufferKey buffer) EVENT_BUFFER_DELAY_MS w2 in
      with_evtStore w3
        (<[buffer := {| eb_channel := eb_channel b;
                        eb_events := eb_events b ++ [line];
                        eb_timer := Some t |}]> (evtStore w3))
  end.

(** [ircClient?.user.nick]: [undefined] while no transport is held, else the
    nick the held transport tracks for itself. That nick lives inside the
    transport, so it is an input, [userNick]; it is read only when a
    transport is held. *)
Definition transportNick (userNick : option string) (w : World) : option string :=
  match ircClient w with
  | Some _ => userNick
  | None => None
  end.

Definition on_join (ctx : Ctx) (userNick : option string) (event : MembershipEvent)
    (w : World) : World :=
  let self := bool_decide (Some (mev_nick event) = transportNick userNick w) in
  if hasUI ctx && self then emit w (ENotify ("Joined " +:+ mev_channel event) "info")
  else if negb self
       then bufferEvent (mev_channel event)
              (mev_nick event +:+ " joined " +:+ mev_channel event) w
       else w.

Definition on_part (userNick : option string) (event : MembershipEvent)
    (w : World) : World :=
  let self := bool_decide (Some (mev_nick event) = transportNick userNick w) in
  if negb self
  then bufferEvent (mev_channel event)
         (mev_nick event +:+ " left " +:+ mev_channel event) w
  else w.

Definition on_message (event : MessageEvent) (w : World) : World :=
  match currentState w with
  | None => w
  | Some s =>
      let isDM := String.eqb (ev_target event) (nick s) in
      let bufferKey := ev_target event +:+ ":" +:+ ev_nick event in
      let '(buffer, w1) :=
        match messageBuffers w !! bufferKey with
        | Some l => (l, w)
        | None =>
            let l := next w in
            let w' := with_next (with_msgStore w
                       (<[l := {| mb_nick := ev_nick event; mb_target := ev_target event;
                                  mb_messages := []; mb_timer := None |}]>
                          (msgStore w))) (S l) in
            (l, with_messageBuffers w' (<[bufferKey := l]> (messageBuffers w')))
        end in
      match msgStore w1 !! buffer with
      | None => w1
      | Some b =>
          let w2 := match mb_timer b with
                    | Some t => clearTimeout t w1
                    | None => w1
                    end in
          let '(t, w3) :=
            setTimeout (CbFlushMessage isDM bufferKey buffer) MESSAGE_BUFFER_DELAY_MS w2 in
          with_msgStore w3
            (<[buffer := {| mb_nick := mb_nick b; mb_target := mb_target b;
                            mb_messages := mb_messages b ++ [ev_message event];
                            mb_timer := Some t |}]> (msgStore w3))
      end
  end.

Definition on_close (ctx : Ctx) (w : World) : World :=
  let w1 := match currentState w with
            | Some s => with_currentState w (Some (set_connected false s))
            | None => w
            end in
  let w2 := notify ctx "IRC connection closed" "warning" w1 in
  updateStatus ctx w2.

Definition on_socket_error (ctx : Ctx) (message : string) (w : World) : World :=
  notify ctx ("IRC error: " +:+ message) "error" w.

Definition on_nick (ctx : Ctx) (event : NickEvent) (w : World) : World :=
  match currentState w with
  | Some s =>
      if String.eqb (nev_nick event) (nick s) then
        let w1 := with_currentState w (Some (set_nick (nev_new_nick event) s)) in
        if hasUI ctx
        then updateStatus ctx
               (emit w1 (ENotify ("Nick changed to " +:+ nev_new_nick event) "info"))
        else w1
      else w
  | None => w
  end.

(** ** Action handlers *)

(** Values of the [details] object of a tool result. *)
Inductive Json :=
  | JStr (s : string)
  | JNum (z : Z)
  | JBool (b : bool)
  | JArr (l : list string).

Record ToolResult := {
  text : string;
  details : list (string * Json)
}.

Record ConnectParams := {
  p_host : string;
  p_port : option Z;
  p_nickname : string;
  p_channels : option (list string)
}.

(** What the connect race settles with: the transport's [registered] event,
    its [socket error] event, or the ten-second timer. *)
Inductive ConnectOutcome :=
  | Registered
  | SocketError (message : string)
  | TimedOut.

(** The host, port, nick and channels a pending connect closed over. *)
Record PendingConnect := {
  pc_host : string;
  pc_port : Z;
  pc_nick : string;
  pc_channels : list string
}.

Inductive ConnectStep :=
  | Returned (r : ToolResult)
  | Pending (p : PendingConnect).

Definition check_mark : string :=
  String "226"%char (String "156"%char (String "133"%char EmptyString)).

Definition already_connected (currentNick : string) : ToolResult :=
  {| text := "Already connected as " +:+ currentNick;
     details := [("error", JStr "already_connected")] |}.

Definition nickname_too_long (nick shortened : string) : ToolResult :=
  {| text := "Error: Nickname " +:+ Str.dq +:+ nick +:+ Str.dq +:+
             " is too long (max 8 chars). Suggested: " +:+ Str.dq +:+ shortened +:+
             Str.dq +:+ ". Please use a shorter nickname.";
     details := [("error", JStr "nickname_too_long"); ("nickname", JStr nick);
                 ("suggested", JStr shortened)] |}.

Definition connect_success (p : PendingConnect) : ToolResult :=
  {| text := check_mark +:+ " Connected to " +:+ pc_host p +:+ ":" +:+ pretty (pc_port p) +:+
             " as " +:+ pc_nick p +:+ Str.nl +:+ "Joining channels: " +:+
             Str.join ", " (pc_channels p);
     details := [("host", JStr (pc_host p)); ("port", JNum (pc_port p));
                 ("nick", JStr (pc_nick p)); ("channels", JArr (pc_channels p));
                 ("connected", JBool true)] |}.

Definition connect_error (message : string) : ToolResult :=
  {| text := "Error: " +:+ message;
     details := [("error", JStr message)] |}.

(** [handleConnect] up to and including [ircClient.connect(...)]: the part
    that runs before the handler first waits. *)
Definition handleConnect_start (params : ConnectParams) (w : World)
  : World * ConnectStep :=
  match (if isConnected w then currentState w else None) with
  | Some s => (w, Returned (already_connected (nick s)))
  | None =>
      let host := p_host params in
      let port := match p_port params with
                  | Some p => if (p =? 0)%Z then 6667%Z else p
                  | None => 6667%Z
                  end in
      let nick := p_nickname params in
      let channels :=
        (λ ch, if Str.startsWith "#" ch then ch else "#" +:+ ch)
          <$> default [] (p_channels params) in
      if (8 <? String.length nick)%nat then
        let shortened := Str.substring0 8 nick in
        (w, Returned (nickname_too_long nick shortened))
      else
        let w1 := with_currentState w
                    (Some {| connected := false; host := host; port := port;
                             nick := nick; channels := channels;
                             profileName := None |}) in
        let c := next w1 in
        let w2 := emit (with_next (with_ircClient w1 (Some c)) (S c)) (ENewClient c) in
        let w3 := emit w2 (EConnect c host port nick) in
        (w3, Pending {| pc_host := host; pc_port := port; pc_nick := nick;
                        pc_channels := channels |})
  end.

(** The [.catch] of [handleConnect]: drop the transport and the session. *)
Definition connect_rollback (w : World) : World :=
  let w1 := match ircClient w with
            | Some c => with_ircClient (emit w (EQuit c None)) None
            | None => w
            end in
  with_currentState w1 None.

(** How a pending [handleConnect] finishes. On [registered] and on
    [socket error] the listener of [setupClient] runs before the one-shot
    listener of the promise, as they were attached in that order. *)
Definition handleConnect_settle (ctx : Ctx) (p : PendingConnect) (o : ConnectOutcome)
    (w : World) : World * ToolResult :=
  match o with
  | Registered => (on_registered ctx w, connect_success p)
  | SocketError message =>
      (connect_rollback (on_socket_error ctx message w),
       connect_error ("Connection failed: " +:+ message))
  | TimedOut => (connect_rollback w, connect_error "Connection timeout (10s)")
  end.

(** A whole [handleConnect] call with nothing else delivered in between. *)
Definition handleConnect (ctx : Ctx) (params : ConnectParams) (o : ConnectOutcome)
    (w : World) : World * ToolResult :=
  match handleConnect_start params w with
  | (w1, Returned r) => (w1, r)
  | (w1, Pending p) => handleConnect_settle ctx p o w1
  end.

Definition handleDisconnect (ctx : Ctx) (w : World) : World * ToolResult :=
  match ircClient w with
  | Some c =>
      if isConnected w then
        let w1 := with_ircClient (emit w (EQuit c (Some "Disconnecting"))) None in
        let w2 := with_cachedAgentsContent (with_currentState w1 None) None in
        let w3 := if hasUI ctx then emit w2 (ESetStatus "irc" EmptyString) else w2 in
        (w3, {| text := "Disconnected from IRC"; details := [] |})
      else (w, {| text := "Error: Not connected to IRC";
                  details := [("error", JStr "not_connected")] |})
  | None => (w, {| text := "Error: Not connected to IRC";
                   details := [("error", JStr "not_connected")] |})
  end.

(** ** The timer queue *)

Definition run_callback (cb : Callback) (w : World) : World :=
  match cb with
  | CbFlushMessage isDM bufferKey buffer => flushBuffer isDM bufferKey buffer w
  | CbFlushEvent bufferKey buffer => flushEventBuffer bufferKey buffer w
  end.

(** The queue invokes timer [id], if it is still pending, and forgets it. *)
Definition fire (id : nat) (w : World) : World :=
  match timers w !! id with
  | None => w
  | Some (deadline, cb) =>
      let w1 := with_now (with_timers w (delete id (timers w))) (N.max (now w) deadline) in
      run_callback cb (emit w1 (ETimerFired cb))
  end.

(** Timers run by deadline, and in creation order among equal deadlines. *)
Definition timer_before (a b : nat * (N * Callback)) : Prop :=
  (a.2.1 < b.2.1)%N ∨ (a.2.1 = b.2.1 ∧ (a.1 ≤ b.1)%nat).

#[local] Instance timer_before_dec : RelDecision timer_before.
Proof. intros a b. unfold timer_before. apply _. Defined.

Definition due (t : N) (w : World) : list (nat * (N * Callback)) :=
  merge_sort timer_before
    (filter (λ x, (x.2.1 ≤ t)%N) (map_to_list (timers w))).

(** Time passes until [t]: every timer due by then runs. No closure of this
    program starts or cancels a timer, so the timers due are known up front. *)
Definition advance (t : N) (w : World) : World :=
  let w1 := foldl (λ acc x, fire x.1 acc) w (due t w) in
  with_now w1 (N.max (now w1) t).

(** A burst of chat lines: each arrives at its time, after the timers due by
    then have run. *)
Definition deliver (w : World) (x : N * MessageEvent) : World :=
  on_message x.2 (advance x.1 w).

Definition deliver_all (w : World) (l : list (N * MessageEvent)) : World :=
  foldl deliver w l.

(** ** The remaining tool handlers and [dispatch] *)

(** Transport calls of the tools for which [Effect] has no entry. A handler
    returns the ones it made, in call order, next to its result. *)
Inductive Call :=
  | CSay (client : nat) (target message : string)
  | CChangeNick (client : nat) (newNick : string)
  | CPart (client : nat) (channel : string).

(** The [params] object of a tool call; a field that is absent is [None]. *)
Record ToolParams := {
  tp_host : option string;
  tp_port : option Z;
  tp_nickname : option string;
  tp_channels : option (list string);
  tp_target : option string;
  tp_message : option string;
  tp_new_nick : option string;
  tp_channel : option string
}.

Definition no_params : ToolParams :=
  {| tp_host := None; tp_port := None; tp_nickname := None; tp_channels := None;
     tp_target := None; tp_message := None; tp_new_nick := None;
     tp_channel := None |}.

(** A string read from [params] passes a [!x] test when it is present and
    not empty. *)
Definition truthy (o : option string) : option string :=
  match o with
  | Some (String c s) => Some (String c s)
  | _ => None
  end.

(** The transport and the session when [ircClient && currentState?.connected]
    holds; every handler below starts with the negation of that test. *)
Definition connectedSession (w : World) : option (nat * IRCState) :=
  match ircClient w, currentState w with
  | Some c, Some s => if connected s then Some (c, s) else None
  | _, _ => None
  end.

Definition not_connected_hint : ToolResult :=
  {| text := "Error: Not connected to IRC. Use irc({ action: 'connect', ... }) first.";
     details := [("error", JStr "not_connected")] |}.

Definition not_connected_send : ToolResult :=
  {| text := "Error: Not connected to IRC. Use irc({ action: 'connect', " +:+
             "host: '...', nickname: '...' }) first.";
     details := [("error", JStr "not_connected")] |}.

(** [channel.startsWith("#") ? channel : `#${channel}`] *)
Definition normalizeChannel (channel : string) : string :=
  if Str.startsWith "#" channel then channel else "#" +:+ channel.

Definition set_channels (chs : list string) (s : IRCState) : IRCState :=
  {| connected := connected s; host := host s; port := port s; nick := nick s;
     channels := chs; profileName := profileName s |}.

(** [channels.join(", ") || "none"] *)
Definition channels_or_none (chs : list string) : string :=
  match Str.join ", " chs with
  | EmptyString => "none"
  | joined => joined
  end.

(** [const i = l.indexOf(x); if (i > -1) l.splice(i, 1)] *)
Fixpoint remove_first (x : string) (l : list string) : list string :=
  match l with
  | [] => []
  | y :: l' => if String.eqb y x then l' else y :: remove_first x l'
  end.

Definition handleSend (params : ToolParams) (w : World)
  : World * list Call * ToolResult :=
  match connectedSession w with
  | None => (w, [], not_connected_send)
  | Some (c, _) =>
      match truthy (tp_target params) with
      | None =>
          (w, [], {| text := "Error: 'send' requires a 'target' (channel or username)";
                     details := [("error", JStr "missing_target")] |})
      | Some target =>
          match truthy (tp_message params) with
          | None =>
              (w, [], {| text := "Error: 'send' requires a 'message'";
                         details := [("error", JStr "missing_message")] |})
          | Some message =>
              (w, [CSay c target message],
               {| text := "Sent to " +:+ target +:+ ": " +:+ message;
                  details := [("target", JStr target); ("message", JStr message)] |})
          end
      end
  end.

Definition handleChangeNick (params : ToolParams) (w : World)
  : World * list Call * ToolResult :=
  match connectedSession w with
  | None => (w, [], not_connected_hint)
  | Some (c, s) =>
      match truthy (tp_new_nick params) with
      | None =>
          (w, [], {| text := "Error: 'change_nick' requires a 'new_nick' parameter";
                     details := [("error", JStr "missing_new_nick")] |})
      | Some newNick =>
          let oldNick := nick s in
          (w, [CChangeNick c newNick],
           {| text := "Requesting nickname change from " +:+ oldNick +:+ " to " +:+ newNick;
              details := [("oldNick", JStr oldNick); ("newNick", JStr newNick)] |})
      end
  end.

Definition handleInfo (w : World) : World * list Call * ToolResult :=
  match connectedSession w with
  | None => (w, [], not_connected_hint)
  | Some (_, s) =>
      (w, [],
       {| text := "You are connected to IRC as: " +:+ nick s +:+ Str.nl +:+
                  "Server: " +:+ host s +:+ ":" +:+ pretty (port s) +:+ Str.nl +:+
                  "Your channels: " +:+ channels_or_none (channels s);
          details := [("host", JStr (host s)); ("port", JNum (port s));
                      ("nick", JStr (nick s)); ("channels", JArr (channels s))] |})
  end.

Definition handleListChannels (w : World) : World * list Call * ToolResult :=
  match connectedSession w with
  | None => (w, [], not_connected_hint)
  | Some (_, s) =>
      (w, [],
       {| text := "Connected to " +:+ host s +:+ " as " +:+ nick s +:+ Str.nl +:+
                  "Channels: " +:+ channels_or_none (channels s);
          details := [("host", JStr (host s)); ("nick", JStr (nick s));
                      ("channels", JArr (channels s))] |})
  end.

Definition handleJoin (params : ToolParams) (w : World)
  : World * list Call * ToolResult :=
  match connectedSession w with
  | None => (w, [], not_connected_hint)
  | Some (c, s) =>
      match truthy (tp_channel params) with
      | None =>
          (w, [], {| text := "Error: 'join' requires a 'channel' parameter";
                     details := [("error", JStr "missing_channel")] |})
      | Some channel =>
          let normalizedChannel := normalizeChannel channel in
          let w1 := emit w (EJoin c normalizedChannel) in
          let w2 :=
            if bool_decide (normalizedChannel ∈ channels s) then w1
            else with_currentState w1
                   (Some (set_channels (channels s ++ [normalizedChannel]) s)) in
          (w2, [], {| text := "Requested join to " +:+ normalizedChannel;
                      details := [("channel", JStr normalizedChannel)] |})
      end
  end.

Definition handleLeave (ctx : Ctx) (params : ToolParams) (w : World)
  : World * list Call * ToolResult :=
  match connectedSession w with
  | None => (w, [], not_connected_hint)
  | Some (c, s) =>
      match truthy (tp_channel params) with
      | None =>
          (w, [], {| text := "Error: 'leave' requires a 'channel' parameter";
                     details := [("error", JStr "missing_channel")] |})
      | Some channel =>
          let normalizedChannel := normalizeChannel channel in
          let w1 := with_currentState w
                      (Some (set_channels (remove_first normalizedChannel (channels s)) s)) in
          let w2 := notify ctx ("Left " +:+ normalizedChannel) "info" w1 in
          (w2, [CPart c normalizedChannel],
           {| text := "Left channel " +:+ normalizedChannel;
              details := [("channel", JStr normalizedChannel)] |})
      end
  end.

Definition supported_actions : string :=
  "connect, disconnect, info, send, change_nick, list_channels, join, leave".

Definition unknown_action (action : string) : ToolResult :=
  {| text := "Error: Unknown action " +:+ Str.dq +:+ action +:+ Str.dq +:+
             ". Supported: " +:+ supported_actions;
     details := [("error", JStr "unknown_action"); ("action", JStr action)] |}.

Definition missing_connect_params : ToolResult :=
  {| text := "Error: 'connect' requires 'host' and 'nickname' parameters";
     details := [("error", JStr "missing_connect_params")] |}.

(** The cases of the [switch] in [dispatch]. *)
Inductive Action :=
  | AConnect | ADisconnect | AInfo | ASend | AChangeNick | AListChannels
  | AJoin | ALeave.

Definition action_of (action : string) : option Action :=
  if String.eqb action "connect" then Some AConnect
  else if String.eqb action "disconnect" then Some ADisconnect
  else if String.eqb action "info" then Some AInfo
  else if String.eqb action "send" then Some ASend
  else if String.eqb action "change_nick" then Some AChangeNick
  else if String.eqb action "list_channels" then Some AListChannels
  else if String.eqb action "join" then Some AJoin
  else if String.eqb action "leave" then Some ALeave
  else None.

(** [dispatch]; [o] is how the connect race ends, should the action be a
    connect that gets as far as waiting. *)
Definition dispatch (ctx : Ctx) (action : string) (params : ToolParams)
    (o : ConnectOutcome) (w : World) : World * list Call * ToolResult :=
  match action_of action with
  | Some AConnect =>
      match truthy (tp_host params), truthy (tp_nickname params) with
      | Some h, Some n =>
          let '(w', r) :=
            handleConnect ctx {| p_host := h; p_port := tp_port params;
                                 p_nickname := n; p_channels := tp_channels params |}
              o w in
          (w', [], r)
      | _, _ => (w, [], missing_connect_params)
      end
  | Some ADisconnect => let '(w', r) := handleDisconnect ctx w in (w', [], r)
  | Some AInfo => handleInfo w
  | Some ASend => handleSend params w
  | Some AChangeNick => handleChangeNick params w
  | Some AListChannels => handleListChannels w
  | Some AJoin => handleJoin params w
  | Some ALeave => handleLeave ctx params w
  | None => (w, [], unknown_action action)
  end.

(** [pi.on("session_shutdown")] *)
Definition on_session_shutdown (w : World) : World :=
  match connectedSession w with
  | Some (c, _) => emit w (EQuit c (Some "Session ended"))
  | None => w
  end.

(** ** The [irc] command *)

(** What [\s] and [trim] treat as white space, among code units below 256:
    tab, line feed, vertical tab, form feed, carriage return, space and the
    no-break space. *)
Definition is_space (c : ascii) : bool :=
  match nat_of_ascii c with
  | 9 | 10 | 11 | 12 | 13 | 32 | 160 => true
  | _ => false
  end%nat.

Fixpoint trimStart (s : string) : string :=
  match s with
  | EmptyString => EmptyString
  | String c s' => if is_space c then trimStart s' else s
  end.

Fixpoint trimEnd (s : string) : string :=
  match s with
  | EmptyString => EmptyString
  | String c s' =>
      match trimEnd s' with
      | EmptyString => if is_space c then EmptyString else String c EmptyString
      | t => String c t
      end
  end.

(** [s.trim()] *)
Definition trim (s : string) : string := trimEnd (trimStart s).

(** The pieces of [s] between maximal runs of white space; [in_gap] says that
    the unit before was white space. A run at the start or at the end leaves
    an empty piece there, and the empty string has one empty piece. *)
Fixpoint pieces (in_gap : bool) (s : string) : list string :=
  match s with
  | EmptyString => [EmptyString]
  | String c s' =>
      if is_space c then
        if in_gap then pieces true s' else EmptyString :: pieces true s'
      else
        match pieces false s' with
        | p :: ps => String c p :: ps
        | [] => [String c EmptyString]
        end
  end.

(** [s.split(/\s+/)] *)
Definition split_ws (s : string) : list string := pieces false s.

(** [argsStr ? argsStr.trim().split(/\s+/) : []] *)
Definition parse_args (argsStr : string) : list string :=
  match argsStr with
  | EmptyString => []
  | _ => split_ws (trim argsStr)
  end.

(** The [switch] of the command handler: the params it builds for an
    action, or the usage or unknown-action message it shows instead. *)
Definition command_params (action : string) (args : list string)
  : string + ToolParams :=
  match action_of action with
  | Some AInfo | Some AListChannels | Some ADisconnect => inr no_params
  | Some ASend =>
      match args with
      | _ :: target :: word :: words =>
          inr {| tp_host := None; tp_port := None; tp_nickname := None;
                 tp_channels := None; tp_target := Some target;
                 tp_message := Some (Str.join " " (word :: words));
                 tp_new_nick := None; tp_channel := None |}
      | _ => inl "Usage: irc send <target> <message>"
      end
  | Some AJoin =>
      match args with
      | _ :: channel :: _ =>
          inr {| tp_host := None; tp_port := None; tp_nickname := None;
                 tp_channels := None; tp_target := None; tp_message := None;
                 tp_new_nick := None; tp_channel := Some channel |}
      | _ => inl "Usage: irc join <channel>"
      end
  | Some ALeave =>
      match args with
      | _ :: channel :: _ =>
          inr {| tp_host := None; tp_port := None; tp_nickname := None;
                 tp_channels := None; tp_target := None; tp_message := None;
                 tp_new_nick := None; tp_channel := Some channel |}
      | _ => inl "Usage: irc leave <channel>"
      end
  | Some AChangeNick =>
      match args with
      | _ :: newNick :: _ =>
          inr {| tp_host := None; tp_port := None; tp_nickname := None;
                 tp_channels := None; tp_target := None; tp_message := None;
                 tp_new_nick := Some newNick; tp_channel := None |}
      | _ => inl "Usage: irc change_nick <nickname>"
      end
  | Some AConnect =>
      match args with
      | _ :: h :: n :: chs =>
          inr {| tp_host := Some h; tp_port := None; tp_nickname := Some n;
                 tp_channels := Some chs; tp_target := None; tp_message := None;
                 tp_new_nick := None; tp_channel := None |}
      | _ => inl "Usage: irc connect <host> <nickname> [channels...]"
      end
  | None =>
      inl ("Unknown action: " +:+ action +:+ Str.nl +:+
           "Supported: info, send, join, leave, change_nick, list_channels, " +:+
           "connect, disconnect")
  end.

(** The handler of the [irc] command. It calls [ctx.ui.notify] without
    testing [ctx.hasUI]. *)
Definition commandHandler (ctx : Ctx) (argsStr : string) (o : ConnectOutcome)
    (w : World) : World * list Call :=
  match parse_args argsStr with
  | [] =>
      match currentState w with
      | Some s =>
          if connected s then
            (emit w (ENotify ("Connected: " +:+ host s +:+ ":" +:+ pretty (port s) +:+
                              Str.nl +:+ "Nick: " +:+ nick s +:+ Str.nl +:+
                              "Channels: " +:+ Str.join ", " (channels s)) "info"), [])
          else (emit w (ENotify "Not connected to IRC" "info"), [])
      | None => (emit w (ENotify "Not connected to IRC" "info"), [])
      end
  | action :: rest =>
      match command_params action (action :: rest) with
      | inl message => (emit w (ENotify message "error"), [])
      | inr params =>
          let '(w1, calls, result) := dispatch ctx action params o w in
          let isError := Str.startsWith "Error:" (text result) in
          (emit w1 (ENotify (text result) (if isError then "error" else "info")), calls)
      end
  end.

(** ** Auto-connect on session start, and the injected prompt *)

(** What the hooks need from the machine: where an [agentsFile] entry lives
    under the agent directory ([resolveAgentsFilePath]), and the content of a
    file, [None] when reading it throws. *)
Record Host := {
  agentsPath : string → string;
  readFile : string → option string
}.

(** Calls on the transport made with the options of a profile, which the
    entries of [Effect] cannot carry. *)
Inductive ProfileCall :=
  | CNewClient (client : nat) (nick username gecos : string)
               (account : option (string * string))
  | CConnect (client : nat) (host : string) (port : Z) (nick username : string)
             (tls : bool).

(** [loadAgentsFile]. It reads the configuration again; [file] is the
    configuration file at the path in effect. A profile that is a member of
    [Object.prototype] has no [agentsFile]. The [console.warn] of its [catch]
    is not recorded. *)
Definition loadAgentsFile (fs : Host) (file : Profiles.ConfigFile)
    (profileName : string) (w : World) : World :=
  let w0 := with_cachedAgentsContent w None in
  match Profiles.getResolvedProfile file profileName with
  | Profiles.Fulfilled (Some r) =>
      match Profiles.profile r with
      | Profiles.Entry profile =>
          match truthy (prof_agentsFile profile) with
          | Some agentsFile =>
              match readFile fs (agentsPath fs agentsFile) with
              | Some content => with_cachedAgentsContent w0 (Some content)
              | None => w0
              end
          | None => w0
          end
      | Profiles.ProtoMember _ => w0
      end
  | _ => w0
  end.

Definition auto_connect_failed (profileName : string) (e : Profiles.Thrown) : string :=
  "Failed to auto-connect with profile " +:+ Str.dq +:+ profileName +:+ Str.dq +:+
  ": " +:+ Profiles.thrown_text e.

(** [pi.on("session_start")], after the [irc-config] flag was applied:
    [profileName] is the [irc-profile] flag and [file] the configuration
    file at the path in effect. A profile that is a member of
    [Object.prototype] has no [nick], so reading the nick's length throws, and
    the [catch] reports it. The result is [None] in one case: every guard
    passed and the server is a member of [Object.prototype]. The handler then
    goes on with [undefined] for host and port and writes them into the
    session record, which [IRCState] cannot hold; the embedding ends there. *)
Definition on_session_start (ctx : Ctx) (fs : Host) (file : Profiles.ConfigFile)
    (profileName : string) (w : World) : option (World * list ProfileCall) :=
  match profileName with
  | EmptyString => Some (w, [])
  | _ =>
      match Profiles.getResolvedProfile file profileName with
      | Profiles.Rejected e =>
          Some (notify ctx (auto_connect_failed profileName e) "error" w, [])
      | Profiles.Fulfilled None =>
          Some (notify ctx ("IRC profile " +:+ Str.dq +:+ profileName +:+ Str.dq +:+
                            " not found") "error" w, [])
      | Profiles.Fulfilled (Some r) =>
          match Profiles.profile r with
          | Profiles.ProtoMember _ =>
              Some (notify ctx
                      (auto_connect_failed profileName
                         (Profiles.TypeError (Profiles.cannot_read "length")))
                      "error" w, [])
          | Profiles.Entry profile =>
              if (8 <? String.length (prof_nick profile))%nat then
                let shortened := Str.substring0 8 (prof_nick profile) in
                Some (notify ctx
                        ("Profile " +:+ Str.dq +:+ profileName +:+ Str.dq +:+
                         " has nickname " +:+ Str.dq +:+ prof_nick profile +:+ Str.dq +:+
                         " which is too long (max 8 chars)." +:+ Str.nl +:+
                         "Suggested: " +:+ Str.dq +:+ shortened +:+ Str.dq +:+
                         Str.nl +:+ Str.nl +:+
                         "Please update the profile with a shorter nickname.")
                        "error" w, [])
              else
                match prof_autoConnect profile with
                | Some false =>
                    Some (notify ctx
                            ("IRC profile " +:+ Str.dq +:+ profileName +:+ Str.dq +:+
                             " loaded but autoConnect=false. Use irc({ action: " +:+
                             Str.dq +:+ "connect" +:+ Str.dq +:+ ", profile: " +:+
                             Str.dq +:+ profileName +:+ Str.dq +:+
                             " }) to connect manually.") "info" w, [])
                | _ =>
                    if isConnected w then Some (w, [])
                    else
                      match Profiles.server r with
                      | Profiles.ProtoMember _ => None
                      | Profiles.Entry server =>
                          let w1 := loadAgentsFile fs file profileName w in
                          let nick := prof_nick profile in
                          let w2 :=
                            with_currentState w1
                              (Some {| connected := false; host := srv_host server;
                                       port := srv_port server; nick := nick;
                                       channels := prof_channels profile;
                                       profileName := Some profileName |}) in
                          let username := default nick (truthy (prof_username profile)) in
                          let gecos := default nick (truthy (prof_realname profile)) in
                          let account :=
                            match truthy (prof_nickservPass profile) with
                            | Some password => Some (nick, password)
                            | None => None
                            end in
                          let c := next w2 in
                          let w3 := with_next (with_ircClient w2 (Some c)) (S c) in
                          let w4 :=
                            notify ctx
                              ("Auto-connecting to " +:+ srv_host server +:+ ":" +:+
                               pretty (srv_port server) +:+ " as " +:+ nick +:+
                               " (profile: " +:+ profileName +:+ ")") "info" w3 in
                          Some (w4,
                                [CNewClient c nick username gecos account;
                                 CConnect c (srv_host server) (srv_port server) nick
                                   username (default false (srv_ssl server))])
                      end
                end
          end
      end
  end.


(** ** Server announcements ([motd], [topic]) *)

(** The [pi.sendMessage] call of an announcement listener: custom type,
    content, the one or two [details] fields, and the [triggerTurn] flag. *)
Record Announcement := {
  an_customType : string;
  an_content : string;
  an_details : list (string * string);
  an_triggerTurn : bool
}.

(** [event.motd?.trim()] decides; the content carries the text untrimmed. *)
Definition on_motd (motd : option string) : option Announcement :=
  match motd with
  | Some m =>
      match trim m with
      | EmptyString => None
      | _ => Some {| an_customType := "irc_motd";
                     an_content := "Server MOTD:" +:+ Str.nl +:+ m;
                     an_details := [("motd", m)];
                     an_triggerTurn := false |}
      end
  | None => None
  end.

Definition on_topic (channel : string) (topic : option string) : option Announcement :=
  match truthy topic with
  | Some t => Some {| an_customType := "irc_channel_topic";
                      an_content := "Topic for " +:+ channel +:+ ": " +:+ t;
                      an_details := [("channel", channel); ("topic", t)];
                      an_triggerTurn := false |}
  | None => None
  end.

(** * Vocabulary of the properties *)

(** ** Keys, buffers and pending timers *)

(** The key of a chat line, [`${event.target}:${event.nick}`]. *)
Definition chat_key (event : MessageEvent) : string :=
  ev_target event +:+ ":" +:+ ev_nick event.

(** [clearTimeout] on a timer field that may be [null]. *)
Definition cancel (t : option nat) (m : gmap nat (N * Callback)) : gmap nat (N * Callback) :=
  match t with
  | Some t => delete t m
  | None => m
  end.

(** The key and buffer object a chat flush closure holds, and the same for a
    membership flush closure. *)
Definition sel_msg (cb : Callback) : option (string * nat) :=
  match cb with
  | CbFlushMessage _ k l => Some (k, l)
  | CbFlushEvent _ _ => None
  end.

Definition sel_evt (cb : Callback) : option (string * nat) :=
  match cb with
  | CbFlushMessage _ _ _ => None
  | CbFlushEvent k l => Some (k, l)
  end.

(** Both buffer families ([messageBuffers] and [eventBuffers]) use the same
    discipline. It is stated once, over the key map of a family, the timer
    field of every buffer object in its store, the selector that recognises
    the family's closures, the pending timers and the allocation counter. *)
Section Families.
Variable sel : Callback → option (string * nat).

Record family_ok (bufs : gmap string nat) (tv : gmap nat (option nat))
    (tm : gmap nat (N * Callback)) (nx : nat) : Prop := {
  fo_store : ∀ k l, bufs !! k = Some l → is_Some (tv !! l);
  fo_inj : ∀ k1 k2 l, bufs !! k1 = Some l → bufs !! k2 = Some l → k1 = k2;
  fo_timer : ∀ t d cb k l,
    tm !! t = Some (d, cb) → sel cb = Some (k, l) →
    bufs !! k = Some l ∧ tv !! l = Some (Some t);
  fo_fresh : ∀ l ot, tv !! l = Some ot → (l < nx)%nat ∧ ∀ t, ot = Some t → (t < nx)%nat;
  fo_owner : ∀ l t d cb,
    tv !! l = Some (Some t) → tm !! t = Some (d, cb) → ∃ k, sel cb = Some (k, l)
}.

(** The pending timers whose closure flushes key [k]. *)
Definition pending_of (k : string) (tm : gmap nat (N * Callback))
  : gmap nat (N * Callback) :=
  filter (λ x, fst <$> sel x.2.2 = Some k) tm.

End Families.

(** What is buffered under a key, and which timers are pending for it. *)
Definition chat_buffer (k : string) (w : World) : option MessageBuffer :=
  messageBuffers w !! k ≫= λ l, msgStore w !! l.

Definition chat_pending (k : string) (w : World) : gmap nat (N * Callback) :=
  pending_of sel_msg k (timers w).

Definition membership_buffer (k : string) (w : World) : option EventBuffer :=
  eventBuffers w !! k ≫= λ l, evtStore w !! l.

Definition membership_pending (k : string) (w : World) : gmap nat (N * Callback) :=
  pending_of sel_evt k (timers w).

(** ** The shape every reachable state has *)

(** Every pending timer id was handed out by the counter. *)
Definition timers_fresh (tm : gmap nat (N * Callback)) (nx : nat) : Prop :=
  ∀ t x, tm !! t = Some x → (t < nx)%nat.

(** Every key maps to a buffer object of its own in the store; a pending
    timer's closure holds the object its key maps to, and that object's timer
    field names the timer; ids handed out so far are below the counter. *)
Record wf (w : World) : Prop := {
  wf_msg : family_ok sel_msg (messageBuffers w) (mb_timer <$> msgStore w)
             (timers w) (next w);
  wf_evt : family_ok sel_evt (eventBuffers w) (eb_timer <$> evtStore w)
             (timers w) (next w);
  wf_timers : timers_fresh (timers w) (next w)
}.

(** The second state differs from the first in neither buffers nor timers. *)
Definition same_buffers (w w' : World) : Prop :=
  messageBuffers w' = messageBuffers w ∧ eventBuffers w' = eventBuffers w ∧
  msgStore w' = msgStore w ∧ evtStore w' = evtStore w ∧
  timers w' = timers w ∧ now w' = now w ∧ (next w ≤ next w')%nat.

(** What can happen to the extension: a tool call, a transport event, or time
    passing. *)
Inductive step : World → World → Prop :=
  | step_connect_start params w : step w (handleConnect_start params w).1
  | step_connect_settle ctx p o w : step w (handleConnect_settle ctx p o w).1
  | step_disconnect ctx w : step w (handleDisconnect ctx w).1
  | step_registered ctx w : step w (on_registered ctx w)
  | step_close ctx w : step w (on_close ctx w)
  | step_socket_error ctx message w : step w (on_socket_error ctx message w)
  | step_nick ctx event w : step w (on_nick ctx event w)
  | step_message event w : step w (on_message event w)
  | step_join ctx userNick event w : step w (on_join ctx userNick event w)
  | step_part userNick event w : step w (on_part userNick event w)
  | step_time t w : step w (advance t w).

Inductive reachable : World → Prop :=
  | reachable_init : reachable init
  | reachable_step w w' : reachable w → step w w' → reachable w'.

(** ** Bursts *)

(** A burst: lines from one sender to one target, each with its arrival
    time. *)
Definition line_event (target sender : string) (x : N * string) : N * MessageEvent :=
  (x.1, {| ev_target := target; ev_nick := sender; ev_message := x.2 |}).

Definition burst (target sender : string) (lines : list (N * string))
  : list (N * MessageEvent) :=
  line_event target sender <$> lines.

(** Each line arrives no earlier than the one before it and strictly within
    the quiet interval after it. *)
Fixpoint within_quiet (prev : N) (lines : list (N * string)) : Prop :=
  match lines with
  | [] => True
  | x :: rest =>
      (prev ≤ x.1)%N ∧ (x.1 < prev + MESSAGE_BUFFER_DELAY_MS)%N ∧ within_quiet x.1 rest
  end.

(** The arrival time of the last line. *)
Fixpoint last_time (first : N) (rest : list (N * string)) : N :=
  match rest with
  | [] => first
  | x :: rest' => last_time x.1 rest'
  end.

(** What one flush of a chat buffer sends. *)
Definition flush_effect (isDM : bool) (target sender ourNick text : string) : Effect :=
  if isDM
  then ESendUserMessage ("IRC DM from " +:+ sender +:+ ": " +:+ text) "steer"
  else ESendMessage "irc_channel_message"
         ("[" +:+ target +:+ "] " +:+ sender +:+ ": " +:+ text)
         (DChannelMessage target sender text)
         (Str.includes ("@" +:+ ourNick) text).

(** The trace entry is the timer queue running a chat flush of [key]. *)
Definition key_fire (key : string) (e : Effect) : bool :=
  match e with
  | ETimerFired (CbFlushMessage _ k _) => String.eqb k key
  | _ => false
  end.

(** Time passed without touching [key]: its buffer, its pending timers and
    the session are as before, the clock moved to at most [T], and nothing in
    the added trace is a flush of [key]. *)
Record quiet (key : string) (T : N) (w w' : World) : Prop := {
  q_store : msgStore w' = msgStore w;
  q_key : messageBuffers w' !! key = messageBuffers w !! key;
  q_pending : chat_pending key w' = chat_pending key w;
  q_session : currentState w' = currentState w;
  q_next : next w' = next w;
  q_timers : timers w' ⊆ timers w;
  q_now : (now w ≤ now w')%N ∧ (now w' ≤ N.max (now w) T)%N;
  q_trace : ∃ ext, trace w' = trace w ++ ext ∧
                   Forall (λ e, key_fire key e = false) ext
}.

(** The state in the middle of a burst under [key]: the buffer object [l]
    holds the lines so far, and its one timer is due a quiet interval after
    the last line. *)
Record burst_state (s : IRCState) (key : string) (l : nat) (isDM : bool)
    (target sender : string) (last : N) (msgs : list string) (w : World) : Prop := {
  bs_wf : wf w;
  bs_session : currentState w = Some s;
  bs_now : now w = last;
  bs_key : messageBuffers w !! key = Some l;
  bs_buffer : ∃ tid,
    msgStore w !! l = Some {| mb_nick := sender; mb_target := target;
                              mb_messages := msgs; mb_timer := Some tid |} ∧
    timers w !! tid
      = Some ((last + MESSAGE_BUFFER_DELAY_MS)%N, CbFlushMessage isDM key l)
}.

#[local] Instance Callback_eq_dec : EqDecision Callback.
Proof. solve_decision. Defined.

(** ** Sample data *)

Definition sample_server : IRCServer :=
  {| srv_host := "irc.libera.chat"; srv_port := 6697; srv_ssl := Some true |}.

Definition sample_profile (serverName : string) : IRCProfile :=
  {| prof_server := serverName; prof_nick := "pibot"; prof_username := None;
     prof_realname := None; prof_channels := ["#pi"]; prof_nickservPass := None;
     prof_autoConnect := None; prof_agentsFile := None |}.

Definition sample_config : IRCConfig :=
  {| servers := {[ "libera" := sample_server ]};
     profiles := {[ "work" := sample_profile "libera";
                    "broken" := sample_profile "nowhere" ]} |}.

Definition sample_ctx : Ctx := {| hasUI := true; theme_fg := λ _ s, s |}.

Definition sample_params : ConnectParams :=
  {| p_host := "irc.libera.chat"; p_port := None; p_nickname := "pibot";
     p_channels := Some ["pi"; "#dev"] |}.

Definition long_params : ConnectParams :=
  {| p_host := "irc.libera.chat"; p_port := Some 6667%Z; p_nickname := "ninechars";
     p_channels := None |}.

(** A first connect has issued its [connect] call and is waiting. *)
Definition sample_connecting : World := (handleConnect_start sample_params init).1.

(** A first connect has completed. *)
Definition sample_connected : World :=
  (handleConnect sample_ctx sample_params Registered init).1.

Definition sample_session : IRCState :=
  {| connected := true; host := "irc.libera.chat"; port := 6667; nick := "pibot";
     channels := ["#pi"; "#dev"]; profileName := None |}.

Definition dm_event : MessageEvent :=
  {| ev_target := "pibot"; ev_nick := "alice"; ev_message := "deploy now" |}.

Definition channel_event : MessageEvent :=
  {| ev_target := "#pi"; ev_nick := "alice"; ev_message := "ping @pibot" |}.

Definition other_event : MessageEvent :=
  {| ev_target := "#pi"; ev_nick := "bob"; ev_message := "morning" |}.

(** Two bursts are pending, one from alice and one from bob. *)
Definition sample_busy : World :=
  deliver_all sample_connected [(0%N, channel_event); (100%N, other_event)].

(** ** Tools and hooks *)

(** The [details] of a result carry an [error] field. *)
Definition has_error (r : ToolResult) : bool :=
  existsb (λ kv, String.eqb kv.1 "error") (details r).

(** What can happen to the extension when the tools, the command and the
    session hooks are counted in. *)
Inductive op : World → World → Prop :=
  | op_step w w' : step w w' → op w w'
  | op_dispatch ctx action params o w : op w (dispatch ctx action params o w).1.1
  | op_command ctx argsStr o w : op w (commandHandler ctx argsStr o w).1
  | op_session_start ctx fs file profileName w w' calls :
      on_session_start ctx fs file profileName w = Some (w', calls) → op w w'
  | op_session_shutdown w : op w (on_session_shutdown w).

Inductive operating : World → Prop :=
  | operating_init : operating init
  | operating_op w w' : operating w → op w w' → operating w'.

Definition send_params (target message : string) : ToolParams :=
  {| tp_host := None; tp_port := None; tp_nickname := None; tp_channels := None;
     tp_target := Some target; tp_message := Some message; tp_new_nick := None;
     tp_channel := None |}.

Definition channel_params (channel : string) : ToolParams :=
  {| tp_host := None; tp_port := None; tp_nickname := None; tp_channels := None;
     tp_target := None; tp_message := None; tp_new_nick := None;
     tp_channel := Some channel |}.

Definition nick_params (newNick : string) : ToolParams :=
  {| tp_host := None; tp_port := None; tp_nickname := None; tp_channels := None;
     tp_target := None; tp_message := None; tp_new_nick := Some newNick;
     tp_channel := None |}.

(** ** Command lines *)

(** Every code unit of [s] satisfies [p]. *)
Fixpoint all_units (p : ascii → bool) (s : string) : bool :=
  match s with
  | EmptyString => true
  | String c s' => p c && all_units p s'
  end.

(** White space only, possibly empty. *)
Definition blank (s : string) : bool := all_units is_space s.

(** A non-empty run of white space. *)
Definition is_gap (s : string) : bool :=
  match s with
  | EmptyString => false
  | _ => blank s
  end.

(** A non-empty string without white space. *)
Definition is_word (s : string) : bool :=
  match s with
  | EmptyString => false
  | _ => all_units (λ c, negb (is_space c)) s
  end.

(** A word followed by further words, each after its gap. *)
Fixpoint spaced (w : string) (rest : list (string * string)) : string :=
  match rest with
  | [] => w
  | (g, w') :: rest' => w +:+ g +:+ spaced w' rest'
  end.

(** A configuration whose profile names a server that only
    [Object.prototype] has. *)
Definition sample_odd_config : IRCConfig :=
  {| servers := {[ "libera" := sample_server ]};
     profiles := {[ "odd" := sample_profile "toString" ]} |}.

(** The sample configurations as files on disk. *)
Definition sample_file : Profiles.ConfigFile :=
  Profiles.Parsed (Profiles.typed sample_config).

Definition sample_odd_file : Profiles.ConfigFile :=
  Profiles.Parsed (Profiles.typed sample_odd_config).

(** A profile with a prompt file, and a machine that has the file. *)
Definition sample_docs_profile : IRCProfile :=
  {| prof_server := "libera"; prof_nick := "pibot";
     prof_username := None; prof_realname := None;
     prof_channels := ["pi"; "#dev"]; prof_nickservPass := None;
     prof_autoConnect := None;
     prof_agentsFile := Some "irc/AGENTS.md" |}.

Definition sample_prompt_config : IRCConfig :=
  {| servers := {[ "libera" := sample_server ]};
     profiles :=
       {[ "docs" := sample_docs_profile ]} |}.

Definition sample_prompt_file : Profiles.ConfigFile :=
  Profiles.Parsed (Profiles.typed sample_prompt_config).

Definition sample_host : Host :=
  {| agentsPath := λ f, "/home/pi/.pi/agent/" +:+ f;
     readFile := λ p, if String.eqb p "/home/pi/.pi/agent/irc/AGENTS.md"
                      then Some "Answer briefly." else None |}.

(** ** Shapes of the running extension *)

(** Transport and session are held together or not at all. *)
Definition paired (w : World) : Prop := ircClient w = None ↔ currentState w = None.

(** The second state has the transport, the session and the cached prompt of
    the first. *)
Definition same_session (w w' : World) : Prop :=
  ircClient w' = ircClient w ∧ currentState w' = currentState w ∧
  cachedAgentsContent w' = cachedAgentsContent w.

(** The trace entry hands something to the agent. *)
Definition is_delivery (e : Effect) : bool :=
  match e with
  | ESendUserMessage _ _ | ESendMessage _ _ _ _ => true
  | _ => false
  end.

(** The second state's trace extends the first's by entries that satisfy
    [P]. *)
Definition extends_by (P : Effect → Prop) (w w' : World) : Prop :=
  ∃ ext, trace w' = trace w ++ ext ∧ Forall P ext.

(** Nothing was handed to the agent between the two states. *)
Definition silent (w w' : World) : Prop := extends_by (λ e, is_delivery e = false) w w'.

(** With [session] the session at the time of sending: a message that
    starts a turn of the agent is a channel message whose text contains an
    at-sign followed by the nick of that session. *)
Definition wakes_on_mention (session : option IRCState) (e : Effect) : Prop :=
  match e with
  | ESendMessage customType _ details triggerTurn =>
      triggerTurn = true →
      customType = "irc_channel_message" ∧
      ∃ channel sender message s,
        details = DChannelMessage channel sender message ∧
        session = Some s ∧
        Str.includes ("@" +:+ nick s) message = true
  | _ => True
  end.

(** Two people come and go on a channel the extension has joined. *)
Definition carol_joins : MembershipEvent := {| mev_nick := "carol"; mev_channel := "#pi" |}.
Definition dave_leaves : MembershipEvent := {| mev_nick := "dave"; mev_channel := "#pi" |}.

Definition sample_crowd : World :=
  on_part (Some "pibot") dave_leaves
    (on_join sample_ctx (Some "pibot") carol_joins sample_connected).

(** A connect to a host that never answers, and the pending state of that
    connect and of the sample connect. *)
Definition stalled_params : ConnectParams :=
  {| p_host := "irc.invalid.example"; p_port := None; p_nickname := "pibot";
     p_channels := None |}.

Definition stalled_pending : PendingConnect :=
  {| pc_host := "irc.invalid.example"; pc_port := 6667; pc_nick := "pibot";
     pc_channels := [] |}.

Definition sample_pending : PendingConnect :=
  {| pc_host := "irc.libera.chat"; pc_port := 6667; pc_nick := "pibot";
     pc_channels := ["#pi"; "#dev"] |}.

(** * Properties *)

(** ** Strings *)

Lemma append_assoc (a b c : string) : (a +:+ b) +:+ c = a +:+ b +:+ c.
Proof.
  induction a as [|x a IH]; [done|].
  change (String x ((a +:+ b) +:+ c) = String x (a +:+ b +:+ c)). by rewrite IH.
Qed.

Lemma prefix_split (p s : string) :
  String.prefix p s = true ↔ ∃ r, s = p +:+ r.
Proof.
  revert s. induction p as [|c p IH]; intros s.
  - destruct s; simpl; (split; [intros _; by eexists | done]).
  - destruct s as [|c' s]; simpl; [split; [done | by intros [r ?]]|].
    destruct (Ascii.ascii_dec c c') as [->|Hne].
    + rewrite IH. split; intros [r Hr]; exists r; [by rewrite Hr | by injection Hr].
    + split; [done | intros [r Hr]; injection Hr; congruence].
Qed.

Lemma includes_unfold (sub s : string) :
  Str.includes sub s =
  if String.prefix sub s then true
  else match s with
       | EmptyString => false
       | String _ s' => Str.includes sub s'
       end.
Proof. by destruct s. Qed.

Lemma includes_split (sub s : string) :
  Str.includes sub s = true ↔ ∃ a b, s = a +:+ sub +:+ b.
Proof.
  split.
  - induction s as [|c s IH]; rewrite includes_unfold;
      destruct (String.prefix _ _) eqn:Hp.
    + intros _. apply prefix_split in Hp as [r Hr]. by exists EmptyString, r.
    + done.
    + intros _. apply prefix_split in Hp as [r Hr]. by exists EmptyString, r.
    + intros [a [b ->]]%IH. by exists (String c a), b.
  - intros [a [b ->]]. induction a as [|c a IH]; rewrite includes_unfold.
    + replace (String.prefix sub (EmptyString +:+ sub +:+ b)) with true; [done|].
      symmetry. apply prefix_split. by exists b.
    + destruct (String.prefix _ _); [done|]. exact IH.
Qed.

Lemma substring0_split (n : nat) (s : string) :
  (n ≤ String.length s)%nat →
  String.length (Str.substring0 n s) = n ∧ ∃ r, s = Str.substring0 n s +:+ r.
Proof.
  unfold Str.substring0. revert s. induction n as [|n IH]; intros s Hlen.
  - destruct s; simpl; (split; [done | eauto]).
  - destruct s as [|c s]; simpl in *; [lia|].
    destruct (IH s) as [Hl [r Hr]]; [lia|].
    split; [by rewrite Hl|]. exists r.
    change (String c s = String c (substring 0 n s +:+ r)). congruence.
Qed.

(** ** Profile resolution *)

(** On names that [Object.prototype] does not have, resolution does what
    one expects of it: a name with no profile yields absence; a profile whose
    server has no entry fails with an error that names that server; and a
    resolved pair is an entry of each mapping. *)
Lemma resolve_own_names (cfg : IRCConfig) (name : string) :
  name ∉ Profiles.object_prototype_names →
  (profiles cfg !! name = None →
     Profiles.getResolvedProfile (Profiles.Parsed (Profiles.typed cfg)) name
     = Profiles.Fulfilled None) ∧
  (∀ p, profiles cfg !! name = Some p → servers cfg !! prof_server p = None →
     prof_server p ∉ Profiles.object_prototype_names →
     Profiles.getResolvedProfile (Profiles.Parsed (Profiles.typed cfg)) name
       = Profiles.Rejected
           (Profiles.PlainError (Profiles.unknown_server_message name (prof_server p))) ∧
     Str.includes (prof_server p)
       (Profiles.unknown_server_message name (prof_server p)) = true) ∧
  (∀ p sv, profiles cfg !! name = Some p → servers cfg !! prof_server p = Some sv →
     Profiles.getResolvedProfile (Profiles.Parsed (Profiles.typed cfg)) name
       = Profiles.Fulfilled
           (Some {| Profiles.profile := Profiles.Entry p;
                    Profiles.server := Profiles.Entry sv |})).
Proof.
  intros Hname. split; [|split].
  - intros Hp. unfold Profiles.getResolvedProfile, Profiles.get. simpl.
    by rewrite Hp, bool_decide_eq_false_2.
  - intros p Hp Hs Hsrv. split.
    + unfold Profiles.getResolvedProfile, Profiles.get. simpl. rewrite Hp. simpl.
      by rewrite Hs, bool_decide_eq_false_2.
    + apply includes_split. unfold Profiles.unknown_server_message.
      exists ("Profile " +:+ Str.dq +:+ name +:+ Str.dq +:+
              " references unknown server " +:+ Str.dq), Str.dq.
      by rewrite !append_assoc.
  - intros p sv Hp Hs. unfold Profiles.getResolvedProfile, Profiles.get. simpl.
    rewrite Hp. simpl. by rewrite Hs.
Qed.

(** C9: resolution at names that [Object.prototype] has. The name
    [constructor], which no profile of the configuration has, does not
    resolve to absence: it fails, with an error about a server called
    [undefined]. A profile whose server is [toString], which no entry of the
    server mapping has, does not fail: it resolves, with a member of
    [Object.prototype] in the place of the server. *)
Theorem resolve_profile_inherited_names :
  profiles sample_config !! "constructor" = None ∧
  Profiles.getResolvedProfile sample_file "constructor"
  = Profiles.Rejected
      (Profiles.PlainError (Profiles.unknown_server_message "constructor" "undefined")) ∧
  profiles sample_odd_config !! "odd" = Some (sample_profile "toString") ∧
  servers sample_odd_config !! "toString" = None ∧
  Profiles.getResolvedProfile sample_odd_file "odd"
  = Profiles.Fulfilled
      (Some {| Profiles.profile := Profiles.Entry (sample_profile "toString");
               Profiles.server := Profiles.ProtoMember "toString" |}).
Proof. repeat split; vm_compute; reflexivity. Qed.

(** ** Session listeners *)

(** C8: a nick confirmation whose old nick is the tracked nick replaces the
    tracked nick by the new one; any other confirmation changes nothing. *)
Theorem nick_confirmation_guard (ctx : Ctx) (event : NickEvent) (w : World)
    (s : IRCState) :
  currentState w = Some s →
  (nev_nick event = nick s →
     currentState (on_nick ctx event w) = Some (set_nick (nev_new_nick event) s)) ∧
  (nev_nick event ≠ nick s → on_nick ctx event w = w).
Proof.
  intros Hs. unfold on_nick, updateStatus. rewrite Hs. split.
  - intros ->. rewrite String.eqb_refl. simpl.
    destruct (hasUI ctx); [|done]. simpl. by destruct (connected s).
  - intros Hne. apply String.eqb_neq in Hne. by rewrite Hne.
Qed.

(** C10: on [close] the session is kept and only its [connected] flag is
    cleared; host, port, nick, channels and profile name stay, and so does the
    transport reference. *)
Theorem close_only_clears_connected (ctx : Ctx) (w : World) (s : IRCState) :
  currentState w = Some s →
  ∃ s', currentState (on_close ctx w) = Some s' ∧
        connected s' = false ∧ host s' = host s ∧ port s' = port s ∧
        nick s' = nick s ∧ channels s' = channels s ∧
        profileName s' = profileName s ∧
        ircClient (on_close ctx w) = ircClient w.
Proof.
  intros Hs. exists (set_connected false s).
  unfold on_close, notify, updateStatus. rewrite Hs.
  destruct (hasUI ctx); simpl; repeat split; done.
Qed.

(** ** Connecting *)

Lemma isConnected_true (w : World) :
  isConnected w = true →
  ∃ c s, ircClient w = Some c ∧ currentState w = Some s ∧ connected s = true.
Proof.
  unfold isConnected. destruct (ircClient w) as [c|]; [|done].
  destruct (currentState w) as [s|]; [|done]. eauto.
Qed.

Lemma handleConnect_while_connected (ctx : Ctx) (params : ConnectParams)
    (o : ConnectOutcome) (w : World) :
  isConnected w = true →
  ∃ s, currentState w = Some s ∧
       handleConnect_start params w = (w, Returned (already_connected (nick s))) ∧
       handleConnect ctx params o w = (w, already_connected (nick s)).
Proof.
  intros Hc. destruct (isConnected_true w Hc) as (c & s & _ & Hs & _).
  exists s. unfold handleConnect, handleConnect_start. by rewrite Hc, Hs.
Qed.

(** C1, as the code has it: a connect call made while a transport exists and
    the session's [connected] flag is set returns the already-connected error
    and leaves the whole state, trace included, as it was: no transport is
    made and no connect is issued. *)
Theorem connect_rejected_when_connected (ctx : Ctx) (params : ConnectParams)
    (o : ConnectOutcome) (w : World) :
  isConnected w = true →
  ∃ c s, ircClient w = Some c ∧ currentState w = Some s ∧ connected s = true ∧
         handleConnect_start params w = (w, Returned (already_connected (nick s))) ∧
         handleConnect ctx params o w = (w, already_connected (nick s)).
Proof.
  intros Hc. destruct (isConnected_true w Hc) as (c & s & Hcl & Hs & Hflag).
  destruct (handleConnect_while_connected ctx params o w Hc) as (s' & Hs' & H1 & H2).
  rewrite Hs in Hs'. injection Hs' as <-. by exists c, s.
Qed.

(** C5, as the code has it: with a nickname of more than eight code units a
    connect call returns without touching the state or the trace; its result
    is the nickname-too-long error, carrying the nickname and its first eight
    code units, unless a session is connected, in which case the
    already-connected error comes first. *)
Theorem connect_rejects_long_nickname (ctx : Ctx) (params : ConnectParams)
    (o : ConnectOutcome) (w : World) :
  (8 < String.length (p_nickname params))%nat →
  let n := p_nickname params in
  String.length (Str.substring0 8 n) = 8%nat ∧
  (∃ r, n = Str.substring0 8 n +:+ r) ∧
  (isConnected w = false →
     handleConnect ctx params o w = (w, nickname_too_long n (Str.substring0 8 n))) ∧
  (isConnected w = true →
     ∃ s, currentState w = Some s ∧
          handleConnect ctx params o w = (w, already_connected (nick s))).
Proof.
  intros Hlen n.
  destruct (substring0_split 8 n) as [Hl Hr]; [unfold n; lia|].
  split; [done|]. split; [done|]. split.
  - intros Hc. unfold handleConnect, handleConnect_start. rewrite Hc.
    apply Nat.ltb_lt in Hlen. by rewrite Hlen.
  - intros Hc.
    destruct (handleConnect_while_connected ctx params o w Hc) as (s & ? & _ & ?).
    eauto.
Qed.

(** The property at sample data. *)
Lemma nick_confirmation_guard_witness :
  currentState (on_nick sample_ctx {| nev_nick := "pibot"; nev_new_nick := "pibot2" |}
                  sample_connected)
    = Some (set_nick "pibot2" sample_session) ∧
  on_nick sample_ctx {| nev_nick := "alice"; nev_new_nick := "alice2" |} sample_connected
    = sample_connected.
Proof.
  split.
  - apply (nick_confirmation_guard sample_ctx
             {| nev_nick := "pibot"; nev_new_nick := "pibot2" |}
             sample_connected sample_session); reflexivity.
  - apply (nick_confirmation_guard sample_ctx
             {| nev_nick := "alice"; nev_new_nick := "alice2" |}
             sample_connected sample_session); [reflexivity | discriminate].
Defined.

(** The property at sample data. *)
Lemma close_only_clears_connected_witness :
  ∃ s', currentState (on_close sample_ctx sample_connected) = Some s' ∧
        connected s' = false ∧ host s' = "irc.libera.chat" ∧ port s' = 6667%Z ∧
        nick s' = "pibot" ∧ channels s' = ["#pi"; "#dev"] ∧
        profileName s' = None ∧
        ircClient (on_close sample_ctx sample_connected) = Some 0%nat.
Proof.
  apply (close_only_clears_connected sample_ctx sample_connected sample_session).
  reflexivity.
Defined.

(** The property at sample data. *)
Lemma connect_rejected_when_connected_witness :
  ∃ c s, ircClient sample_connected = Some c ∧
         currentState sample_connected = Some s ∧ connected s = true ∧
         handleConnect_start sample_params sample_connected
           = (sample_connected, Returned (already_connected (nick s))) ∧
         handleConnect sample_ctx sample_params Registered sample_connected
           = (sample_connected, already_connected (nick s)).
Proof.
  apply (connect_rejected_when_connected sample_ctx sample_params Registered
           sample_connected).
  reflexivity.
Defined.

(** C1 as stated fails while a first connect is still waiting: the session
    exists with [connected = false], the guard lets the second call through,
    and it makes a second transport and issues a second [connect]. *)
Lemma connect_while_connecting_not_rejected :
  ircClient sample_connecting = Some 0%nat ∧
  (connected <$> currentState sample_connecting) = Some false ∧
  ∃ w' p,
    handleConnect_start sample_params sample_connecting = (w', Pending p) ∧
    trace w' = trace sample_connecting ++
               [ENewClient 1; EConnect 1 "irc.libera.chat" 6667 "pibot"] ∧
    (handleConnect sample_ctx sample_params Registered sample_connecting).2
      = connect_success p.
Proof.
  split; [reflexivity|]. split; [reflexivity|].
  eexists _, _. split; [reflexivity|]. split; reflexivity.
Qed.

(** The property at sample data. *)
Lemma connect_rejects_long_nickname_witness :
  String.length (Str.substring0 8 "ninechars") = 8%nat ∧
  (∃ r, "ninechars" = Str.substring0 8 "ninechars" +:+ r) ∧
  (isConnected init = false →
     handleConnect sample_ctx long_params Registered init
       = (init, nickname_too_long "ninechars" (Str.substring0 8 "ninechars"))) ∧
  (isConnected init = true →
     ∃ s, currentState init = Some s ∧
          handleConnect sample_ctx long_params Registered init
            = (init, already_connected (nick s))).
Proof.
  apply (connect_rejects_long_nickname sample_ctx long_params Registered init).
  simpl. lia.
Defined.

(** C5 as stated fails when a session is connected: the long nickname is
    never looked at, and the call returns the already-connected error. *)
Lemma connect_long_nickname_while_connected :
  (8 < String.length (p_nickname long_params))%nat ∧
  isConnected sample_connected = true ∧
  (handleConnect sample_ctx long_params Registered sample_connected).2
    = already_connected "pibot" ∧
  (handleConnect sample_ctx long_params Registered sample_connected).2
    ≠ nickname_too_long "ninechars" "ninechar".
Proof.
  split; [simpl; lia|]. split; [reflexivity|]. split; [reflexivity|].
  discriminate.
Qed.

#[local] Arguments connect_success : simpl never.
#[local] Arguments connect_error : simpl never.
#[local] Arguments nickname_too_long : simpl never.
#[local] Arguments already_connected : simpl never.

Lemma join_all_keeps_session (c : nat) (chs : list string) (w : World) :
  let w' := foldl (λ acc channel, emit acc (EJoin c channel)) w chs in
  ircClient w' = ircClient w ∧ currentState w' = currentState w.
Proof.
  revert w. induction chs as [|ch chs IH]; intros w; simpl; [done|].
  destruct (IH (emit w (EJoin c ch))) as [-> ->]. done.
Qed.

(** A connect call from a state with no transport and no session, with a
    nickname that fits, goes through when the server registers it. *)
Lemma connect_from_idle_succeeds (ctx : Ctx) (params : ConnectParams) (w : World) :
  ircClient w = None →
  (String.length (p_nickname params) ≤ 8)%nat →
  ∃ w' p,
    handleConnect ctx params Registered w = (w', connect_success p) ∧
    pc_host p = p_host params ∧ pc_nick p = p_nickname params ∧
    isConnected w' = true ∧ ircClient w' = Some (next w).
Proof.
  intros Hc Hlen. unfold handleConnect, handleConnect_start, isConnected.
  rewrite Hc. apply Nat.ltb_ge in Hlen. rewrite Hlen. simpl.
  eexists _, _. split; [reflexivity|]. simpl. split; [done|]. split; [done|].
  unfold on_registered, isConnected, updateStatus. simpl.
  destruct (hasUI ctx); simpl.
  - match goal with |- context [foldl ?f ?a ?l] =>
      destruct (join_all_keeps_session (next w) l a) as [-> ->] end.
    done.
  - match goal with |- context [foldl ?f ?a ?l] =>
      destruct (join_all_keeps_session (next w) l a) as [-> ->] end.
    done.
Qed.

Lemma handleConnect_start_accepted (params : ConnectParams) (w : World) :
  isConnected w = false →
  (String.length (p_nickname params) ≤ 8)%nat →
  ∃ w1 p,
    handleConnect_start params w = (w1, Pending p) ∧
    ircClient w1 = Some (next w) ∧
    (connected <$> currentState w1) = Some false ∧
    trace w1 = trace w ++
               [ENewClient (next w);
                EConnect (next w) (p_host params) (pc_port p) (p_nickname params)].
Proof.
  intros Hc Hlen. unfold handleConnect_start.
  rewrite Hc. apply Nat.ltb_ge in Hlen. rewrite Hlen.
  eexists _, _. split; [reflexivity|]. simpl. by rewrite <- app_assoc.
Qed.

Lemma connect_rollback_clean (c : nat) (w : World) :
  ircClient w = Some c →
  ircClient (connect_rollback w) = None ∧
  currentState (connect_rollback w) = None ∧
  trace (connect_rollback w) = trace w ++ [EQuit c None].
Proof. intros Hc. unfold connect_rollback. by rewrite Hc. Qed.

(** A connect call with nothing else running between its start and its end:
    an attempt that was let through and then times out or gets a transport
    error quits the transport it made, ends with neither transport nor
    session, and returns the error; a later connect with a nickname that fits
    is then let through and succeeds once the server registers it. *)
Theorem failed_connect_rolls_back (ctx : Ctx) (params : ConnectParams)
    (o : ConnectOutcome) (w : World) :
  isConnected w = false →
  (String.length (p_nickname params) ≤ 8)%nat →
  o ≠ Registered →
  ∃ w' message connectPort mid,
    handleConnect ctx params o w = (w', connect_error message) ∧
    ircClient w' = None ∧ currentState w' = None ∧
    trace w' = trace w ++
               [ENewClient (next w);
                EConnect (next w) (p_host params) connectPort (p_nickname params)] ++
               mid ++ [EQuit (next w) None] ∧
    Forall (λ e, is_transport e = false) mid ∧
    ∀ ctx2 params2,
      (String.length (p_nickname params2) ≤ 8)%nat →
      ∃ w'' p2,
        handleConnect ctx2 params2 Registered w' = (w'', connect_success p2) ∧
        pc_host p2 = p_host params2 ∧ pc_nick p2 = p_nickname params2 ∧
        isConnected w'' = true.
Proof.
  intros Hc Hlen Ho.
  destruct (handleConnect_start_accepted params w Hc Hlen)
    as (w1 & p & Hstart & Hc1 & _ & Ht1).
  assert (∀ w', ircClient w' = None →
    ∀ ctx2 params2,
      (String.length (p_nickname params2) ≤ 8)%nat →
      ∃ w'' p2,
        handleConnect ctx2 params2 Registered w' = (w'', connect_success p2) ∧
        pc_host p2 = p_host params2 ∧ pc_nick p2 = p_nickname params2 ∧
        isConnected w'' = true) as Hagain.
  { intros w' Hnone ctx2 params2 Hlen2.
    destruct (connect_from_idle_succeeds ctx2 params2 w' Hnone Hlen2)
      as (w'' & p2 & ? & ? & ? & ? & _).
    by exists w'', p2. }
  unfold handleConnect. rewrite Hstart.
  destruct o as [|m|]; [done| |]; unfold handleConnect_settle.
  - assert (ircClient (on_socket_error ctx m w1) = Some (next w)) as Hc2
      by (unfold on_socket_error, notify; by destruct (hasUI ctx)).
    destruct (connect_rollback_clean _ _ Hc2) as (Hn & Hs & Ht).
    exists (connect_rollback (on_socket_error ctx m w1)),
           ("Connection failed: " +:+ m), (pc_port p),
           (if hasUI ctx then [ENotify ("IRC error: " +:+ m) "error"] else []).
    split; [done|]. split; [done|]. split; [done|].
    split.
    + rewrite Ht. unfold on_socket_error, notify.
      destruct (hasUI ctx); simpl; rewrite Ht1; by rewrite <- !app_assoc.
    + split; [destruct (hasUI ctx); by repeat constructor|]. by apply Hagain.
  - destruct (connect_rollback_clean _ _ Hc1) as (Hn & Hs & Ht).
    exists (connect_rollback w1), "Connection timeout (10s)", (pc_port p), [].
    split; [done|]. split; [done|]. split; [done|].
    split; [rewrite Ht, Ht1; by rewrite <- !app_assoc|].
    split; [by constructor | by apply Hagain].
Qed.

(** The property at sample data. *)
Lemma failed_connect_rolls_back_witness :
  ∃ w' message connectPort mid,
    handleConnect sample_ctx sample_params TimedOut init = (w', connect_error message) ∧
    ircClient w' = None ∧ currentState w' = None ∧
    trace w' = trace init ++
               [ENewClient (next init);
                EConnect (next init) (p_host sample_params) connectPort
                  (p_nickname sample_params)] ++
               mid ++ [EQuit (next init) None] ∧
    Forall (λ e, is_transport e = false) mid ∧
    ∀ ctx2 params2,
      (String.length (p_nickname params2) ≤ 8)%nat →
      ∃ w'' p2,
        handleConnect ctx2 params2 Registered w' = (w'', connect_success p2) ∧
        pc_host p2 = p_host params2 ∧ pc_nick p2 = p_nickname params2 ∧
        isConnected w'' = true.
Proof.
  apply (failed_connect_rolls_back sample_ctx sample_params TimedOut init);
    [reflexivity | simpl; lia | discriminate].
Defined.

(** ** Debouncing *)

Lemma on_message_no_session (event : MessageEvent) (w : World) :
  currentState w = None → on_message event w = w.
Proof. intros H. unfold on_message. by rewrite H. Qed.

(** The first line of a burst: a new buffer object and a first timer. *)
Lemma on_message_fresh (event : MessageEvent) (w : World) (s : IRCState) :
  currentState w = Some s →
  messageBuffers w !! chat_key event = None →
  on_message event w =
  {| ircClient := ircClient w; currentState := currentState w;
     cachedAgentsContent := cachedAgentsContent w;
     messageBuffers := <[chat_key event := next w]> (messageBuffers w);
     eventBuffers := eventBuffers w;
     msgStore := <[next w := {| mb_nick := ev_nick event; mb_target := ev_target event;
                                mb_messages := [ev_message event];
                                mb_timer := Some (S (next w)) |}]> (msgStore w);
     evtStore := evtStore w;
     timers := <[S (next w) :=
                   ((now w + MESSAGE_BUFFER_DELAY_MS)%N,
                    CbFlushMessage (String.eqb (ev_target event) (nick s))
                      (chat_key event) (next w))]> (timers w);
     now := now w; next := S (S (next w)); trace := trace w |}.
Proof.
  intros Hs Hk. unfold on_message, chat_key in *. rewrite Hs, Hk. simpl.
  rewrite lookup_insert_eq. simpl. unfold with_msgStore. simpl.
  by rewrite insert_insert_eq, Hs.
Qed.

(** A further line: the same buffer object, its timer replaced. *)
Lemma on_message_existing (event : MessageEvent) (w : World) (s : IRCState)
    (l : nat) (b : MessageBuffer) :
  currentState w = Some s →
  messageBuffers w !! chat_key event = Some l →
  msgStore w !! l = Some b →
  on_message event w =
  {| ircClient := ircClient w; currentState := currentState w;
     cachedAgentsContent := cachedAgentsContent w;
     messageBuffers := messageBuffers w;
     eventBuffers := eventBuffers w;
     msgStore := <[l := {| mb_nick := mb_nick b; mb_target := mb_target b;
                           mb_messages := mb_messages b ++ [ev_message event];
                           mb_timer := Some (next w) |}]> (msgStore w);
     evtStore := evtStore w;
     timers := <[next w :=
                   ((now w + MESSAGE_BUFFER_DELAY_MS)%N,
                    CbFlushMessage (String.eqb (ev_target event) (nick s))
                      (chat_key event) l)]> (cancel (mb_timer b) (timers w));
     now := now w; next := S (next w); trace := trace w |}.
Proof.
  intros Hs Hk Hb. unfold on_message, chat_key in *. rewrite Hs, Hk, Hb.
  destruct (mb_timer b); by rewrite <- Hs.
Qed.

Section Family.
Variable sel : Callback → option (string * nat).

Lemma cancel_lookup_Some (told : option nat) (tm : gmap nat (N * Callback)) t x :
  cancel told tm !! t = Some x → tm !! t = Some x ∧ told ≠ Some t.
Proof.
  destruct told as [t0|]; simpl; [|by intros ?].
  rewrite lookup_delete. case_decide; [done|]. intros ?. split; [done | congruence].
Qed.

Lemma family_empty : family_ok sel ∅ ∅ ∅ 0.
Proof. split; intros *; by rewrite ?lookup_empty. Qed.

Lemma family_next_mono bufs tv tm nx nx' :
  (nx ≤ nx')%nat → family_ok sel bufs tv tm nx → family_ok sel bufs tv tm nx'.
Proof.
  intros Hle [H1 H2 H3 H4 H5]. split; try done.
  intros l ot Hl. destruct (H4 l ot Hl) as [? Ht]. split; [lia|].
  intros t Heq. specialize (Ht t Heq). lia.
Qed.

(** The first record under a key. *)
Lemma family_record_fresh bufs tv tm nx k d cb :
  family_ok sel bufs tv tm nx → timers_fresh tm nx →
  bufs !! k = None → sel cb = Some (k, nx) →
  family_ok sel (<[k := nx]> bufs) (<[nx := Some (S nx)]> tv)
            (<[S nx := (d, cb)]> tm) (S (S nx)).
Proof.
  intros [H1 H2 H3 H4 H5] Hf Hk Hsel.
  assert (tv !! nx = None) as Hnx.
  { destruct (tv !! nx) as [ot|] eqn:E; [|done]. apply H4 in E as [? _]. lia. }
  assert (∀ k' l, bufs !! k' = Some l → l ≠ nx) as Hold.
  { intros k' l Hl ->. apply H1 in Hl as [? Hl]. congruence. }
  split.
  - intros k' l. rewrite lookup_insert. case_decide as E.
    + intros [= <-]. by rewrite lookup_insert_eq.
    + intros Hl. rewrite lookup_insert_ne; [eauto | by apply Hold in Hl].
  - intros k1 k2 l. rewrite !lookup_insert.
    repeat case_decide; subst; try done.
    + intros [= <-] Hl. by apply Hold in Hl.
    + intros Hl [= <-]. by apply Hold in Hl.
    + apply H2.
  - intros t d' cb' k' l. rewrite lookup_insert. case_decide as E.
    + intros [= <- <-]. rewrite Hsel. intros [= <- <-]. subst.
      by rewrite !lookup_insert_eq.
    + intros Ht Hs. destruct (H3 _ _ _ _ _ Ht Hs) as [Hb Hv].
      assert (k' ≠ k) by congruence.
      assert (l ≠ nx) by (by apply Hold in Hb).
      by rewrite !lookup_insert_ne.
  - intros l ot. rewrite lookup_insert. case_decide as E.
    + intros [= <-]. subst. split; [lia|]. intros t [= <-]. lia.
    + intros Hl. destruct (H4 _ _ Hl) as [? Ht]. split; [lia|].
      intros t Heq. specialize (Ht t Heq). lia.
  - intros l t d' cb'. rewrite lookup_insert. case_decide as E.
    + intros [= <-]. subst. rewrite lookup_insert_eq. intros [= <- <-]. eauto.
    + intros Hl. destruct (H4 _ _ Hl) as [_ Ht]. specialize (Ht t eq_refl).
      rewrite lookup_insert_ne; [|lia]. eauto.
Qed.

(** A further record under a key whose buffer object is [l]. *)
Lemma family_record_existing bufs tv tm nx k l told d cb :
  family_ok sel bufs tv tm nx → timers_fresh tm nx →
  bufs !! k = Some l → tv !! l = Some told → sel cb = Some (k, l) →
  family_ok sel bufs (<[l := Some nx]> tv) (<[nx := (d, cb)]> (cancel told tm)) (S nx).
Proof.
  intros [H1 H2 H3 H4 H5] Hf Hk Hl Hsel. split.
  - intros k' l' Hl'. rewrite lookup_insert. case_decide; eauto.
  - done.
  - intros t d' cb' k' l'. rewrite lookup_insert. case_decide as E.
    + intros [= <- <-]. rewrite Hsel. intros [= <- <-]. subst.
      by rewrite lookup_insert_eq.
    + intros [Ht Hne]%cancel_lookup_Some Hs.
      destruct (H3 _ _ _ _ _ Ht Hs) as [Hb Hv]. split; [done|].
      rewrite lookup_insert_ne; [done|]. intros <-. congruence.
  - intros l' ot. rewrite lookup_insert. case_decide as E.
    + intros [= <-]. subst. destruct (H4 _ _ Hl) as [? _]. split; [lia|].
      intros t [= <-]. lia.
    + intros Hl'. destruct (H4 _ _ Hl') as [? Ht]. split; [lia|].
      intros t Heq. specialize (Ht t Heq). lia.
  - intros l' t d' cb'. rewrite lookup_insert. case_decide as E.
    + intros [= <-]. subst. rewrite lookup_insert_eq. intros [= <- <-]. eauto.
    + intros Hl'. destruct (H4 _ _ Hl') as [_ Ht]. specialize (Ht t eq_refl).
      rewrite lookup_insert_ne; [|lia]. intros [Ht' _]%cancel_lookup_Some. eauto.
Qed.

(** A record in the other family: one timer may go, and a timer this family
    does not recognise is added. *)
Lemma family_record_other bufs tv tm nx nx' told tnew d cb :
  family_ok sel bufs tv tm nx → sel cb = None → (nx ≤ tnew < nx')%nat →
  family_ok sel bufs tv (<[tnew := (d, cb)]> (cancel told tm)) nx'.
Proof.
  intros [H1 H2 H3 H4 H5] Hsel Hrange. split; try done.
  - intros t d' cb' k l. rewrite lookup_insert. case_decide as E.
    + intros [= <- <-]. by rewrite Hsel.
    + intros [Ht _]%cancel_lookup_Some. eauto.
  - intros l ot Hl. destruct (H4 _ _ Hl) as [? Ht]. split; [lia|].
    intros t Heq. specialize (Ht t Heq). lia.
  - intros l t d' cb' Hl. destruct (H4 _ _ Hl) as [_ Ht]. specialize (Ht t eq_refl).
    rewrite lookup_insert_ne; [|lia]. intros [Ht' _]%cancel_lookup_Some. eauto.
Qed.

(** A timer goes, whatever it was. *)
Lemma family_timer_gone bufs tv tm nx t :
  family_ok sel bufs tv tm nx → family_ok sel bufs tv (delete t tm) nx.
Proof.
  intros [H1 H2 H3 H4 H5]. split; try done.
  - intros t' d cb k l. rewrite lookup_delete. case_decide; [done | eauto].
  - intros l t' d cb Hl. rewrite lookup_delete. case_decide; [done | eauto].
Qed.

(** The family's own timer [t] ran and removed its key. *)
Lemma family_flush_own bufs tv tm nx t d cb k l :
  family_ok sel bufs tv tm nx → tm !! t = Some (d, cb) → sel cb = Some (k, l) →
  family_ok sel (delete k bufs) tv (delete t tm) nx.
Proof.
  intros [H1 H2 H3 H4 H5] Ht Hsel.
  destruct (H3 _ _ _ _ _ Ht Hsel) as [Hb Hv]. split; try done.
  - intros k' l'. rewrite lookup_delete. case_decide; [done | eauto].
  - intros k1 k2 l'. rewrite !lookup_delete. repeat case_decide; try done. eauto.
  - intros t' d' cb' k' l'. rewrite !lookup_delete. case_decide as E; [done|].
    intros Ht' Hs'. destruct (H3 _ _ _ _ _ Ht' Hs') as [Hb' Hv'].
    case_decide as E'; [|done]. subst k'. congruence.
  - intros l' t' d' cb' Hl'. rewrite lookup_delete. case_decide; [done | eauto].
Qed.

(** No key has two pending timers. *)
Lemma family_one_timer_per_key bufs tv tm nx t1 t2 d1 d2 cb1 cb2 k l1 l2 :
  family_ok sel bufs tv tm nx →
  tm !! t1 = Some (d1, cb1) → sel cb1 = Some (k, l1) →
  tm !! t2 = Some (d2, cb2) → sel cb2 = Some (k, l2) →
  t1 = t2.
Proof.
  intros H Ht1 Hs1 Ht2 Hs2.
  destruct (fo_timer _ _ _ _ _ H _ _ _ _ _ Ht1 Hs1) as [Hb1 Hv1].
  destruct (fo_timer _ _ _ _ _ H _ _ _ _ _ Ht2 Hs2) as [Hb2 Hv2].
  congruence.
Qed.

End Family.

Lemma wf_init : wf init.
Proof.
  split; simpl; rewrite ?fmap_empty; try apply family_empty.
  intros t x. by rewrite lookup_empty.
Qed.

(** The membership block, first event of a burst and further events. *)
Lemma bufferEvent_fresh (channel line : string) (w : World) :
  eventBuffers w !! channel = None →
  bufferEvent channel line w =
  {| ircClient := ircClient w; currentState := currentState w;
     cachedAgentsContent := cachedAgentsContent w;
     messageBuffers := messageBuffers w;
     eventBuffers := <[channel := next w]> (eventBuffers w);
     msgStore := msgStore w;
     evtStore := <[next w := {| eb_channel := channel; eb_events := [line];
                                eb_timer := Some (S (next w)) |}]> (evtStore w);
     timers := <[S (next w) :=
                   ((now w + EVENT_BUFFER_DELAY_MS)%N,
                    CbFlushEvent channel (next w))]> (timers w);
     now := now w; next := S (S (next w)); trace := trace w |}.
Proof.
  intros Hk. unfold bufferEvent. rewrite Hk. simpl.
  rewrite lookup_insert_eq. simpl. unfold with_evtStore. simpl.
  by rewrite insert_insert_eq.
Qed.

Lemma bufferEvent_existing (channel line : string) (w : World) (l : nat)
    (b : EventBuffer) :
  eventBuffers w !! channel = Some l →
  evtStore w !! l = Some b →
  bufferEvent channel line w =
  {| ircClient := ircClient w; currentState := currentState w;
     cachedAgentsContent := cachedAgentsContent w;
     messageBuffers := messageBuffers w;
     eventBuffers := eventBuffers w;
     msgStore := msgStore w;
     evtStore := <[l := {| eb_channel := eb_channel b;
                           eb_events := eb_events b ++ [line];
                           eb_timer := Some (next w) |}]> (evtStore w);
     timers := <[next w :=
                   ((now w + EVENT_BUFFER_DELAY_MS)%N, CbFlushEvent channel l)]>
                 (cancel (eb_timer b) (timers w));
     now := now w; next := S (next w); trace := trace w |}.
Proof.
  intros Hk Hb. unfold bufferEvent. rewrite Hk, Hb. by destruct (eb_timer b).
Qed.

(** What a flush leaves behind: nothing changed, an uncaught error, or one
    message sent and the key removed. *)
Lemma flushBuffer_cases (isDM : bool) (k : string) (l : nat) (w : World) :
  flushBuffer isDM k l w = w ∨
  flushBuffer isDM k l w = emit w EUncaughtTypeError ∨
  ∃ e, is_fire e = false ∧
       flushBuffer isDM k l w
       = with_messageBuffers (emit w e) (delete k (messageBuffers w)).
Proof.
  unfold flushBuffer. destruct (msgStore w !! l) as [b|]; [|by left].
  destruct (mb_messages b); [by left|].
  destruct isDM; [right; right; eexists; split; [|reflexivity]; reflexivity|].
  destruct (currentState w); [|right; by left].
  right; right; eexists; split; [|reflexivity]; reflexivity.
Qed.

Lemma flushEventBuffer_cases (k : string) (l : nat) (w : World) :
  flushEventBuffer k l w = w ∨
  ∃ e, is_fire e = false ∧
       flushEventBuffer k l w
       = with_eventBuffers (emit w e) (delete k (eventBuffers w)).
Proof.
  unfold flushEventBuffer. destruct (evtStore w !! l) as [b|]; [|by left].
  destruct (eb_events b); [by left|].
  right; eexists; split; [|reflexivity]; reflexivity.
Qed.

Lemma wf_on_message (event : MessageEvent) (w : World) :
  wf w → wf (on_message event w).
Proof.
  intros [Hm He Hf].
  destruct (currentState w) as [s|] eqn:Hs;
    [|by rewrite on_message_no_session].
  destruct (messageBuffers w !! chat_key event) as [l|] eqn:Hk.
  - destruct (fo_store _ _ _ _ _ Hm _ _ Hk) as [ot Hot].
    rewrite lookup_fmap in Hot.
    destruct (msgStore w !! l) as [b|] eqn:Hb; [|done].
    rewrite (on_message_existing event w s l b Hs Hk Hb).
    split; simpl.
    + rewrite fmap_insert. simpl.
      apply family_record_existing with (k := chat_key event); try done.
      by rewrite lookup_fmap, Hb.
    + apply (family_record_other sel_evt _ _ _ (next w)); [done | done | lia].
    + intros t x. rewrite lookup_insert. case_decide; [intros; lia|].
      intros [Ht _]%cancel_lookup_Some. apply Hf in Ht. lia.
  - rewrite (on_message_fresh event w s Hs Hk).
    split; simpl.
    + rewrite fmap_insert. simpl. by apply family_record_fresh.
    + apply (family_record_other sel_evt _ _ _ (next w) _ None); [done | done | lia].
    + intros t x. rewrite lookup_insert. case_decide; [intros; lia|].
      intros Ht. apply Hf in Ht. lia.
Qed.

Lemma wf_bufferEvent (channel line : string) (w : World) :
  wf w → wf (bufferEvent channel line w).
Proof.
  intros [Hm He Hf].
  destruct (eventBuffers w !! channel) as [l|] eqn:Hk.
  - destruct (fo_store _ _ _ _ _ He _ _ Hk) as [ot Hot].
    rewrite lookup_fmap in Hot.
    destruct (evtStore w !! l) as [b|] eqn:Hb; [|done].
    rewrite (bufferEvent_existing channel line w l b Hk Hb).
    split; simpl.
    + apply (family_record_other sel_msg _ _ _ (next w)); [done | done | lia].
    + rewrite fmap_insert. simpl.
      apply family_record_existing with (k := channel); try done.
      by rewrite lookup_fmap, Hb.
    + intros t x. rewrite lookup_insert. case_decide; [intros; lia|].
      intros [Ht _]%cancel_lookup_Some. apply Hf in Ht. lia.
  - rewrite (bufferEvent_fresh channel line w Hk).
    split; simpl.
    + apply (family_record_other sel_msg _ _ _ (next w) _ None); [done | done | lia].
    + rewrite fmap_insert. simpl. by apply family_record_fresh.
    + intros t x. rewrite lookup_insert. case_decide; [intros; lia|].
      intros Ht. apply Hf in Ht. lia.
Qed.

Lemma wf_on_join (ctx : Ctx) (userNick : option string) (event : MembershipEvent)
    (w : World) :
  wf w → wf (on_join ctx userNick event w).
Proof.
  intros H. unfold on_join.
  destruct (hasUI ctx && _); [by destruct H|].
  destruct (negb _); [by apply wf_bufferEvent | done].
Qed.

Lemma wf_on_part (userNick : option string) (event : MembershipEvent) (w : World) :
  wf w → wf (on_part userNick event w).
Proof.
  intros H. unfold on_part.
  destruct (negb _); [by apply wf_bufferEvent | done].
Qed.

Lemma wf_fire (t : nat) (w : World) : wf w → wf (fire t w).
Proof.
  intros [Hm He Hf]. unfold fire.
  destruct (timers w !! t) as [[d cb]|] eqn:Ht; [|done].
  assert (timers_fresh (delete t (timers w)) (next w)) as Hf'.
  { intros t' x. rewrite lookup_delete. case_decide; [done | apply Hf]. }
  destruct cb as [isDM k l|k l]; unfold run_callback.
  - destruct (flushBuffer_cases isDM k l
      (emit (with_now (with_timers w (delete t (timers w))) (N.max (now w) d))
         (ETimerFired (CbFlushMessage isDM k l))))
      as [-> | [-> | (e & _ & ->)]];
      (split; simpl;
       [first [by eapply family_flush_own | by apply family_timer_gone]
       | by apply family_timer_gone | done]).
  - destruct (flushEventBuffer_cases k l
      (emit (with_now (with_timers w (delete t (timers w))) (N.max (now w) d))
         (ETimerFired (CbFlushEvent k l))))
      as [-> | (e & _ & ->)];
      (split; simpl;
       [by apply family_timer_gone
       | first [by eapply family_flush_own | by apply family_timer_gone] | done]).
Qed.

Lemma wf_advance (t : N) (w : World) : wf w → wf (advance t w).
Proof.
  intros H. unfold advance.
  assert (wf (foldl (λ acc x, fire x.1 acc) w (due t w))) as [? ? ?].
  { generalize (due t w). intros l. revert w H.
    induction l as [|x l IH]; intros w H; simpl; [done|].
    apply IH. by apply wf_fire. }
  by split.
Qed.

Lemma wf_deliver_all (l : list (N * MessageEvent)) (w : World) :
  wf w → wf (deliver_all w l).
Proof.
  revert w. induction l as [|x l IH]; intros w H; simpl; [done|].
  apply IH. unfold deliver. by apply wf_on_message, wf_advance.
Qed.

(** *** Handlers that leave buffers and timers alone *)

Lemma same_buffers_refl (w : World) : same_buffers w w.
Proof. by repeat split. Qed.

Lemma same_buffers_trans (w1 w2 w3 : World) :
  same_buffers w1 w2 → same_buffers w2 w3 → same_buffers w1 w3.
Proof.
  intros (? & ? & ? & ? & ? & ? & ?) (? & ? & ? & ? & ? & ? & ?).
  repeat split; try congruence. lia.
Qed.

Lemma same_buffers_wf (w w' : World) : same_buffers w w' → wf w → wf w'.
Proof.
  intros (Hm & He & Hms & Hes & Ht & _ & Hn) [H1 H2 H3].
  split; rewrite ?Hm, ?He, ?Hms, ?Hes, ?Ht.
  - by eapply family_next_mono.
  - by eapply family_next_mono.
  - intros t x Hx. apply H3 in Hx. lia.
Qed.

Lemma same_buffers_updateStatus (ctx : Ctx) (w : World) :
  same_buffers w (updateStatus ctx w).
Proof.
  unfold updateStatus. destruct (currentState w) as [s|]; [|apply same_buffers_refl].
  destruct (negb (hasUI ctx)); [apply same_buffers_refl|].
  destruct (connected s); by repeat split.
Qed.

Lemma same_buffers_join_all (c : nat) (chs : list string) (w : World) :
  same_buffers w (foldl (λ acc channel, emit acc (EJoin c channel)) w chs).
Proof.
  revert w. induction chs as [|ch chs IH]; intros w; simpl;
    [apply same_buffers_refl|].
  eapply same_buffers_trans; [|apply IH]. by repeat split.
Qed.

Lemma same_buffers_on_registered (ctx : Ctx) (w : World) :
  same_buffers w (on_registered ctx w).
Proof.
  unfold on_registered. destruct (currentState w) as [s|]; [|apply same_buffers_refl].
  set (w1 := with_currentState w (Some (set_connected true s))).
  set (w2 := if hasUI ctx then _ else w1).
  assert (same_buffers w w2) as H2.
  { unfold w2. destruct (hasUI ctx); [|by repeat split].
    eapply same_buffers_trans; [|apply same_buffers_updateStatus]. by repeat split. }
  destruct (ircClient w2).
  - eapply same_buffers_trans; [exact H2 | apply same_buffers_join_all].
  - destruct (channels s); [done|].
    eapply same_buffers_trans; [exact H2 | by repeat split].
Qed.

Lemma same_buffers_on_close (ctx : Ctx) (w : World) : same_buffers w (on_close ctx w).
Proof.
  unfold on_close.
  eapply same_buffers_trans; [|apply same_buffers_updateStatus].
  unfold notify. destruct (currentState w), (hasUI ctx); by repeat split.
Qed.

Lemma same_buffers_on_nick (ctx : Ctx) (event : NickEvent) (w : World) :
  same_buffers w (on_nick ctx event w).
Proof.
  unfold on_nick. destruct (currentState w) as [s|]; [|apply same_buffers_refl].
  destruct (String.eqb _ _); [|apply same_buffers_refl].
  destruct (hasUI ctx); [|by repeat split].
  eapply same_buffers_trans; [|apply same_buffers_updateStatus]. by repeat split.
Qed.

Lemma same_buffers_connect_rollback (w : World) : same_buffers w (connect_rollback w).
Proof. unfold connect_rollback. destruct (ircClient w); by repeat split. Qed.

Lemma same_buffers_handleConnect_start (params : ConnectParams) (w : World) :
  same_buffers w (handleConnect_start params w).1.
Proof.
  unfold handleConnect_start.
  destruct (if isConnected w then _ else _); [apply same_buffers_refl|].
  destruct (8 <? _)%nat; [apply same_buffers_refl|].
  repeat split. simpl. lia.
Qed.

Lemma same_buffers_on_socket_error (ctx : Ctx) (message : string) (w : World) :
  same_buffers w (on_socket_error ctx message w).
Proof. unfold on_socket_error, notify. destruct (hasUI ctx); by repeat split. Qed.

Lemma same_buffers_handleConnect_settle (ctx : Ctx) (p : PendingConnect)
    (o : ConnectOutcome) (w : World) :
  same_buffers w (handleConnect_settle ctx p o w).1.
Proof.
  destruct o as [|m|]; simpl.
  - apply same_buffers_on_registered.
  - eapply same_buffers_trans; [|apply same_buffers_connect_rollback].
    apply same_buffers_on_socket_error.
  - apply same_buffers_connect_rollback.
Qed.

Lemma same_buffers_handleConnect (ctx : Ctx) (params : ConnectParams)
    (o : ConnectOutcome) (w : World) :
  same_buffers w (handleConnect ctx params o w).1.
Proof.
  unfold handleConnect.
  pose proof (same_buffers_handleConnect_start params w) as H.
  destruct (handleConnect_start params w) as [w1 [r|p]]; [done|].
  simpl in H. eapply same_buffers_trans; [exact H|].
  apply same_buffers_handleConnect_settle.
Qed.

Lemma same_buffers_handleDisconnect (ctx : Ctx) (w : World) :
  same_buffers w (handleDisconnect ctx w).1.
Proof.
  unfold handleDisconnect. destruct (ircClient w); [|apply same_buffers_refl].
  destruct (isConnected w); [|apply same_buffers_refl].
  destruct (hasUI ctx); by repeat split.
Qed.

(** *** Reachable states *)

Lemma step_wf (w w' : World) : step w w' → wf w → wf w'.
Proof.
  intros Hstep Hwf. destruct Hstep.
  - eapply same_buffers_wf; [apply same_buffers_handleConnect_start | done].
  - eapply same_buffers_wf; [apply same_buffers_handleConnect_settle | done].
  - eapply same_buffers_wf; [apply same_buffers_handleDisconnect | done].
  - eapply same_buffers_wf; [apply same_buffers_on_registered | done].
  - eapply same_buffers_wf; [apply same_buffers_on_close | done].
  - eapply same_buffers_wf; [apply same_buffers_on_socket_error | done].
  - eapply same_buffers_wf; [apply same_buffers_on_nick | done].
  - by apply wf_on_message.
  - by apply wf_on_join.
  - by apply wf_on_part.
  - by apply wf_advance.
Qed.

(** Every state the extension can reach has the shape [wf]. *)
Lemma reachable_wf (w : World) : reachable w → wf w.
Proof.
  induction 1 as [|w w' _ IH Hstep]; [apply wf_init | by eapply step_wf].
Qed.

Lemma wf_sample_connected : wf sample_connected.
Proof.
  eapply same_buffers_wf; [apply same_buffers_handleConnect | apply wf_init].
Qed.

(** ** Routing *)

(** What a chat line leaves behind: its key maps to a buffer object that ends
    with the line, and the buffer's timer is pending, due one quiet interval
    from now, with a closure that captured whether the line was addressed to
    the session's nick. *)
Lemma on_message_schedules (event : MessageEvent) (w : World) (s : IRCState) :
  wf w → currentState w = Some s →
  ∃ t l b,
    messageBuffers (on_message event w) !! chat_key event = Some l ∧
    msgStore (on_message event w) !! l = Some b ∧
    mb_timer b = Some t ∧
    (∃ earlier, mb_messages b = earlier ++ [ev_message event]) ∧
    (messageBuffers w !! chat_key event = None →
       mb_nick b = ev_nick event ∧ mb_target b = ev_target event ∧
       mb_messages b = [ev_message event]) ∧
    timers (on_message event w) !! t
      = Some ((now w + MESSAGE_BUFFER_DELAY_MS)%N,
              CbFlushMessage (String.eqb (ev_target event) (nick s))
                (chat_key event) l).
Proof.
  intros [Hm _ _] Hs.
  destruct (messageBuffers w !! chat_key event) as [l|] eqn:Hk.
  - destruct (fo_store _ _ _ _ _ Hm _ _ Hk) as [ot Hot].
    rewrite lookup_fmap in Hot.
    destruct (msgStore w !! l) as [b|] eqn:Hb; [|done].
    rewrite (on_message_existing event w s l b Hs Hk Hb). simpl.
    eexists (next w), l, _. rewrite !lookup_insert_eq.
    split; [done|]. split; [done|]. split; [done|]. split; [by eexists|].
    split; done.
  - rewrite (on_message_fresh event w s Hs Hk). simpl.
    eexists (S (next w)), (next w), _. rewrite !lookup_insert_eq.
    split; [done|]. split; [done|]. split; [done|]. split; [by exists []|].
    split; done.
Qed.

Lemma flushBuffer_dm (k : string) (l : nat) (w : World) (b : MessageBuffer) :
  msgStore w !! l = Some b → mb_messages b ≠ [] →
  flushBuffer true k l w =
  with_messageBuffers
    (emit w (ESendUserMessage
               ("IRC DM from " +:+ mb_nick b +:+ ": " +:+ Str.join Str.nl (mb_messages b))
               "steer"))
    (delete k (messageBuffers w)).
Proof.
  intros Hb Hne. unfold flushBuffer. rewrite Hb. by destruct (mb_messages b).
Qed.

Lemma flushBuffer_channel (k : string) (l : nat) (w : World) (b : MessageBuffer)
    (s : IRCState) :
  msgStore w !! l = Some b → mb_messages b ≠ [] → currentState w = Some s →
  flushBuffer false k l w =
  with_messageBuffers
    (emit w (ESendMessage "irc_channel_message"
               ("[" +:+ mb_target b +:+ "] " +:+ mb_nick b +:+ ": " +:+
                Str.join Str.nl (mb_messages b))
               (DChannelMessage (mb_target b) (mb_nick b)
                  (Str.join Str.nl (mb_messages b)))
               (Str.includes ("@" +:+ nick s) (Str.join Str.nl (mb_messages b)))))
    (delete k (messageBuffers w)).
Proof.
  intros Hb Hne Hs. unfold flushBuffer. rewrite Hb, Hs. by destruct (mb_messages b).
Qed.

Lemma flushBuffer_channel_no_session (k : string) (l : nat) (w : World)
    (b : MessageBuffer) :
  msgStore w !! l = Some b → mb_messages b ≠ [] → currentState w = None →
  flushBuffer false k l w = emit w EUncaughtTypeError.
Proof.
  intros Hb Hne Hs. unfold flushBuffer. rewrite Hb, Hs. by destruct (mb_messages b).
Qed.

(** C4: a chat line addressed to the session's own nick schedules a flush
    closure that captured [isDM = true]; whenever that closure runs on a
    non-empty buffer it sends exactly one user message, delivered as steer
    and rendered as IRC DM from <nick>: <text>, whatever the text and whatever
    the session state then is. *)
Theorem dm_unit_steers (event : MessageEvent) (w : World) (s : IRCState) :
  wf w → currentState w = Some s → ev_target event = nick s →
  ∃ t l b,
    messageBuffers (on_message event w) !! chat_key event = Some l ∧
    msgStore (on_message event w) !! l = Some b ∧
    mb_timer b = Some t ∧
    (∃ earlier, mb_messages b = earlier ++ [ev_message event]) ∧
    (messageBuffers w !! chat_key event = None →
       mb_nick b = ev_nick event ∧ mb_target b = ev_target event ∧
       mb_messages b = [ev_message event]) ∧
    timers (on_message event w) !! t
      = Some ((now w + MESSAGE_BUFFER_DELAY_MS)%N,
              CbFlushMessage true (chat_key event) l) ∧
    ∀ w' b',
      msgStore w' !! l = Some b' → mb_messages b' ≠ [] →
      trace (run_callback (CbFlushMessage true (chat_key event) l) w')
        = trace w' ++
          [ESendUserMessage
             ("IRC DM from " +:+ mb_nick b' +:+ ": " +:+
              Str.join Str.nl (mb_messages b')) "steer"].
Proof.
  intros Hwf Hs Ht.
  destruct (on_message_schedules event w s Hwf Hs)
    as (t & l & b & H1 & H2 & H3 & H4 & H5 & H6).
  rewrite Ht, String.eqb_refl in H6.
  exists t, l, b. repeat (split; [done|]).
  intros w' b' Hb' Hne. simpl. by rewrite (flushBuffer_dm _ _ _ _ Hb' Hne).
Qed.

(** While a session exists: a chat line addressed to anything but the
    session's own nick schedules a flush closure that captured
    [isDM = false]; whenever that closure runs on a non-empty buffer while a
    session exists it sends exactly
    one channel message, rendered as [<channel>] <nick>: <text>, whose
    [triggerTurn] flag is set exactly when the text contains @ followed by
    the nick the session has at that moment. *)
Theorem channel_unit_mention_triggers (event : MessageEvent) (w : World)
    (s : IRCState) :
  wf w → currentState w = Some s → ev_target event ≠ nick s →
  ∃ t l b,
    messageBuffers (on_message event w) !! chat_key event = Some l ∧
    msgStore (on_message event w) !! l = Some b ∧
    mb_timer b = Some t ∧
    (∃ earlier, mb_messages b = earlier ++ [ev_message event]) ∧
    (messageBuffers w !! chat_key event = None →
       mb_nick b = ev_nick event ∧ mb_target b = ev_target event ∧
       mb_messages b = [ev_message event]) ∧
    timers (on_message event w) !! t
      = Some ((now w + MESSAGE_BUFFER_DELAY_MS)%N,
              CbFlushMessage false (chat_key event) l) ∧
    ∀ w' b' s',
      msgStore w' !! l = Some b' → mb_messages b' ≠ [] →
      currentState w' = Some s' →
      ∃ triggerTurn,
        trace (run_callback (CbFlushMessage false (chat_key event) l) w')
          = trace w' ++
            [ESendMessage "irc_channel_message"
               ("[" +:+ mb_target b' +:+ "] " +:+ mb_nick b' +:+ ": " +:+
                Str.join Str.nl (mb_messages b'))
               (DChannelMessage (mb_target b') (mb_nick b')
                  (Str.join Str.nl (mb_messages b')))
               triggerTurn] ∧
        (triggerTurn = true ↔
         ∃ pre post,
           Str.join Str.nl (mb_messages b') = pre +:+ ("@" +:+ nick s') +:+ post).
Proof.
  intros Hwf Hs Ht.
  destruct (on_message_schedules event w s Hwf Hs)
    as (t & l & b & H1 & H2 & H3 & H4 & H5 & H6).
  apply String.eqb_neq in Ht. rewrite Ht in H6.
  exists t, l, b. repeat (split; [done|]).
  intros w' b' s' Hb' Hne Hs'.
  exists (Str.includes ("@" +:+ nick s') (Str.join Str.nl (mb_messages b'))).
  split; [|apply includes_split].
  simpl. by rewrite (flushBuffer_channel _ _ _ _ _ Hb' Hne Hs').
Qed.

(** The property at sample data. *)
Lemma dm_unit_steers_witness :
  ∃ t l,
    timers (on_message dm_event sample_connected) !! t
      = Some (1000%N, CbFlushMessage true "pibot:alice" l) ∧
    trace (run_callback (CbFlushMessage true "pibot:alice" l)
             (on_message dm_event sample_connected))
      = trace sample_connected ++
        [ESendUserMessage "IRC DM from alice: deploy now" "steer"].
Proof.
  assert (currentState sample_connected = Some sample_session) as Hs
    by (vm_compute; reflexivity).
  assert (messageBuffers sample_connected !! chat_key dm_event = None) as Hk
    by (vm_compute; reflexivity).
  destruct (dm_unit_steers dm_event sample_connected sample_session
              wf_sample_connected Hs eq_refl)
    as (t & l & b & _ & Hb & _ & _ & Hfresh & Ht & Hrun).
  destruct (Hfresh Hk) as (Hn & _ & Hm).
  exists t, l. split; [exact Ht|].
  change "pibot:alice" with (chat_key dm_event).
  rewrite (Hrun _ b Hb); [|by rewrite Hm].
  rewrite Hn, Hm. vm_compute. reflexivity.
Defined.

(** The property at sample data. *)
Lemma channel_unit_mention_triggers_witness :
  ∃ t l,
    timers (on_message channel_event sample_connected) !! t
      = Some (1000%N, CbFlushMessage false "#pi:alice" l) ∧
    trace (run_callback (CbFlushMessage false "#pi:alice" l)
             (on_message channel_event sample_connected))
      = trace sample_connected ++
        [ESendMessage "irc_channel_message" "[#pi] alice: ping @pibot"
           (DChannelMessage "#pi" "alice" "ping @pibot") true].
Proof.
  assert (currentState sample_connected = Some sample_session) as Hs
    by (vm_compute; reflexivity).
  assert (messageBuffers sample_connected !! chat_key channel_event = None) as Hk
    by (vm_compute; reflexivity).
  assert (currentState (on_message channel_event sample_connected)
          = Some sample_session) as Hs' by (vm_compute; reflexivity).
  destruct (channel_unit_mention_triggers channel_event sample_connected
              sample_session wf_sample_connected Hs)
    as (t & l & b & _ & Hb & _ & _ & Hfresh & Ht & Hrun); [discriminate|].
  destruct (Hfresh Hk) as (Hn & Htg & Hm).
  exists t, l. split; [exact Ht|].
  change "#pi:alice" with (chat_key channel_event).
  destruct (Hrun _ b sample_session Hb) as (tt & Htr & Hiff);
    [by rewrite Hm | exact Hs' |].
  assert (tt = true) as ->.
  { apply Hiff. rewrite Hm. by exists "ping ", EmptyString. }
  rewrite Htr, Hn, Htg, Hm. vm_compute. reflexivity.
Defined.

(** ** Isolation between keys *)

Section Pending.
Variable sel : Callback → option (string * nat).

Lemma pending_of_lookup (k : string) (tm : gmap nat (N * Callback)) t d cb :
  pending_of sel k tm !! t = Some (d, cb) ↔
  tm !! t = Some (d, cb) ∧ fst <$> sel cb = Some k.
Proof. unfold pending_of. by rewrite map_lookup_filter_Some. Qed.

Lemma pending_of_delete_other (B : string) (tm : gmap nat (N * Callback)) t :
  (∀ d cb, tm !! t = Some (d, cb) → fst <$> sel cb ≠ Some B) →
  pending_of sel B (delete t tm) = pending_of sel B tm.
Proof.
  intros H. unfold pending_of. apply map_filter_delete_not.
  intros [d cb] Ht. simpl. by apply (H d cb).
Qed.

Lemma pending_of_cancel_other (B : string) (tm : gmap nat (N * Callback)) told :
  (∀ t d cb, told = Some t → tm !! t = Some (d, cb) → fst <$> sel cb ≠ Some B) →
  pending_of sel B (cancel told tm) = pending_of sel B tm.
Proof.
  intros H. destruct told as [t|]; [|done]. simpl.
  apply pending_of_delete_other. intros d cb. by apply (H t d cb).
Qed.

Lemma pending_of_insert_other (B : string) (tm : gmap nat (N * Callback)) t d cb :
  tm !! t = None → fst <$> sel cb ≠ Some B →
  pending_of sel B (<[t := (d, cb)]> tm) = pending_of sel B tm.
Proof.
  intros Hnone H. unfold pending_of. apply map_filter_insert_not'; [done|].
  intros y. by rewrite Hnone.
Qed.

(** In a well-shaped family the timer a buffer names is, if pending, a timer
    of that buffer's key. *)
Lemma family_buffer_timer_key bufs tv tm nx k l t d cb :
  family_ok sel bufs tv tm nx →
  bufs !! k = Some l → tv !! l = Some (Some t) → tm !! t = Some (d, cb) →
  fst <$> sel cb = Some k.
Proof.
  intros H Hk Hl Ht.
  destruct (fo_owner _ _ _ _ _ H _ _ _ _ Hl Ht) as [k' Hsel].
  destruct (fo_timer _ _ _ _ _ H _ _ _ _ _ Ht Hsel) as [Hk' _].
  rewrite Hsel. simpl. f_equal. by eapply (fo_inj _ _ _ _ _ H).
Qed.

End Pending.

Lemma timers_fresh_next (w : World) : wf w → timers w !! next w = None.
Proof.
  intros [_ _ Hf]. destruct (timers w !! next w) eqn:E; [|done].
  apply Hf in E. lia.
Qed.

Lemma timers_fresh_next_S (w : World) : wf w → timers w !! S (next w) = None.
Proof.
  intros [_ _ Hf]. destruct (timers w !! S (next w)) eqn:E; [|done].
  apply Hf in E. lia.
Qed.

Lemma cancel_lookup_None (told : option nat) (tm : gmap nat (N * Callback)) t :
  tm !! t = None → cancel told tm !! t = None.
Proof.
  intros H. destruct told as [t0|]; simpl; [|done].
  rewrite lookup_delete. by case_decide.
Qed.

(** A chat line under one key leaves every other chat key as it was. *)
Lemma on_message_other_key (event : MessageEvent) (B : string) (w : World) :
  wf w → chat_key event ≠ B →
  chat_buffer B (on_message event w) = chat_buffer B w ∧
  chat_pending B (on_message event w) = chat_pending B w ∧
  trace (on_message event w) = trace w.
Proof.
  intros Hwf Hne. pose proof Hwf as [Hm _ Hf].
  destruct (currentState w) as [s|] eqn:Hs;
    [|by rewrite on_message_no_session].
  unfold chat_buffer, chat_pending.
  destruct (messageBuffers w !! chat_key event) as [l|] eqn:Hk.
  - destruct (fo_store _ _ _ _ _ Hm _ _ Hk) as [ot Hot].
    rewrite lookup_fmap in Hot.
    destruct (msgStore w !! l) as [b|] eqn:Hb; [|done].
    rewrite (on_message_existing event w s l b Hs Hk Hb). simpl.
    split; [|split; [|done]].
    + destruct (messageBuffers w !! B) as [lB|] eqn:HB; [|done]. simpl.
      rewrite lookup_insert_ne; [done|]. intros <-.
      apply Hne. by eapply (fo_inj _ _ _ _ _ Hm).
    + rewrite pending_of_insert_other;
        [| by apply cancel_lookup_None, timers_fresh_next | simpl; congruence].
      apply pending_of_cancel_other. intros t d cb Ht Hlive.
      erewrite (family_buffer_timer_key sel_msg); [| done | exact Hk | | exact Hlive].
      * congruence.
      * by rewrite lookup_fmap, Hb, <- Ht.
  - rewrite (on_message_fresh event w s Hs Hk). simpl.
    split; [|split; [|done]].
    + rewrite lookup_insert_ne; [|done].
      destruct (messageBuffers w !! B) as [lB|] eqn:HB; [|done]. simpl.
      rewrite lookup_insert_ne; [done|]. intros <-.
      destruct (fo_store _ _ _ _ _ Hm _ _ HB) as [ot Hot].
      apply (fo_fresh _ _ _ _ _ Hm) in Hot as [? _]. lia.
    + apply pending_of_insert_other; [by apply timers_fresh_next_S|].
      simpl. congruence.
Qed.

(** A membership event in one channel leaves every other channel's buffer
    and timers as they were. *)
Lemma bufferEvent_other_key (channel line B : string) (w : World) :
  wf w → channel ≠ B →
  membership_buffer B (bufferEvent channel line w) = membership_buffer B w ∧
  membership_pending B (bufferEvent channel line w) = membership_pending B w.
Proof.
  intros Hwf Hne. pose proof Hwf as [_ He Hf].
  unfold membership_buffer, membership_pending.
  destruct (eventBuffers w !! channel) as [l|] eqn:Hk.
  - destruct (fo_store _ _ _ _ _ He _ _ Hk) as [ot Hot].
    rewrite lookup_fmap in Hot.
    destruct (evtStore w !! l) as [b|] eqn:Hb; [|done].
    rewrite (bufferEvent_existing channel line w l b Hk Hb). simpl. split.
    + destruct (eventBuffers w !! B) as [lB|] eqn:HB; [|done]. simpl.
      rewrite lookup_insert_ne; [done|]. intros <-.
      apply Hne. by eapply (fo_inj _ _ _ _ _ He).
    + rewrite pending_of_insert_other;
        [| by apply cancel_lookup_None, timers_fresh_next | simpl; congruence].
      apply pending_of_cancel_other. intros t d cb Ht Hlive.
      erewrite (family_buffer_timer_key sel_evt); [| done | exact Hk | | exact Hlive].
      * congruence.
      * by rewrite lookup_fmap, Hb, <- Ht.
  - rewrite (bufferEvent_fresh channel line w Hk). simpl. split.
    + rewrite lookup_insert_ne; [|done].
      destruct (eventBuffers w !! B) as [lB|] eqn:HB; [|done]. simpl.
      rewrite lookup_insert_ne; [done|]. intros <-.
      destruct (fo_store _ _ _ _ _ He _ _ HB) as [ot Hot].
      apply (fo_fresh _ _ _ _ _ He) in Hot as [? _]. lia.
    + apply pending_of_insert_other; [by apply timers_fresh_next_S|].
      simpl. congruence.
Qed.

(** What running a timer changes: the timer is gone, the clock is at least
    its deadline, the trace grows by the firing and at most one more effect,
    and of the key maps only the closure's own key can change. *)
Lemma fire_not_pending (t : nat) (w : World) :
  timers w !! t = None → fire t w = w.
Proof. intros H. unfold fire. by rewrite H. Qed.

Lemma fire_pending (t : nat) (w : World) (d : N) (cb : Callback) :
  timers w !! t = Some (d, cb) →
  msgStore (fire t w) = msgStore w ∧ evtStore (fire t w) = evtStore w ∧
  currentState (fire t w) = currentState w ∧ ircClient (fire t w) = ircClient w ∧
  next (fire t w) = next w ∧ timers (fire t w) = delete t (timers w) ∧
  now (fire t w) = N.max (now w) d ∧
  (∃ ext, trace (fire t w) = trace w ++ ETimerFired cb :: ext ∧
          Forall (λ e, is_fire e = false) ext) ∧
  (∀ B, fst <$> sel_msg cb ≠ Some B →
        messageBuffers (fire t w) !! B = messageBuffers w !! B) ∧
  (∀ B, fst <$> sel_evt cb ≠ Some B →
        eventBuffers (fire t w) !! B = eventBuffers w !! B).
Proof.
  intros Ht. unfold fire. rewrite Ht.
  destruct cb as [isDM k l|k l]; unfold run_callback.
  - destruct (flushBuffer_cases isDM k l
      (emit (with_now (with_timers w (delete t (timers w))) (N.max (now w) d))
         (ETimerFired (CbFlushMessage isDM k l))))
      as [-> | [-> | (e & He & ->)]]; simpl;
      repeat (split; [done|]).
    + split; [exists []; by split|]. by split.
    + split; [exists [EUncaughtTypeError]; split;
                [by rewrite <- app_assoc | by repeat constructor]|].
      by split.
    + split; [exists [e]; split; [by rewrite <- app_assoc | by repeat constructor]|].
      split; [|done]. intros B HB. rewrite lookup_delete_ne; [done | congruence].
  - destruct (flushEventBuffer_cases k l
      (emit (with_now (with_timers w (delete t (timers w))) (N.max (now w) d))
         (ETimerFired (CbFlushEvent k l))))
      as [-> | (e & He & ->)]; simpl;
      repeat (split; [done|]).
    + split; [exists []; by split|]. by split.
    + split; [exists [e]; split; [by rewrite <- app_assoc | by repeat constructor]|].
      split; [done|]. intros B HB. rewrite lookup_delete_ne; [done | congruence].
Qed.

(** Running a timer that is not a chat flush of key [B] leaves [B]'s buffer
    and pending timers as they were. *)
Lemma fire_other_chat (t : nat) (B : string) (w : World) :
  (∀ d cb, timers w !! t = Some (d, cb) → fst <$> sel_msg cb ≠ Some B) →
  chat_buffer B (fire t w) = chat_buffer B w ∧
  chat_pending B (fire t w) = chat_pending B w.
Proof.
  intros H. destruct (timers w !! t) as [[d cb]|] eqn:Ht;
    [|by rewrite fire_not_pending].
  destruct (fire_pending t w d cb Ht) as (Hms & _ & _ & _ & _ & Htm & _ & _ & Hmb & _).
  unfold chat_buffer, chat_pending.
  rewrite Hms, Htm, (Hmb B (H d cb eq_refl)). split; [done|].
  apply pending_of_delete_other. intros d' cb' Ht'. apply (H d' cb').
  by rewrite <- Ht'.
Qed.

Lemma fire_other_membership (t : nat) (B : string) (w : World) :
  (∀ d cb, timers w !! t = Some (d, cb) → fst <$> sel_evt cb ≠ Some B) →
  membership_buffer B (fire t w) = membership_buffer B w ∧
  membership_pending B (fire t w) = membership_pending B w.
Proof.
  intros H. destruct (timers w !! t) as [[d cb]|] eqn:Ht;
    [|by rewrite fire_not_pending].
  destruct (fire_pending t w d cb Ht) as (_ & Hes & _ & _ & _ & Htm & _ & _ & _ & Heb).
  unfold membership_buffer, membership_pending.
  rewrite Hes, Htm, (Heb B (H d cb eq_refl)). split; [done|].
  apply pending_of_delete_other. intros d' cb' Ht'. apply (H d' cb').
  by rewrite <- Ht'.
Qed.

(** C7: for distinct keys A and B, in any state the extension can be in,
    recording a chat line under A changes neither B's buffered payloads nor
    the set of B's pending timers (ids, deadlines and closures) and sends
    nothing; running A's flush timer changes neither; and the same holds for
    the membership buffers under join and part events and their flushes. *)
Theorem debounce_isolation (A B : string) (w : World) :
  wf w → A ≠ B →
  (∀ event, chat_key event = A →
     chat_buffer B (on_message event w) = chat_buffer B w ∧
     chat_pending B (on_message event w) = chat_pending B w ∧
     trace (on_message event w) = trace w) ∧
  (∀ t d isDM l, timers w !! t = Some (d, CbFlushMessage isDM A l) →
     chat_buffer B (fire t w) = chat_buffer B w ∧
     chat_pending B (fire t w) = chat_pending B w) ∧
  (∀ ctx userNick event, mev_channel event = A →
     membership_buffer B (on_join ctx userNick event w) = membership_buffer B w ∧
     membership_pending B (on_join ctx userNick event w) = membership_pending B w ∧
     membership_buffer B (on_part userNick event w) = membership_buffer B w ∧
     membership_pending B (on_part userNick event w) = membership_pending B w) ∧
  (∀ t d l, timers w !! t = Some (d, CbFlushEvent A l) →
     membership_buffer B (fire t w) = membership_buffer B w ∧
     membership_pending B (fire t w) = membership_pending B w).
Proof.
  intros Hwf Hne. split; [|split; [|split]].
  - intros event <-. by apply on_message_other_key.
  - intros t d isDM l Ht. apply fire_other_chat.
    intros d' cb'. rewrite Ht. intros [= <- <-]. simpl. congruence.
  - intros ctx userNick event <-. unfold on_join, on_part.
    destruct (bufferEvent_other_key (mev_channel event)
                (mev_nick event +:+ " joined " +:+ mev_channel event) B w Hwf Hne)
      as [Hj1 Hj2].
    destruct (bufferEvent_other_key (mev_channel event)
                (mev_nick event +:+ " left " +:+ mev_channel event) B w Hwf Hne)
      as [Hp1 Hp2].
    destruct (hasUI ctx && _), (negb _); done.
  - intros t d l Ht. apply fire_other_membership.
    intros d' cb'. rewrite Ht. intros [= <- <-]. simpl. congruence.
Qed.

Lemma wf_sample_busy : wf sample_busy.
Proof. apply wf_deliver_all, wf_sample_connected. Qed.

(** The property at sample data. *)
Lemma debounce_isolation_witness :
  chat_pending "#pi:bob" sample_busy !! 4%nat
    = Some (1100%N, CbFlushMessage false "#pi:bob" 3) ∧
  chat_buffer "#pi:bob" (on_message channel_event sample_busy)
    = chat_buffer "#pi:bob" sample_busy ∧
  chat_pending "#pi:bob" (on_message channel_event sample_busy)
    = chat_pending "#pi:bob" sample_busy ∧
  trace (on_message channel_event sample_busy) = trace sample_busy.
Proof.
  split; [vm_compute; reflexivity|].
  destruct (debounce_isolation "#pi:alice" "#pi:bob" sample_busy wf_sample_busy)
    as (Hrec & _); [discriminate|].
  apply (Hrec channel_event). reflexivity.
Defined.

(** ** Coalescing *)

Lemma not_fire_not_key_fire (key : string) (e : Effect) :
  is_fire e = false → key_fire key e = false.
Proof. by destruct e. Qed.

Lemma other_callback_not_key_fire (key : string) (cb : Callback) :
  fst <$> sel_msg cb ≠ Some key → key_fire key (ETimerFired cb) = false.
Proof.
  destruct cb as [i k l|k l]; simpl; [|done].
  intros H. apply String.eqb_neq. congruence.
Qed.

Lemma quiet_refl (key : string) (T : N) (w : World) : quiet key T w w.
Proof.
  split; try done.
  - lia.
  - exists []. by rewrite app_nil_r.
Qed.

Lemma quiet_trans (key : string) (T : N) (w1 w2 w3 : World) :
  quiet key T w1 w2 → quiet key T w2 w3 → quiet key T w1 w3.
Proof.
  intros [A1 A2 A3 A4 A5 A6 A7 (e1 & A8 & A9)] [B1 B2 B3 B4 B5 B6 B7 (e2 & B8 & B9)].
  split; try congruence.
  - by etrans.
  - lia.
  - exists (e1 ++ e2). rewrite B8, A8, <- app_assoc. split; [done|].
    by apply Forall_app.
Qed.

Lemma fire_quiet (key : string) (T : N) (t : nat) (w : World) :
  (∀ d cb, timers w !! t = Some (d, cb) →
           (d ≤ T)%N ∧ fst <$> sel_msg cb ≠ Some key) →
  quiet key T w (fire t w).
Proof.
  intros H. destruct (timers w !! t) as [[d cb]|] eqn:Ht;
    [|rewrite fire_not_pending; [apply quiet_refl | done]].
  destruct (H d cb eq_refl) as [Hd Hk].
  destruct (fire_pending t w d cb Ht)
    as (Hms & _ & Hs & _ & Hn & Htm & Hnow & (ext & Htr & Hext) & Hmb & _).
  destruct (fire_other_chat t key w) as [_ Hp].
  { intros d' cb'. rewrite Ht. by intros [= <- <-]. }
  split; try done.
  - by apply Hmb.
  - rewrite Htm. apply delete_subseteq.
  - rewrite Hnow. lia.
  - exists (ETimerFired cb :: ext). split; [done|]. constructor.
    + by apply other_callback_not_key_fire.
    + eapply Forall_impl; [exact Hext|]. intros e. apply not_fire_not_key_fire.
Qed.

Lemma fire_all_quiet (key : string) (T : N) (xs : list (nat * (N * Callback)))
    (w : World) :
  wf w →
  (∀ x d cb, x ∈ xs → timers w !! x.1 = Some (d, cb) →
             (d ≤ T)%N ∧ fst <$> sel_msg cb ≠ Some key) →
  wf (foldl (λ acc x, fire x.1 acc) w xs) ∧
  quiet key T w (foldl (λ acc x, fire x.1 acc) w xs).
Proof.
  revert w. induction xs as [|x xs IH]; intros w Hwf H; simpl.
  - split; [done | apply quiet_refl].
  - assert (quiet key T w (fire x.1 w)) as Hq.
    { apply fire_quiet. intros d cb. apply H. by left. }
    destruct (IH (fire x.1 w)) as [Hwf' Hq'].
    + by apply wf_fire.
    + intros y d cb Hy Hlive. apply (H y); [by right|].
      eapply lookup_weaken; [exact Hlive | apply (q_timers _ _ _ _ Hq)].
    + split; [done | by eapply quiet_trans].
Qed.

(** The timers [advance] runs are exactly those pending and due. *)
Lemma elem_of_due (T : N) (w : World) (x : nat * (N * Callback)) :
  x ∈ due T w ↔ timers w !! x.1 = Some x.2 ∧ (x.2.1 ≤ T)%N.
Proof.
  unfold due. rewrite merge_sort_Permutation, list_elem_of_filter.
  destruct x as [t v]. rewrite elem_of_map_to_list. simpl. tauto.
Qed.

Lemma quiet_with_now (key : string) (T : N) (w w' : World) :
  quiet key T w w' → quiet key T w (with_now w' (N.max (now w') T)).
Proof.
  intros [A1 A2 A3 A4 A5 A6 A7 A8]. split; try done. simpl. lia.
Qed.

(** Time passes to [T] while every pending flush of [key] is due later. *)
Lemma advance_quiet (key : string) (T : N) (w : World) :
  wf w →
  (∀ t d cb, chat_pending key w !! t = Some (d, cb) → (T < d)%N) →
  wf (advance T w) ∧ quiet key T w (advance T w) ∧
  now (advance T w) = N.max (now w) T.
Proof.
  intros Hwf Hlater. unfold advance.
  destruct (fire_all_quiet key T (due T w) w Hwf) as [Hwf' Hq].
  { intros x d cb [Hx Hd]%elem_of_due Hlive.
    rewrite Hx in Hlive. injection Hlive as Hlive. rewrite Hlive in Hd, Hx.
    split; [done|]. intros Hkey.
    assert (chat_pending key w !! x.1 = Some (d, cb)) as Hp
      by (by apply pending_of_lookup).
    apply Hlater in Hp. simpl in Hd. lia. }
  split; [|split].
  - destruct Hwf'. by split.
  - by apply quiet_with_now.
  - simpl. destruct (q_now _ _ _ _ Hq). lia.
Qed.

Lemma fire_chat_flush (t : nat) (w : World) (d : N) (isDM : bool) (key : string)
    (l : nat) (b : MessageBuffer) (s : IRCState) :
  timers w !! t = Some (d, CbFlushMessage isDM key l) →
  msgStore w !! l = Some b → mb_messages b ≠ [] → currentState w = Some s →
  trace (fire t w)
    = trace w ++
      [ETimerFired (CbFlushMessage isDM key l);
       flush_effect isDM (mb_target b) (mb_nick b) (nick s)
         (Str.join Str.nl (mb_messages b))] ∧
  messageBuffers (fire t w) !! key = None.
Proof.
  intros Ht Hb Hne Hs. unfold fire. rewrite Ht. unfold run_callback.
  destruct isDM.
  - rewrite (flushBuffer_dm _ _ _ b); [|done|done]. simpl.
    rewrite lookup_delete_eq. by rewrite <- app_assoc.
  - rewrite (flushBuffer_channel _ _ _ b s); [|done|done|done]. simpl.
    rewrite lookup_delete_eq. by rewrite <- app_assoc.
Qed.

Lemma burst_state_pending s key l isDM target sender last msgs w :
  burst_state s key l isDM target sender last msgs w →
  ∃ tid, chat_pending key w
         = {[ tid := ((last + MESSAGE_BUFFER_DELAY_MS)%N, CbFlushMessage isDM key l) ]}.
Proof.
  intros [Hwf _ _ _ (tid & _ & Ht)]. exists tid.
  apply map_eq. intros t. apply option_eq. intros [d cb].
  unfold chat_pending. rewrite pending_of_lookup, lookup_singleton_Some. split.
  - intros [Hlive Hkey]. destruct cb as [i k l'|k l']; simpl in Hkey; [|done].
    injection Hkey as ->.
    assert (t = tid) as -> by
      (by eapply (family_one_timer_per_key sel_msg _ _ _ _ _ _ _ _ _ _ _ _ _
                    (wf_msg _ Hwf) Hlive eq_refl Ht eq_refl)).
    split; [done|]. congruence.
  - intros [<- [= <- <-]]. by split.
Qed.

Lemma no_key_no_pending (key : string) (w : World) :
  wf w → messageBuffers w !! key = None → chat_pending key w = ∅.
Proof.
  intros Hwf Hk. apply map_eq. intros t. rewrite lookup_empty.
  apply eq_None_not_Some. intros [[d cb] [Hlive Hkey]%pending_of_lookup].
  destruct cb as [i k l|k l]; simpl in Hkey; [|done]. injection Hkey as ->.
  destruct (fo_timer _ _ _ _ _ (wf_msg _ Hwf) _ _ _ _ _ Hlive eq_refl) as [? _].
  congruence.
Qed.

(** The first line of a burst. *)
Lemma burst_first (s : IRCState) (target sender : string) (t1 : N) (m1 : string)
    (w : World) :
  wf w → currentState w = Some s →
  messageBuffers w !! (target +:+ ":" +:+ sender) = None →
  (now w ≤ t1)%N →
  ∃ l,
    burst_state s (target +:+ ":" +:+ sender) l (String.eqb target (nick s))
      target sender t1 [m1] (deliver w (line_event target sender (t1, m1))) ∧
    ∃ ext,
      trace (deliver w (line_event target sender (t1, m1))) = trace w ++ ext ∧
      Forall (λ e, key_fire (target +:+ ":" +:+ sender) e = false) ext.
Proof.
  intros Hwf Hs Hk Hnow. set (key := target +:+ ":" +:+ sender) in *.
  destruct (advance_quiet key t1 w Hwf) as (Hwf1 & Hq & Hnow1).
  { intros t d cb. rewrite (no_key_no_pending key w Hwf Hk). by rewrite lookup_empty. }
  unfold deliver. simpl.
  set (w1 := advance t1 w) in *.
  set (event := {| ev_target := target; ev_nick := sender; ev_message := m1 |}).
  assert (currentState w1 = Some s) as Hs1 by (by rewrite (q_session _ _ _ _ Hq)).
  assert (chat_key event = key) as Hck by reflexivity.
  assert (messageBuffers w1 !! chat_key event = None) as Hk1
    by (by rewrite Hck, (q_key _ _ _ _ Hq)).
  pose proof (q_trace _ _ _ _ Hq) as Htrace.
  clearbody w1.
  exists (next w1). split.
  - split.
    + by apply wf_on_message.
    + by rewrite (on_message_fresh event w1 s Hs1 Hk1).
    + rewrite (on_message_fresh event w1 s Hs1 Hk1). simpl. lia.
    + rewrite (on_message_fresh event w1 s Hs1 Hk1). simpl.
      by rewrite lookup_insert_eq.
    + exists (S (next w1)).
      rewrite (on_message_fresh event w1 s Hs1 Hk1). simpl.
      rewrite !lookup_insert_eq. split; [done|].
      do 3 f_equal. lia.
  - destruct Htrace as (ext & Htr & Hext).
    exists ext. split; [|done].
    by rewrite (on_message_fresh event w1 s Hs1 Hk1).
Qed.

(** A further line, arriving before the pending flush is due. *)
Lemma burst_step (s : IRCState) (key : string) (l : nat) (target sender : string)
    (last t : N) (msgs : list string) (m : string) (w : World) :
  key = target +:+ ":" +:+ sender →
  burst_state s key l (String.eqb target (nick s)) target sender last msgs w →
  (last ≤ t)%N → (t < last + MESSAGE_BUFFER_DELAY_MS)%N →
  burst_state s key l (String.eqb target (nick s)) target sender t (msgs ++ [m])
    (deliver w (line_event target sender (t, m))) ∧
  ∃ ext,
    trace (deliver w (line_event target sender (t, m))) = trace w ++ ext ∧
    Forall (λ e, key_fire key e = false) ext.
Proof.
  intros Hkey Hbs Hle Hlt.
  destruct (burst_state_pending _ _ _ _ _ _ _ _ _ Hbs) as [tid Hpend].
  destruct Hbs as [Hwf Hs Hnow Hk (tid' & Hb & Ht)].
  destruct (advance_quiet key t w Hwf) as (Hwf1 & Hq & Hnow1).
  { intros t' d cb. rewrite Hpend, lookup_singleton_Some.
    intros [_ [= <- _]]. done. }
  unfold deliver. simpl.
  set (w1 := advance t w) in *.
  set (event := {| ev_target := target; ev_nick := sender; ev_message := m |}).
  assert (chat_key event = key) as Hck by (by rewrite Hkey).
  assert (currentState w1 = Some s) as Hs1 by (by rewrite (q_session _ _ _ _ Hq)).
  assert (messageBuffers w1 !! chat_key event = Some l) as Hk1
    by (by rewrite Hck, (q_key _ _ _ _ Hq)).
  assert (msgStore w1 !! l = Some {| mb_nick := sender; mb_target := target;
                                     mb_messages := msgs; mb_timer := Some tid' |})
    as Hb1 by (by rewrite (q_store _ _ _ _ Hq)).
  pose proof (q_trace _ _ _ _ Hq) as Htrace.
  clearbody w1.
  pose proof (wf_on_message event w1 Hwf1) as Hwf2.
  rewrite (on_message_existing event w1 s l _ Hs1 Hk1 Hb1) in Hwf2 |- *.
  split.
  - split; simpl.
    + exact Hwf2.
    + done.
    + lia.
    + by rewrite <- Hck.
    + exists (next w1). rewrite !lookup_insert_eq. split; [done|].
      rewrite Hck. do 3 f_equal. lia.
  - exact Htrace.
Qed.

(** The rest of a burst. *)
Lemma burst_run (s : IRCState) (key : string) (l : nat) (target sender : string)
    (rest : list (N * string)) :
  key = target +:+ ":" +:+ sender →
  ∀ (last : N) (msgs : list string) (w : World),
    burst_state s key l (String.eqb target (nick s)) target sender last msgs w →
    within_quiet last rest →
    burst_state s key l (String.eqb target (nick s)) target sender
      (last_time last rest) (msgs ++ rest.*2)
      (deliver_all w (burst target sender rest)) ∧
    ∃ ext,
      trace (deliver_all w (burst target sender rest)) = trace w ++ ext ∧
      Forall (λ e, key_fire key e = false) ext.
Proof.
  intros Hkey. induction rest as [|[t m] rest IH]; intros last msgs w Hbs Hq.
  - simpl. rewrite app_nil_r. split; [done|]. exists []. by rewrite app_nil_r.
  - destruct Hq as (Hle & Hlt & Hq). simpl in Hle, Hlt, Hq.
    destruct (burst_step s key l target sender last t msgs m w Hkey Hbs Hle Hlt)
      as [Hbs1 (e1 & Ht1 & He1)].
    destruct (IH t (msgs ++ [m]) _ Hbs1 Hq) as [Hbs2 (e2 & Ht2 & He2)].
    split.
    + replace (msgs ++ ((t, m) :: rest).*2) with ((msgs ++ [m]) ++ rest.*2)
        by (by rewrite <- app_assoc).
      exact Hbs2.
    + exists (e1 ++ e2). split; [|by apply Forall_app].
      change (deliver_all w (burst target sender ((t, m) :: rest)))
        with (deliver_all (deliver w (line_event target sender (t, m)))
                (burst target sender rest)).
      by rewrite Ht2, Ht1, <- app_assoc.
Qed.

(** Once the quiet interval after the last line has passed, the one pending
    flush of the key runs, once, and sends the lines joined. *)
Lemma burst_flush (s : IRCState) (key : string) (l : nat) (isDM : bool)
    (target sender : string) (last T : N) (msgs : list string) (w : World) :
  burst_state s key l isDM target sender last msgs w →
  msgs ≠ [] → (last + MESSAGE_BUFFER_DELAY_MS ≤ T)%N →
  ∃ pre post,
    trace (advance T w)
      = trace w ++ pre ++
        [ETimerFired (CbFlushMessage isDM key l);
         flush_effect isDM target sender (nick s) (Str.join Str.nl msgs)] ++ post ∧
    Forall (λ e, key_fire key e = false) pre ∧
    Forall (λ e, key_fire key e = false) post ∧
    messageBuffers (advance T w) !! key = None ∧
    chat_pending key (advance T w) = ∅.
Proof.
  intros [Hwf Hs Hnow Hk (tid & Hb & Ht)] Hne HT.
  set (cb := CbFlushMessage isDM key l) in *.
  set (d := (last + MESSAGE_BUFFER_DELAY_MS)%N) in *.
  assert ((tid, (d, cb)) ∈ due T w) as Hin by (by apply elem_of_due).
  destruct (list_elem_of_split_l _ _ Hin) as (xs & ys & Hsplit & Hnotin).
  assert (∀ x, x ∈ xs ∨ x ∈ ys → timers w !! x.1 = Some x.2 ∧ (x.2.1 ≤ T)%N) as Hdue.
  { intros x Hx. apply elem_of_due. rewrite Hsplit.
    apply elem_of_app. destruct Hx; [by left | right; by right]. }
  unfold advance. rewrite Hsplit, foldl_app. simpl.
  set (wa := foldl (λ acc x, fire x.1 acc) w xs).
  destruct (fire_all_quiet key T xs w Hwf) as [Hwfa Hqa].
  { intros x d' cb' Hx Hlive. destruct (Hdue x) as [Hx1 Hx2]; [by left|].
    rewrite Hx1 in Hlive. injection Hlive as Hlive. rewrite Hlive in Hx1, Hx2.
    split; [done|]. intros Hkey.
    destruct cb' as [i k l'|k l']; simpl in Hkey; [|done]. injection Hkey as ->.
    assert (x.1 = tid) as Hid by
      (by eapply (family_one_timer_per_key sel_msg _ _ _ _ _ _ _ _ _ _ _ _ _
                    (wf_msg _ Hwf) Hx1 eq_refl Ht eq_refl)).
    apply Hnotin. destruct x as [t v]. simpl in *. subst t.
    rewrite Ht in Hx1. assert (v = (d, cb)) as <- by congruence. done. }
  fold wa in Hwfa, Hqa. clearbody wa.
  assert (timers wa !! tid = Some (d, cb)) as Hta.
  { assert (chat_pending key wa !! tid = Some (d, cb)) as Hp.
    { rewrite (q_pending _ _ _ _ Hqa). by apply pending_of_lookup. }
    by apply pending_of_lookup in Hp as [? _]. }
  assert (msgStore wa !! l = Some {| mb_nick := sender; mb_target := target;
                                     mb_messages := msgs; mb_timer := Some tid |})
    as Hba by (by rewrite (q_store _ _ _ _ Hqa)).
  assert (currentState wa = Some s) as Hsa by (by rewrite (q_session _ _ _ _ Hqa)).
  destruct (fire_chat_flush tid wa d isDM key l _ s Hta Hba Hne Hsa) as [Htrb Hkb].
  simpl in Htrb.
  pose proof (wf_fire tid wa Hwfa) as Hwfb.
  assert (timers (fire tid wa) ⊆ timers w) as Hsub.
  { destruct (fire_pending tid wa d cb Hta) as (_ & _ & _ & _ & _ & -> & _).
    etrans; [apply delete_subseteq | apply (q_timers _ _ _ _ Hqa)]. }
  set (wb := fire tid wa) in *. clearbody wb.
  destruct (fire_all_quiet key T ys wb Hwfb) as [Hwfc Hqc].
  { intros x d' cb' Hx Hlive. destruct (Hdue x) as [Hx1 Hx2]; [by right|].
    assert (timers w !! x.1 = Some (d', cb')) as Hlive0
      by (eapply lookup_weaken; [exact Hlive | exact Hsub]).
    rewrite Hx1 in Hlive0. injection Hlive0 as Hlive0. rewrite Hlive0 in Hx2.
    split; [done|]. intros Hkey.
    destruct cb' as [i k l'|k l']; simpl in Hkey; [|done]. injection Hkey as ->.
    destruct (fo_timer _ _ _ _ _ (wf_msg _ Hwfb) _ _ _ _ _ Hlive eq_refl) as [? _].
    congruence. }
  destruct (q_trace _ _ _ _ Hqa) as (pre & Hpre & Hpre').
  destruct (q_trace _ _ _ _ Hqc) as (post & Hpost & Hpost').
  set (wc := foldl (λ acc x, fire x.1 acc) wb ys) in *. clearbody wc.
  exists pre, post. split; [|split; [done|split; [done|split]]].
  - cbn [trace with_now]. rewrite Hpost, Htrb, Hpre. by rewrite <- !app_assoc.
  - cbn [messageBuffers with_now]. by rewrite (q_key _ _ _ _ Hqc).
  - apply no_key_no_pending.
    + destruct Hwfc. by split.
    + cbn [messageBuffers with_now]. by rewrite (q_key _ _ _ _ Hqc).
Qed.

(** From a key with no buffer, while the session lasts: N chat lines with
    one target and one sender, the first into a state with no buffer under
    their key, each later one arriving strictly within
    the quiet interval of the one before. After the last line the key has
    exactly one pending timer, due one quiet interval after that line (every
    earlier timer was cancelled); and once that time has come the trace holds
    exactly one flush of the key, which sends the N payloads in arrival order
    joined by line feeds, and the buffer is gone. *)
Theorem debounce_coalesces (s : IRCState) (target sender : string) (t1 : N)
    (m1 : string) (rest : list (N * string)) (T : N) (w : World) :
  let key := target +:+ ":" +:+ sender in
  let isDM := String.eqb target (nick s) in
  let lines := (t1, m1) :: rest in
  let after_burst := deliver_all w (burst target sender lines) in
  wf w → currentState w = Some s → messageBuffers w !! key = None →
  (now w ≤ t1)%N → within_quiet t1 rest →
  (last_time t1 rest + MESSAGE_BUFFER_DELAY_MS ≤ T)%N →
  ∃ l tid pre post,
    chat_buffer key after_burst
      = Some {| mb_nick := sender; mb_target := target;
                mb_messages := lines.*2; mb_timer := Some tid |} ∧
    chat_pending key after_burst
      = {[ tid := ((last_time t1 rest + MESSAGE_BUFFER_DELAY_MS)%N,
                   CbFlushMessage isDM key l) ]} ∧
    trace (advance T after_burst)
      = trace w ++ pre ++
        [ETimerFired (CbFlushMessage isDM key l);
         flush_effect isDM target sender (nick s) (Str.join Str.nl (lines.*2))] ++
        post ∧
    Forall (λ e, key_fire key e = false) pre ∧
    Forall (λ e, key_fire key e = false) post ∧
    chat_buffer key (advance T after_burst) = None ∧
    chat_pending key (advance T after_burst) = ∅.
Proof.
  intros key isDM lines after_burst Hwf Hs Hk Hnow Hquiet HT.
  destruct (burst_first s target sender t1 m1 w Hwf Hs Hk Hnow)
    as (l & Hbs1 & e1 & Ht1 & He1).
  destruct (burst_run s key l target sender rest eq_refl t1 [m1] _ Hbs1 Hquiet)
    as (Hbs2 & e2 & Ht2 & He2).
  change (deliver_all (deliver w (line_event target sender (t1, m1)))
            (burst target sender rest)) with after_burst in Hbs2, Ht2.
  change ([m1] ++ rest.*2) with (lines.*2) in Hbs2.
  clearbody after_burst.
  destruct (burst_state_pending _ _ _ _ _ _ _ _ _ Hbs2) as [tid Hpend].
  destruct (burst_flush s key l isDM target sender _ T _ _ Hbs2)
    as (pre & post & Htr & Hpre & Hpost & Hgone & Hnone); [done | done |].
  pose proof Hbs2 as [_ _ _ Hkey (tid' & Hb & Htm)].
  assert (tid' = tid) as ->.
  { assert (chat_pending key after_burst !! tid' = Some
              ((last_time t1 rest + MESSAGE_BUFFER_DELAY_MS)%N,
               CbFlushMessage isDM key l)) as Hp by (by apply pending_of_lookup).
    rewrite Hpend in Hp. by apply lookup_singleton_Some in Hp as [? _]. }
  exists l, tid, ((e1 ++ e2) ++ pre), post.
  split; [by unfold chat_buffer; rewrite Hkey|].
  split; [done|]. split.
  - rewrite Htr, Ht2, Ht1. by rewrite <- !app_assoc.
  - split; [by rewrite !Forall_app|]. split; [done|].
    split; [by unfold chat_buffer; rewrite Hgone | done].
Qed.

(** The property at sample data. *)
Lemma debounce_coalesces_witness :
  ∃ l tid pre post,
    chat_buffer ("#general" +:+ ":" +:+ "alice")
      (deliver_all sample_connected
         (burst "#general" "alice" [(0%N, "hi"); (400%N, "there")]))
      = Some {| mb_nick := "alice"; mb_target := "#general";
                mb_messages := ["hi"; "there"]; mb_timer := Some tid |} ∧
    chat_pending ("#general" +:+ ":" +:+ "alice")
      (deliver_all sample_connected
         (burst "#general" "alice" [(0%N, "hi"); (400%N, "there")]))
      = {[ tid := ((400 + MESSAGE_BUFFER_DELAY_MS)%N,
                   CbFlushMessage false ("#general" +:+ ":" +:+ "alice") l) ]} ∧
    trace (advance 1400
             (deliver_all sample_connected
                (burst "#general" "alice" [(0%N, "hi"); (400%N, "there")])))
      = trace sample_connected ++ pre ++
        [ETimerFired (CbFlushMessage false ("#general" +:+ ":" +:+ "alice") l);
         flush_effect false "#general" "alice" "pibot"
           (Str.join Str.nl ["hi"; "there"])] ++
        post ∧
    Forall (λ e, key_fire ("#general" +:+ ":" +:+ "alice") e = false) pre ∧
    Forall (λ e, key_fire ("#general" +:+ ":" +:+ "alice") e = false) post ∧
    chat_buffer ("#general" +:+ ":" +:+ "alice")
      (advance 1400
         (deliver_all sample_connected
            (burst "#general" "alice" [(0%N, "hi"); (400%N, "there")]))) = None ∧
    chat_pending ("#general" +:+ ":" +:+ "alice")
      (advance 1400
         (deliver_all sample_connected
            (burst "#general" "alice" [(0%N, "hi"); (400%N, "there")]))) = ∅.
Proof.
  assert (currentState sample_connected = Some sample_session) as Hs
    by (vm_compute; reflexivity).
  assert (messageBuffers sample_connected !! ("#general" +:+ ":" +:+ "alice") = None)
    as Hk by (vm_compute; reflexivity).
  assert (now sample_connected ≤ 0)%N as Hnow by (vm_compute; discriminate).
  apply (debounce_coalesces sample_session "#general" "alice" 0 "hi"
           [(400%N, "there")] 1400 sample_connected wf_sample_connected Hs Hk Hnow).
  - simpl. unfold MESSAGE_BUFFER_DELAY_MS. lia.
  - simpl. unfold MESSAGE_BUFFER_DELAY_MS. lia.
Defined.

(** ** Scenarios, run *)

(** The scenario of two lines 400 ms apart, run: one flush, at 1400 ms. *)
Example two_lines_one_flush :
  let lines := burst "#general" "alice" [(0%N, "hi"); (400%N, "there")] in
  trace (advance 1399 (deliver_all sample_connected lines)) = trace sample_connected ∧
  trace (advance 1400 (deliver_all sample_connected lines))
    = trace sample_connected ++
      [ETimerFired (CbFlushMessage false "#general:alice" 1);
       ESendMessage "irc_channel_message"
         ("[#general] alice: hi" +:+ Str.nl +:+ "there")
         (DChannelMessage "#general" "alice" ("hi" +:+ Str.nl +:+ "there")) false].
Proof. split; vm_compute; reflexivity. Qed.

(** Joins in two channels 500 ms apart: two flushes, one per channel, each
    2000 ms after its own event. *)
Example two_channels_two_flushes :
  let w := on_join sample_ctx (Some "pibot")
             {| mev_nick := "carol"; mev_channel := "#b" |}
             (advance 500
                (on_join sample_ctx (Some "pibot")
                   {| mev_nick := "bob"; mev_channel := "#a" |} sample_connected)) in
  trace (advance 1999 w) = trace sample_connected ∧
  trace (advance 2000 w)
    = trace sample_connected ++
      [ETimerFired (CbFlushEvent "#a" 1);
       ESendMessage "irc_join_part" "bob joined #a"
         (DJoinPart "#a" ["bob joined #a"]) false] ∧
  trace (advance 2500 w)
    = trace (advance 2000 w) ++
      [ETimerFired (CbFlushEvent "#b" 3);
       ESendMessage "irc_join_part" "carol joined #b"
         (DJoinPart "#b" ["carol joined #b"]) false].
Proof. repeat split; vm_compute; reflexivity. Qed.

(** A channel line is pending when the session is disconnected: its flush
    reads the nick of a session that is gone, sends nothing and leaves the
    buffer in the map. *)
Example flush_after_disconnect_throws :
  let w := (handleDisconnect sample_ctx (on_message channel_event sample_connected)).1 in
  trace (advance 1000 w)
    = trace w ++ [ETimerFired (CbFlushMessage false "#pi:alice" 1); EUncaughtTypeError] ∧
  is_Some (messageBuffers (advance 1000 w) !! "#pi:alice").
Proof. split; vm_compute; [reflexivity | by eexists]. Qed.

(** ** Tools *)

Lemma connectedSession_Some (w : World) (c : nat) (s : IRCState) :
  connectedSession w = Some (c, s) ↔
  ircClient w = Some c ∧ currentState w = Some s ∧ connected s = true.
Proof.
  unfold connectedSession.
  destruct (ircClient w) as [c'|], (currentState w) as [s'|];
    try (split; [done | by intros (? & ? & ?)]).
  destruct (connected s') eqn:E; split.
  - by intros [= <- <-].
  - by intros ([= <-] & [= <-] & _).
  - done.
  - intros ([= <-] & [= <-] & ?). congruence.
Qed.

Lemma connectedSession_None (w : World) :
  connectedSession w = None ↔ isConnected w = false.
Proof.
  unfold connectedSession, isConnected.
  destruct (ircClient w), (currentState w) as [s|]; try done.
  by destruct (connected s).
Qed.

Lemma truthy_Some (o : option string) (x : string) :
  truthy o = Some x ↔ o = Some x ∧ x ≠ EmptyString.
Proof.
  destruct o as [[|a y]|]; simpl; split; try done.
  - by intros [[= <-] ?].
  - by intros [= <-].
  - by intros [[= <-] _].
  - by intros [? _].
Qed.

(** X1: every tool action other than connect, called while no session is
    connected, returns the not-connected error, leaves the state as it was
    and calls nothing on the transport. *)
Theorem tools_need_connection (ctx : Ctx) (action : string) (a : Action)
    (params : ToolParams) (o : ConnectOutcome) (w : World) :
  isConnected w = false → action_of action = Some a → a ≠ AConnect →
  ∃ r, dispatch ctx action params o w = (w, [], r) ∧
       details r = [("error", JStr "not_connected")] ∧
       Str.startsWith "Error: Not connected to IRC" (text r) = true.
Proof.
  intros Hc Ha Hne. unfold dispatch. rewrite Ha.
  pose proof (proj2 (connectedSession_None w) Hc) as Hn.
  destruct a; try done;
    unfold handleInfo, handleSend, handleChangeNick, handleListChannels,
      handleJoin, handleLeave, handleDisconnect; rewrite ?Hn, ?Hc.
  - destruct (ircClient w); eexists; (split; [reflexivity|]); by split.
  - eexists; (split; [reflexivity|]); by split.
  - eexists; (split; [reflexivity|]); by split.
  - eexists; (split; [reflexivity|]); by split.
  - eexists; (split; [reflexivity|]); by split.
  - eexists; (split; [reflexivity|]); by split.
  - eexists; (split; [reflexivity|]); by split.
Qed.

(** The property at sample data. *)
Lemma tools_need_connection_witness :
  ∃ r, dispatch sample_ctx "send" (send_params "#pi" "hello") Registered init
         = (init, [], r) ∧
       details r = [("error", JStr "not_connected")] ∧
       Str.startsWith "Error: Not connected to IRC" (text r) = true.
Proof.
  apply (tools_need_connection sample_ctx "send" ASend (send_params "#pi" "hello")
           Registered init); [reflexivity | reflexivity | discriminate].
Defined.

(** X2: while connected, [handleSend] never changes the state. It checks the
    target before the message, and with both present and not empty it makes
    exactly one [say] call carrying them unchanged. *)
Theorem send_says_once (params : ToolParams) (w : World) (c : nat) (s : IRCState) :
  connectedSession w = Some (c, s) →
  ∃ calls r,
    handleSend params w = (w, calls, r) ∧
    (truthy (tp_target params) = None →
       calls = [] ∧ details r = [("error", JStr "missing_target")]) ∧
    (∀ t, truthy (tp_target params) = Some t → truthy (tp_message params) = None →
       calls = [] ∧ details r = [("error", JStr "missing_message")]) ∧
    (∀ t m, truthy (tp_target params) = Some t → truthy (tp_message params) = Some m →
       calls = [CSay c t m] ∧ has_error r = false).
Proof.
  intros Hc. unfold handleSend. rewrite Hc.
  destruct (truthy (tp_target params)) as [t|];
    [destruct (truthy (tp_message params)) as [m|]|];
    eexists _, _; (split; [reflexivity|]).
  - split; [done|]. split; [done|]. by intros t' m' [= <-] [= <-].
  - split; [done|]. split; [|done]. by intros t' [= <-] _.
  - split; [done|]. split; done.
Qed.

(** The property at sample data. *)
Lemma send_says_once_witness :
  ∃ calls r,
    handleSend (send_params "#pi" "hello") sample_connected
      = (sample_connected, calls, r) ∧
    calls = [CSay 0 "#pi" "hello"] ∧ has_error r = false.
Proof.
  destruct (send_says_once (send_params "#pi" "hello") sample_connected 0
              sample_session)
    as (calls & r & H & _ & _ & Hsay); [vm_compute; reflexivity|].
  exists calls, r. split; [exact H|]. by apply (Hsay "#pi" "hello").
Defined.

(** X3: a nick change is requested at once but the tracked nick stays until
    the transport confirms it: [handleChangeNick] makes one [changeNick] call
    and leaves the state as it was, and the confirmation for the tracked nick
    then replaces it. *)
Theorem change_nick_waits_for_confirmation (ctx : Ctx) (w : World) (c : nat)
    (s : IRCState) (newNick : string) :
  connectedSession w = Some (c, s) → newNick ≠ EmptyString →
  ∃ r,
    handleChangeNick (nick_params newNick) w = (w, [CChangeNick c newNick], r) ∧
    has_error r = false ∧
    currentState (on_nick ctx {| nev_nick := nick s; nev_new_nick := newNick |} w)
      = Some (set_nick newNick s).
Proof.
  intros Hc Hne. pose proof (proj1 (connectedSession_Some w c s) Hc) as (_ & Hs & _).
  unfold handleChangeNick. rewrite Hc.
  destruct newNick as [|a n]; [done|]. simpl.
  eexists. split; [reflexivity|]. split; [done|].
  unfold on_nick, updateStatus. rewrite Hs. simpl. rewrite String.eqb_refl.
  destruct (hasUI ctx); simpl; [|done]. by destruct (connected s).
Qed.

(** The property at sample data. *)
Lemma change_nick_waits_for_confirmation_witness :
  ∃ r,
    handleChangeNick (nick_params "pibot2") sample_connected
      = (sample_connected, [CChangeNick 0 "pibot2"], r) ∧
    has_error r = false ∧
    currentState (on_nick sample_ctx {| nev_nick := "pibot"; nev_new_nick := "pibot2" |}
                    sample_connected)
      = Some (set_nick "pibot2" sample_session).
Proof.
  apply (change_nick_waits_for_confirmation sample_ctx sample_connected 0
           sample_session "pibot2"); [vm_compute; reflexivity | discriminate].
Defined.

Lemma normalizeChannel_prefixed (ch : string) :
  Str.startsWith "#" (normalizeChannel ch) = true.
Proof.
  unfold normalizeChannel. destruct (Str.startsWith "#" ch) eqn:E; [done|].
  apply prefix_split. by exists ch.
Qed.

Lemma normalizeChannel_idempotent (ch : string) :
  normalizeChannel (normalizeChannel ch) = normalizeChannel ch.
Proof.
  unfold normalizeChannel at 1. by rewrite normalizeChannel_prefixed.
Qed.

Lemma remove_first_not_in (x : string) (l : list string) :
  x ∉ l → remove_first x l = l.
Proof.
  induction l as [|y l IH]; [done|]. intros Hn. simpl.
  destruct (String.eqb y x) eqn:E.
  - apply String.eqb_eq in E. subst. exfalso. apply Hn. by left.
  - f_equal. apply IH. intros ?. apply Hn. by right.
Qed.

Lemma remove_first_in (x : string) (l : list string) :
  x ∈ l →
  ∃ pre post, l = pre ++ [x] ++ post ∧ (x ∉ pre) ∧ remove_first x l = pre ++ post.
Proof.
  induction l as [|y l IH]; [by intros ?%elem_of_nil|]. intros Hin. simpl.
  destruct (String.eqb y x) eqn:E.
  - apply String.eqb_eq in E. subst. exists [], l.
    split; [done|]. split; [|done]. by intros ?%elem_of_nil.
  - apply String.eqb_neq in E. apply elem_of_cons in Hin as [->|Hin]; [done|].
    destruct (IH Hin) as (pre & post & Heq & Hn & Hrem).
    exists (y :: pre), post.
    split; [by rewrite Heq|]. split; [|by rewrite Hrem].
    intros [->|?]%elem_of_cons; done.
Qed.

Lemma remove_first_app_new (x : string) (l : list string) :
  x ∉ l → remove_first x (l ++ [x]) = l.
Proof.
  induction l as [|y l IH]; intros Hn; simpl.
  - by rewrite String.eqb_refl.
  - destruct (String.eqb y x) eqn:E.
    + apply String.eqb_eq in E. subst. exfalso. apply Hn. by left.
    + f_equal. apply IH. intros ?. apply Hn. by right.
Qed.

Lemma set_channels_same (s : IRCState) : set_channels (channels s) s = s.
Proof. by destruct s. Qed.

(** X4: while connected, [handleJoin] always requests the join of the
    channel name with a leading #, and lists that name in the session exactly
    when it was not listed yet, at the end; a list without repetitions
    stays so. Nothing else of the session changes. *)
Theorem join_lists_channel_once (params : ToolParams) (w : World) (c : nat)
    (s : IRCState) (ch : string) :
  connectedSession w = Some (c, s) → truthy (tp_channel params) = Some ch →
  ∃ w' r,
    handleJoin params w = (w', [], r) ∧ has_error r = false ∧
    Str.startsWith "#" (normalizeChannel ch) = true ∧
    trace w' = trace w ++ [EJoin c (normalizeChannel ch)] ∧
    currentState w'
      = Some (set_channels
                (if bool_decide (normalizeChannel ch ∈ channels s) then channels s
                 else channels s ++ [normalizeChannel ch]) s) ∧
    (∀ s', currentState w' = Some s' →
           normalizeChannel ch ∈ channels s' ∧
           (NoDup (channels s) → NoDup (channels s'))) ∧
    ircClient w' = Some c.
Proof.
  intros Hc Hch. pose proof (proj1 (connectedSession_Some w c s) Hc) as (Hcl & Hs & _).
  unfold handleJoin. rewrite Hc, Hch.
  eexists _, _. split; [reflexivity|]. split; [done|].
  split; [apply normalizeChannel_prefixed|].
  case_bool_decide as Hin; simpl.
  - split; [done|]. split; [by rewrite Hs, set_channels_same|].
    split; [|done]. rewrite Hs. by intros s' [= <-].
  - split; [done|]. split; [done|]. split; [|done].
    intros s' [= <-]. simpl. split; [apply elem_of_app; right; by left|].
    intros Hnd. apply NoDup_app. split; [done|]. split; [|apply NoDup_singleton].
    intros x Hx ->%list_elem_of_singleton. done.
Qed.

(** The property at sample data. *)
Lemma join_lists_channel_once_witness :
  ∃ w' r,
    handleJoin (channel_params "rocq") sample_connected = (w', [], r) ∧
    has_error r = false ∧
    trace w' = trace sample_connected ++ [EJoin 0 "#rocq"] ∧
    (channels <$> currentState w') = Some ["#pi"; "#dev"; "#rocq"].
Proof.
  destruct (join_lists_channel_once (channel_params "rocq") sample_connected 0
              sample_session "rocq")
    as (w' & r & H & He & _ & Ht & Hs & _); [vm_compute; reflexivity | reflexivity |].
  exists w', r. split; [exact H|]. split; [exact He|]. split; [exact Ht|].
  rewrite Hs. reflexivity.
Defined.

(** X5: while connected, [handleLeave] always requests the part of the
    channel name with a leading #, and removes the first listing of that name
    from the session, keeping the order of the rest; a name that is not
    listed leaves the list as it was, and from a list without repetitions the
    name is gone. *)
Theorem leave_removes_first_listing (ctx : Ctx) (params : ToolParams) (w : World)
    (c : nat) (s : IRCState) (ch : string) :
  connectedSession w = Some (c, s) → truthy (tp_channel params) = Some ch →
  ∃ w' r s',
    handleLeave ctx params w = (w', [CPart c (normalizeChannel ch)], r) ∧
    has_error r = false ∧
    currentState w' = Some s' ∧ set_channels (channels s) s' = s ∧
    (normalizeChannel ch ∉ channels s → channels s' = channels s) ∧
    (normalizeChannel ch ∈ channels s →
       ∃ pre post, channels s = pre ++ [normalizeChannel ch] ++ post ∧
                   (normalizeChannel ch ∉ pre) ∧ channels s' = pre ++ post) ∧
    (NoDup (channels s) → normalizeChannel ch ∉ channels s').
Proof.
  intros Hc Hch. unfold handleLeave. rewrite Hc, Hch.
  eexists _, _, (set_channels (remove_first (normalizeChannel ch) (channels s)) s).
  split; [reflexivity|]. split; [done|].
  split; [unfold notify; by destruct (hasUI ctx)|].
  split; [by destruct s|]. simpl.
  split; [apply remove_first_not_in|]. split; [apply remove_first_in|].
  intros Hnd Hin.
  destruct (decide (normalizeChannel ch ∈ channels s)) as [Hl|Hl].
  - destruct (remove_first_in _ _ Hl) as (pre & post & Heq & Hpre & Hrem).
    rewrite Hrem in Hin. rewrite Heq in Hnd.
    apply NoDup_app in Hnd as (_ & Hdisj & Hpost).
    apply NoDup_cons in Hpost as [Hpost _].
    apply elem_of_app in Hin as [?|?]; done.
  - rewrite remove_first_not_in in Hin; done.
Qed.

(** The property at sample data. *)
Lemma leave_removes_first_listing_witness :
  ∃ w' r,
    handleLeave sample_ctx (channel_params "pi") sample_connected
      = (w', [CPart 0 "#pi"], r) ∧
    has_error r = false ∧ (channels <$> currentState w') = Some ["#dev"].
Proof.
  destruct (leave_removes_first_listing sample_ctx (channel_params "pi")
              sample_connected 0 sample_session "pi")
    as (w' & r & s' & H & He & Hs & _ & _ & Hin & _);
    [vm_compute; reflexivity | reflexivity |].
  exists w', r. split; [exact H|]. split; [exact He|]. rewrite Hs. simpl.
  destruct Hin as (pre & post & Heq & Hpre & ->); [by left|].
  destruct pre as [|x pre].
  - injection Heq as <-. reflexivity.
  - injection Heq as <- _. exfalso. apply Hpre. by left.
Defined.

Lemma handleJoin_world (w : World) (c : nat) (s : IRCState) (ch : string) :
  connectedSession w = Some (c, s) → ch ≠ EmptyString →
  (handleJoin (channel_params ch) w).1.1
  = if bool_decide (normalizeChannel ch ∈ channels s)
    then emit w (EJoin c (normalizeChannel ch))
    else with_currentState (emit w (EJoin c (normalizeChannel ch)))
           (Some (set_channels (channels s ++ [normalizeChannel ch]) s)).
Proof.
  intros Hc Hne. unfold handleJoin. rewrite Hc.
  change (tp_channel (channel_params ch)) with (Some ch).
  by replace (truthy (Some ch)) with (Some ch) by (by destruct ch).
Qed.

Lemma handleLeave_world (ctx : Ctx) (w : World) (c : nat) (s : IRCState)
    (ch : string) :
  connectedSession w = Some (c, s) → ch ≠ EmptyString →
  ircClient (handleLeave ctx (channel_params ch) w).1.1 = Some c ∧
  currentState (handleLeave ctx (channel_params ch) w).1.1
  = Some (set_channels (remove_first (normalizeChannel ch) (channels s)) s).
Proof.
  intros Hc Hne. pose proof (proj1 (connectedSession_Some w c s) Hc) as (Hcl & _ & _).
  unfold handleLeave. rewrite Hc.
  change (tp_channel (channel_params ch)) with (Some ch).
  replace (truthy (Some ch)) with (Some ch) by (by destruct ch).
  cbn [fst]. unfold notify. by destruct (hasUI ctx).
Qed.

(** X6: a join followed by a leave of a channel that was not listed gives
    the session back exactly; a leave followed by a join of a listed channel
    moves its listing to the end. *)
Theorem join_then_leave_restores (ctx : Ctx) (w : World) (c : nat) (s : IRCState)
    (ch : string) :
  connectedSession w = Some (c, s) → ch ≠ EmptyString →
  (normalizeChannel ch ∉ channels s →
     currentState
       (handleLeave ctx (channel_params ch)
          (handleJoin (channel_params ch) w).1.1).1.1 = Some s) ∧
  (∀ pre post, channels s = pre ++ [normalizeChannel ch] ++ post →
     normalizeChannel ch ∉ pre → normalizeChannel ch ∉ post →
     currentState
       (handleJoin (channel_params ch)
          (handleLeave ctx (channel_params ch) w).1.1).1.1
       = Some (set_channels (pre ++ post ++ [normalizeChannel ch]) s)).
Proof.
  intros Hc Hne. pose proof (proj1 (connectedSession_Some w c s) Hc) as (Hcl & Hs & Hon).
  split.
  - intros Hnew. rewrite (handleJoin_world w c s ch Hc Hne).
    rewrite bool_decide_eq_false_2 by done.
    set (s1 := set_channels (channels s ++ [normalizeChannel ch]) s).
    set (w1 := with_currentState _ _).
    assert (connectedSession w1 = Some (c, s1)) as Hc1.
    { apply connectedSession_Some. subst w1 s1. by destruct s. }
    destruct (handleLeave_world ctx w1 c s1 ch Hc1 Hne) as [_ ->].
    subst s1. destruct s. simpl. by rewrite remove_first_app_new.
  - intros pre post Heq Hpre Hpost.
    assert (remove_first (normalizeChannel ch) (channels s) = pre ++ post) as Hrem.
    { rewrite Heq. clear Heq. induction pre as [|y pre IH]; simpl.
      - by rewrite String.eqb_refl.
      - destruct (String.eqb y (normalizeChannel ch)) eqn:E.
        + apply String.eqb_eq in E. subst. exfalso. apply Hpre. by left.
        + f_equal. apply IH. intros ?. apply Hpre. by right. }
    destruct (handleLeave_world ctx w c s ch Hc Hne) as [Hcl1 Hs1].
    rewrite Hrem in Hs1.
    set (w1 := (handleLeave ctx (channel_params ch) w).1.1) in *.
    set (s1 := set_channels (pre ++ post) s) in *.
    assert (connectedSession w1 = Some (c, s1)) as Hc1.
    { apply connectedSession_Some. subst s1. by destruct s. }
    rewrite (handleJoin_world w1 c s1 ch Hc1 Hne).
    rewrite bool_decide_eq_false_2.
    + subst s1. destruct s. simpl. by rewrite <- app_assoc.
    + subst s1. destruct s. simpl. intros [?|?]%elem_of_app; done.
Qed.

(** The property at sample data. *)
Lemma join_then_leave_restores_witness :
  currentState
    (handleLeave sample_ctx (channel_params "rocq")
       (handleJoin (channel_params "rocq") sample_connected).1.1).1.1
    = Some sample_session ∧
  currentState
    (handleJoin (channel_params "pi")
       (handleLeave sample_ctx (channel_params "pi") sample_connected).1.1).1.1
    = Some (set_channels ["#dev"; "#pi"] sample_session).
Proof.
  destruct (join_then_leave_restores sample_ctx sample_connected 0 sample_session
              "rocq") as [Hfirst _]; [vm_compute; reflexivity | discriminate |].
  destruct (join_then_leave_restores sample_ctx sample_connected 0 sample_session
              "pi") as [_ Hsecond]; [vm_compute; reflexivity | discriminate |].
  split.
  - apply Hfirst. vm_compute. intros H. by repeat (apply elem_of_cons in H as [H|H];
      [discriminate|]); apply elem_of_nil in H.
  - apply (Hsecond [] ["#dev"]); [reflexivity | by intros ?%elem_of_nil |].
    vm_compute. intros H. by repeat (apply elem_of_cons in H as [H|H];
      [discriminate|]); apply elem_of_nil in H.
Defined.

Lemma connect_rollback_idle (w : World) :
  ircClient (connect_rollback w) = None ∧ currentState (connect_rollback w) = None.
Proof. unfold connect_rollback. by destruct (ircClient w) eqn:E. Qed.

Lemma handleConnect_error_is_clean (ctx : Ctx) (params : ConnectParams)
    (o : ConnectOutcome) (w : World) :
  has_error (handleConnect ctx params o w).2 = true →
  (handleConnect ctx params o w).1 = w ∨
  (ircClient (handleConnect ctx params o w).1 = None ∧
   currentState (handleConnect ctx params o w).1 = None).
Proof.
  unfold handleConnect, handleConnect_start.
  destruct (if isConnected w then currentState w else None); [by left|].
  destruct (8 <? _)%nat; [by left|].
  destruct o as [|m|]; unfold handleConnect_settle.
  - intros H. by vm_compute in H.
  - intros _. right. apply connect_rollback_idle.
  - intros _. right. apply connect_rollback_idle.
Qed.

(** X7: a tool call whose result carries an error has changed nothing and
    called nothing on the transport, for every action but connect; a connect
    that fails has either changed nothing or, when it had started, left
    neither transport nor session. *)
Theorem dispatch_error_is_clean (ctx : Ctx) (action : string) (params : ToolParams)
    (o : ConnectOutcome) (w : World) :
  has_error (dispatch ctx action params o w).2 = true →
  (dispatch ctx action params o w).1.2 = [] ∧
  (action_of action ≠ Some AConnect → (dispatch ctx action params o w).1.1 = w) ∧
  (action_of action = Some AConnect →
     (dispatch ctx action params o w).1.1 = w ∨
     (ircClient (dispatch ctx action params o w).1.1 = None ∧
      currentState (dispatch ctx action params o w).1.1 = None)).
Proof.
  assert (∀ (oa : option Action) (w1 : World) (cs : list Call) (r : ToolResult),
            has_error r = false →
            has_error (w1, cs, r).2 = true →
            (w1, cs, r).1.2 = [] ∧
            (oa ≠ Some AConnect → (w1, cs, r).1.1 = w) ∧
            (oa = Some AConnect →
               (w1, cs, r).1.1 = w ∨
               (ircClient (w1, cs, r).1.1 = None ∧
                currentState (w1, cs, r).1.1 = None))) as Hfine.
  { intros oa w1 cs r Hr. simpl. by rewrite Hr. }
  assert (∀ (oa : option Action) (r : ToolResult),
            has_error (w, @nil Call, r).2 = true →
            (w, @nil Call, r).1.2 = [] ∧
            (oa ≠ Some AConnect → (w, @nil Call, r).1.1 = w) ∧
            (oa = Some AConnect →
               (w, @nil Call, r).1.1 = w ∨
               (ircClient (w, @nil Call, r).1.1 = None ∧
                currentState (w, @nil Call, r).1.1 = None))) as Hsame.
  { intros oa r _. simpl. split; [done|]. split; [done|]. intros _. by left. }
  unfold dispatch.
  destruct (action_of action) as [[]|].
  - destruct (truthy (tp_host params)) as [h|],
      (truthy (tp_nickname params)) as [n|]; try apply Hsame.
    pose proof (handleConnect_error_is_clean ctx
                  {| p_host := h; p_port := tp_port params; p_nickname := n;
                     p_channels := tp_channels params |} o w) as Hclean.
    destruct (handleConnect _ _ _ _) as [w' r]. simpl in *.
    intros He. split; [done|]. split; [done|]. intros _. by apply Hclean.
  - unfold handleDisconnect.
    destruct (ircClient w); [destruct (isConnected w)|]; try apply Hsame.
    by apply Hfine.
  - unfold handleInfo. destruct (connectedSession w) as [[c s]|];
      [by apply Hfine | apply Hsame].
  - unfold handleSend. destruct (connectedSession w) as [[c s]|]; [|apply Hsame].
    destruct (truthy (tp_target params)); [|apply Hsame].
    destruct (truthy (tp_message params)); [|apply Hsame].
    by apply Hfine.
  - unfold handleChangeNick. destruct (connectedSession w) as [[c s]|];
      [|apply Hsame].
    destruct (truthy (tp_new_nick params)); [|apply Hsame].
    by apply Hfine.
  - unfold handleListChannels. destruct (connectedSession w) as [[c s]|];
      [by apply Hfine | apply Hsame].
  - unfold handleJoin. destruct (connectedSession w) as [[c s]|]; [|apply Hsame].
    destruct (truthy (tp_channel params)); [|apply Hsame].
    by apply Hfine.
  - unfold handleLeave. destruct (connectedSession w) as [[c s]|]; [|apply Hsame].
    destruct (truthy (tp_channel params)); [|apply Hsame].
    by apply Hfine.
  - apply Hsame.
Qed.

(** The property at sample data. *)
Lemma dispatch_error_is_clean_witness :
  (dispatch sample_ctx "join" no_params Registered sample_connected).1.2 = [] ∧
  (dispatch sample_ctx "join" no_params Registered sample_connected).1.1
    = sample_connected.
Proof.
  destruct (dispatch_error_is_clean sample_ctx "join" no_params Registered
              sample_connected) as (H1 & H2 & _); [vm_compute; reflexivity|].
  split; [exact H1|]. apply H2. discriminate.
Defined.

Lemma notify_fields (ctx : Ctx) (message level : string) (w : World) :
  ircClient (notify ctx message level w) = ircClient w ∧
  currentState (notify ctx message level w) = currentState w ∧
  cachedAgentsContent (notify ctx message level w) = cachedAgentsContent w ∧
  next (notify ctx message level w) = next w.
Proof. unfold notify. by destruct (hasUI ctx). Qed.

Lemma updateStatus_fields (ctx : Ctx) (w : World) :
  ircClient (updateStatus ctx w) = ircClient w ∧
  currentState (updateStatus ctx w) = currentState w ∧
  cachedAgentsContent (updateStatus ctx w) = cachedAgentsContent w ∧
  next (updateStatus ctx w) = next w.
Proof.
  unfold updateStatus. destruct (currentState w) as [s|] eqn:E; [|by rewrite E].
  destruct (hasUI ctx); simpl; [|by rewrite E].
  destruct (connected s); simpl; by rewrite ?E.
Qed.

(** X8: disconnecting a connected extension quits the transport once and
    clears transport, session and cached prompt, but leaves every buffer and
    every pending flush timer in place; a second disconnect is an error that
    changes nothing. *)
Theorem disconnect_clears_session_only (ctx : Ctx) (w : World) (c : nat)
    (s : IRCState) :
  connectedSession w = Some (c, s) →
  ∃ w',
    handleDisconnect ctx w = (w', {| text := "Disconnected from IRC"; details := [] |}) ∧
    ircClient w' = None ∧ currentState w' = None ∧ cachedAgentsContent w' = None ∧
    trace w' = trace w ++ EQuit c (Some "Disconnecting")
                 :: (if hasUI ctx then [ESetStatus "irc" EmptyString] else []) ∧
    timers w' = timers w ∧ messageBuffers w' = messageBuffers w ∧
    eventBuffers w' = eventBuffers w ∧ msgStore w' = msgStore w ∧
    evtStore w' = evtStore w ∧
    (handleDisconnect ctx w').1 = w' ∧ has_error (handleDisconnect ctx w').2 = true.
Proof.
  intros Hc. pose proof (proj1 (connectedSession_Some w c s) Hc) as (Hcl & Hs & Hon).
  assert (isConnected w = true) as Hconn by (unfold isConnected; by rewrite Hcl, Hs).
  unfold handleDisconnect at 1. rewrite Hcl, Hconn.
  eexists. split; [reflexivity|].
  destruct (hasUI ctx); simpl; rewrite <- ?app_assoc; repeat (split; [done|]);
    unfold handleDisconnect; simpl; done.
Qed.

(** The property at sample data. *)
Lemma disconnect_clears_session_only_witness :
  timers (handleDisconnect sample_ctx sample_busy).1 = timers sample_busy ∧
  currentState (handleDisconnect sample_ctx sample_busy).1 = None.
Proof.
  destruct (disconnect_clears_session_only sample_ctx sample_busy 0 sample_session)
    as (w' & Heq & _ & Hs & _ & _ & Ht & _); [vm_compute; reflexivity|].
  rewrite Heq. split; [exact Ht | exact Hs].
Defined.

(** X9: after the transport closed, the old transport object is still held
    but counts as not connected, and a connect is accepted: it installs a new
    transport without quitting the old one. *)
Theorem reconnect_after_close (ctx : Ctx) (params : ConnectParams) (w : World)
    (c : nat) (s : IRCState) :
  connectedSession w = Some (c, s) →
  (String.length (p_nickname params) ≤ 8)%nat →
  ircClient (on_close ctx w) = Some c ∧
  connectedSession (on_close ctx w) = None ∧
  ∃ w2 p,
    handleConnect_start params (on_close ctx w) = (w2, Pending p) ∧
    ircClient w2 = Some (next w) ∧
    trace w2 = trace (on_close ctx w) ++
               [ENewClient (next w);
                EConnect (next w) (p_host params) (pc_port p) (p_nickname params)].
Proof.
  intros Hc Hlen.
  pose proof (proj1 (connectedSession_Some w c s) Hc) as (Hcl & Hs & Hon).
  assert (ircClient (on_close ctx w) = Some c ∧
          currentState (on_close ctx w) = Some (set_connected false s) ∧
          next (on_close ctx w) = next w) as (Hcl' & Hs' & Hnx).
  { unfold on_close. rewrite Hs.
    destruct (updateStatus_fields ctx
                (notify ctx "IRC connection closed" "warning"
                   (with_currentState w (Some (set_connected false s)))))
      as (-> & -> & _ & ->).
    destruct (notify_fields ctx "IRC connection closed" "warning"
                (with_currentState w (Some (set_connected false s))))
      as (-> & -> & _ & ->).
    by destruct s. }
  split; [done|].
  assert (isConnected (on_close ctx w) = false) as Hoff.
  { unfold isConnected. rewrite Hcl', Hs'. by destruct s. }
  split.
  - unfold connectedSession. rewrite Hcl', Hs'. by destruct s.
  - destruct (handleConnect_start_accepted params (on_close ctx w) Hoff Hlen)
      as (w2 & p & Heq & Hc2 & _ & Htr).
    exists w2, p. by rewrite <- Hnx.
Qed.

(** The property at sample data. *)
Lemma reconnect_after_close_witness :
  ircClient (on_close sample_ctx sample_connected) = Some 0%nat ∧
  connectedSession (on_close sample_ctx sample_connected) = None.
Proof.
  destruct (reconnect_after_close sample_ctx sample_params sample_connected 0
              sample_session) as (H1 & H2 & _);
    [vm_compute; reflexivity | vm_compute; lia |].
  by split.
Defined.

(** How a tool result reads: it has no error field and its text does not
    start with [Error:]; or it has one and its text does; or it is the answer
    to a connect while connected, which has the field and not the prefix. *)
Lemma handleConnect_reads (ctx : Ctx) (params : ConnectParams)
    (o : ConnectOutcome) (w : World) :
  let r := (handleConnect ctx params o w).2 in
  (has_error r = false ∧ Str.startsWith "Error:" (text r) = false) ∨
  (has_error r = true ∧ Str.startsWith "Error:" (text r) = true) ∨
  (∃ s, currentState w = Some s ∧ isConnected w = true ∧
        handleConnect ctx params o w = (w, already_connected (nick s))).
Proof.
  unfold handleConnect, handleConnect_start.
  destruct (isConnected w) eqn:Hconn.
  - destruct (currentState w) as [s|] eqn:Hs.
    + right. right. by exists s.
    + unfold isConnected in Hconn. rewrite Hs in Hconn. by destruct (ircClient w).
  - destruct (8 <? _)%nat; [right; left; by split|].
    destruct o as [|m|]; unfold handleConnect_settle.
    + left. split; vm_compute; reflexivity.
    + right. left. by split.
    + right. left. by split.
Qed.

Lemma dispatch_reads (ctx : Ctx) (action : string) (params : ToolParams)
    (o : ConnectOutcome) (w : World) :
  let r := (dispatch ctx action params o w).2 in
  (has_error r = false ∧ Str.startsWith "Error:" (text r) = false) ∨
  (has_error r = true ∧ Str.startsWith "Error:" (text r) = true) ∨
  (∃ s, currentState w = Some s ∧ isConnected w = true ∧
        action_of action = Some AConnect ∧
        dispatch ctx action params o w = (w, [], already_connected (nick s))).
Proof.
  unfold dispatch.
  destruct (action_of action) as [[]|].
  - destruct (truthy (tp_host params)) as [h|],
      (truthy (tp_nickname params)) as [n|]; try (right; left; by split).
    pose proof (handleConnect_reads ctx
                  {| p_host := h; p_port := tp_port params; p_nickname := n;
                     p_channels := tp_channels params |} o w) as Hreads.
    destruct (handleConnect _ _ _ _) as [w' r]. simpl in *.
    destruct Hreads as [?|[?|(s & ? & ? & [= -> ->])]]; [by left | right; by left |].
    right. right. by exists s.
  - unfold handleDisconnect.
    destruct (ircClient w); [destruct (isConnected w)|];
      [left; by split | right; left; by split..].
  - unfold handleInfo. destruct (connectedSession w) as [[c s]|];
      [left; by split | right; left; by split].
  - unfold handleSend. destruct (connectedSession w) as [[c s]|];
      [|right; left; by split].
    destruct (truthy (tp_target params)); [|right; left; by split].
    destruct (truthy (tp_message params)); [|right; left; by split].
    left. by split.
  - unfold handleChangeNick. destruct (connectedSession w) as [[c s]|];
      [|right; left; by split].
    destruct (truthy (tp_new_nick params)); [|right; left; by split].
    left. by split.
  - unfold handleListChannels. destruct (connectedSession w) as [[c s]|];
      [left; by split | right; left; by split].
  - unfold handleJoin. destruct (connectedSession w) as [[c s]|];
      [|right; left; by split].
    destruct (truthy (tp_channel params)); [|right; left; by split].
    left. by split.
  - unfold handleLeave. destruct (connectedSession w) as [[c s]|];
      [|right; left; by split].
    destruct (truthy (tp_channel params)); [|right; left; by split].
    left. by split.
  - right. left. by split.
Qed.

(** X10: what the command shows for a tool result. A command line that
    reaches a tool shows the result's text, at level error when the text
    starts with [Error:] and at level info otherwise. For every tool result
    this agrees with the result's error field, with one exception: the answer
    to a connect while connected carries the field [already_connected] and
    has a text without the prefix, so the command shows it as information. *)
Theorem error_text_marks_errors (ctx : Ctx) (argsStr action : string)
    (rest : list string) (params : ToolParams) (o : ConnectOutcome) (w : World) :
  parse_args argsStr = action :: rest →
  command_params action (action :: rest) = inr params →
  let w1 := (dispatch ctx action params o w).1.1 in
  let calls := (dispatch ctx action params o w).1.2 in
  let r := (dispatch ctx action params o w).2 in
  (has_error r = false ∧
   commandHandler ctx argsStr o w = (emit w1 (ENotify (text r) "info"), calls)) ∨
  (has_error r = true ∧ Str.startsWith "Error:" (text r) = true ∧
   commandHandler ctx argsStr o w = (emit w1 (ENotify (text r) "error"), calls)) ∨
  (∃ s, currentState w = Some s ∧ isConnected w = true ∧
        action_of action = Some AConnect ∧
        r = already_connected (nick s) ∧ has_error r = true ∧
        commandHandler ctx argsStr o w
        = (emit w (ENotify ("Already connected as " +:+ nick s) "info"), [])).
Proof.
  intros Hparse Hparams w1 calls r. subst w1 calls r.
  unfold commandHandler. rewrite Hparse, Hparams.
  pose proof (dispatch_reads ctx action params o w) as Hreads.
  destruct (dispatch ctx action params o w) as [[w1 calls] r]. simpl in *.
  destruct Hreads as [[He Ht] | [[He Ht] | (s & Hs & Hc & Ha & [= -> -> ->])]].
  - left. by rewrite Ht.
  - right. left. by rewrite Ht.
  - right. right. exists s. by repeat split.
Qed.

(** The property at sample data. *)
Lemma error_text_marks_errors_witness :
  commandHandler sample_ctx "connect irc.libera.chat pibot" Registered sample_connected
  = (emit sample_connected (ENotify "Already connected as pibot" "info"), []) ∧
  commandHandler sample_ctx "send #pi hello" Registered init
  = (emit init (ENotify not_connected_send.(text) "error"), []).
Proof.
  split.
  - destruct (error_text_marks_errors sample_ctx "connect irc.libera.chat pibot"
                "connect" ["irc.libera.chat"; "pibot"]
                {| tp_host := Some "irc.libera.chat"; tp_port := None;
                   tp_nickname := Some "pibot"; tp_channels := Some [];
                   tp_target := None; tp_message := None; tp_new_nick := None;
                   tp_channel := None |} Registered sample_connected)
      as [[He _] | [(_ & Ht & _) | (s & Hs & _ & _ & _ & _ & Heq)]];
      [vm_compute; reflexivity | vm_compute; reflexivity | by vm_compute in He
      | by vm_compute in Ht |].
    rewrite Heq.
    assert (Some s = Some sample_session) as [= ->]
      by (rewrite <- Hs; vm_compute; reflexivity).
    reflexivity.
  - destruct (error_text_marks_errors sample_ctx "send #pi hello"
                "send" ["#pi"; "hello"] (send_params "#pi" "hello") Registered init)
      as [[He _] | [(_ & _ & Heq) | (s & Hs & _)]];
      [vm_compute; reflexivity | vm_compute; reflexivity | by vm_compute in He
      | | by vm_compute in Hs].
    rewrite Heq. vm_compute. reflexivity.
Defined.

(** ** The command *)

Lemma append_empty_r (s : string) : s +:+ EmptyString = s.
Proof. induction s as [|c s IH]; [done|]. change (String c (s +:+ EmptyString) = String c s). by rewrite IH. Qed.

Lemma append_cons (c : ascii) (a b : string) : String c a +:+ b = String c (a +:+ b).
Proof. done. Qed.

Lemma trimStart_blank (b x : string) :
  blank b = true → trimStart (b +:+ x) = trimStart x.
Proof.
  induction b as [|c b IH]; [done|]. unfold blank. simpl.
  intros [Hc Hb]%andb_prop. rewrite ?append_cons. simpl. rewrite Hc. by apply IH.
Qed.

Lemma trimEnd_blank_only (b : string) : blank b = true → trimEnd b = EmptyString.
Proof.
  induction b as [|c b IH]; [done|]. unfold blank. simpl.
  intros [Hc Hb]%andb_prop. rewrite (IH Hb). by rewrite Hc.
Qed.

Lemma trimEnd_blank (x b : string) :
  blank b = true → trimEnd (x +:+ b) = trimEnd x.
Proof.
  intros Hb. induction x as [|c x IH]; [by apply trimEnd_blank_only|].
  rewrite ?append_cons. simpl. by rewrite IH.
Qed.

Lemma trimEnd_word (w : string) : is_word w = true → trimEnd w = w.
Proof.
  induction w as [|c w IH]; [done|]. simpl.
  intros [Hc Hw]%andb_prop. apply negb_true_iff in Hc.
  destruct w as [|c' w]; [simpl; by rewrite Hc|].
  rewrite IH by done. done.
Qed.

Lemma trimEnd_app_fixed (a b : string) :
  b ≠ EmptyString → trimEnd b = b → trimEnd (a +:+ b) = a +:+ b.
Proof.
  intros Hne Hb. induction a as [|c a IH]; [done|].
  rewrite ?append_cons. simpl. rewrite IH.
  destruct (a +:+ b) eqn:E; [|done].
  destruct a; [by simpl in E|done].
Qed.

Lemma spaced_starts (w : string) (rest : list (string * string)) :
  is_word w = true →
  ∃ c x, spaced w rest = String c x ∧ is_space c = false.
Proof.
  destruct w as [|c w]; [done|]. simpl. intros [Hc _]%andb_prop.
  apply negb_true_iff in Hc.
  destruct rest as [|[g w'] rest]; simpl; eauto.
Qed.

Lemma trimEnd_spaced (w : string) (rest : list (string * string)) :
  is_word w = true → Forall (λ gw, is_gap gw.1 = true ∧ is_word gw.2 = true) rest →
  trimEnd (spaced w rest) = spaced w rest.
Proof.
  revert w. induction rest as [|[g w'] rest IH]; intros w Hw Hrest; simpl.
  - by apply trimEnd_word.
  - apply Forall_cons in Hrest as [[_ Hw'] Hrest]. simpl in *.
    rewrite <- append_assoc. apply trimEnd_app_fixed; [|by apply IH].
    destruct (spaced_starts w' rest Hw') as (c & x & -> & _). done.
Qed.

Lemma pieces_nonspace_head (b : bool) (c : ascii) (x : string) :
  is_space c = false → pieces b (String c x) = pieces false (String c x).
Proof. intros Hc. simpl. by rewrite Hc. Qed.

Lemma pieces_word_app (w r p : string) (ps : list string) :
  all_units (λ c, negb (is_space c)) w = true →
  pieces false r = p :: ps →
  pieces false (w +:+ r) = (w +:+ p) :: ps.
Proof.
  intros Hw Hr. induction w as [|c w IH]; [done|].
  simpl in Hw. apply andb_prop in Hw as [Hc Hw]. apply negb_true_iff in Hc.
  rewrite ?append_cons. simpl. rewrite Hc. by rewrite (IH Hw).
Qed.

Lemma pieces_blank_app (g x : string) :
  blank g = true → pieces true (g +:+ x) = pieces true x.
Proof.
  induction g as [|c g IH]; [done|]. unfold blank. simpl.
  intros [Hc Hg]%andb_prop. rewrite ?append_cons. simpl. rewrite Hc. by apply IH.
Qed.

Lemma pieces_gap_app (g x : string) (c : ascii) :
  is_gap g = true → is_space c = false →
  pieces false (g +:+ String c x) = EmptyString :: pieces false (String c x).
Proof.
  destruct g as [|c0 g]; [done|]. simpl. unfold blank. simpl.
  intros [Hc0 Hg]%andb_prop Hc. rewrite ?append_cons.
  change (pieces false (String c0 (g +:+ String c x)))
    with (if is_space c0 then EmptyString :: pieces true (g +:+ String c x)
          else match pieces false (g +:+ String c x) with
               | p :: ps => String c0 p :: ps
               | [] => [String c0 EmptyString]
               end).
  rewrite Hc0. rewrite pieces_blank_app by done.
  by rewrite pieces_nonspace_head.
Qed.

Lemma split_ws_spaced (w : string) (rest : list (string * string)) :
  is_word w = true → Forall (λ gw, is_gap gw.1 = true ∧ is_word gw.2 = true) rest →
  split_ws (spaced w rest) = w :: (snd <$> rest).
Proof.
  unfold split_ws. revert w. induction rest as [|[g w'] rest IH]; intros w Hw Hrest.
  - simpl. rewrite <- (append_empty_r w) at 1.
    rewrite (pieces_word_app w EmptyString EmptyString []); [by rewrite append_empty_r| |done].
    by destruct w.
  - apply Forall_cons in Hrest as [[Hg Hw'] Hrest]. simpl in Hg, Hw'.
    change (spaced w ((g, w') :: rest)) with (w +:+ g +:+ spaced w' rest).
    destruct (spaced_starts w' rest Hw') as (c & x & Heq & Hc).
    rewrite (pieces_word_app w _ EmptyString (w' :: (snd <$> rest))).
    + by rewrite append_empty_r.
    + by destruct w.
    + rewrite Heq, pieces_gap_app by done. rewrite <- Heq. by rewrite IH.
Qed.

Lemma parse_args_spaced (lead trail w : string) (rest : list (string * string)) :
  blank lead = true → blank trail = true → is_word w = true →
  Forall (λ gw, is_gap gw.1 = true ∧ is_word gw.2 = true) rest →
  parse_args (lead +:+ spaced w rest +:+ trail) = w :: (snd <$> rest).
Proof.
  intros Hl Ht Hw Hrest.
  destruct (spaced_starts w rest Hw) as (c & x & Heq & Hc).
  assert (parse_args (lead +:+ spaced w rest +:+ trail)
          = split_ws (trim (lead +:+ spaced w rest +:+ trail))) as ->.
  { unfold parse_args. rewrite Heq. by destruct lead. }
  unfold trim. rewrite trimStart_blank by done.
  assert (trimStart (spaced w rest +:+ trail) = spaced w rest +:+ trail) as ->.
  { rewrite Heq, ?append_cons. simpl. by rewrite Hc. }
  rewrite trimEnd_blank by done. rewrite trimEnd_spaced by done.
  by apply split_ws_spaced.
Qed.

Lemma pieces_no_space (b : bool) (s : string) :
  Forall (λ p, all_units (λ c, negb (is_space c)) p = true) (pieces b s).
Proof.
  revert b. induction s as [|c s IH]; intros b; simpl.
  - by apply Forall_singleton.
  - destruct (is_space c) eqn:Hc.
    + destruct b; [apply IH | apply Forall_cons; split; [done | apply IH]].
    + pose proof (IH false) as Hs. destruct (pieces false s) as [|p ps].
      * apply Forall_singleton. simpl. by rewrite Hc.
      * apply Forall_cons in Hs as [Hp Hps]. apply Forall_cons. split; [|done].
        simpl. by rewrite Hc.
Qed.

Lemma trimStart_blank_only (b : string) : blank b = true → trimStart b = EmptyString.
Proof.
  induction b as [|c b IH]; [done|]. unfold blank. simpl.
  intros [Hc Hb]%andb_prop. rewrite Hc. by apply IH.
Qed.

Lemma parse_args_blank (s : string) :
  s ≠ EmptyString → blank s = true → parse_args s = [EmptyString].
Proof.
  intros Hne Hb. unfold parse_args, trim. destruct s as [|c s]; [done|].
  by rewrite (trimStart_blank_only _ Hb).
Qed.

(** X11: the words the command handler parses never contain white space;
    from a line of words separated by runs of white space, with white space
    allowed before and after, it recovers exactly the words in order. *)
Theorem parse_args_recovers_words (lead trail w : string)
    (rest : list (string * string)) :
  (∀ s, Forall (λ p, all_units (λ c, negb (is_space c)) p = true) (parse_args s)) ∧
  (blank lead = true → blank trail = true → is_word w = true →
   Forall (λ gw, is_gap gw.1 = true ∧ is_word gw.2 = true) rest →
   parse_args (lead +:+ spaced w rest +:+ trail) = w :: (snd <$> rest)).
Proof.
  split.
  - intros s. unfold parse_args. destruct s; [done|]. apply pieces_no_space.
  - apply parse_args_spaced.
Qed.

(** The property at sample data. *)
Lemma parse_args_recovers_words_witness :
  parse_args ("  send" +:+ " " +:+ "#pi" +:+ String "009"%char "  " +:+ "hello" +:+
              "   " +:+ "world" +:+ " ")
  = ["send"; "#pi"; "hello"; "world"].
Proof.
  destruct (parse_args_recovers_words "  " " " "send"
              [(" ", "#pi"); (String "009"%char "  ", "hello"); ("   ", "world")])
    as [_ H].
  apply H; [reflexivity | reflexivity | reflexivity |].
  repeat (apply Forall_cons; split; [by split|]). apply Forall_nil_2.
Defined.

Lemma join_word_truthy (w : string) (ws : list string) :
  is_word w = true → truthy (Some (Str.join " " (w :: ws))) = Some (Str.join " " (w :: ws)).
Proof.
  destruct w as [|c w]; [done|]. intros _. unfold Str.join.
  destruct ws; done.
Qed.

(** X12: [irc send] from the command line says the message once, with every
    run of white space between its words collapsed to one space, and shows
    the result as information. *)
Theorem command_send_collapses_whitespace (ctx : Ctx) (o : ConnectOutcome)
    (w : World) (c : nat) (s : IRCState)
    (lead trail g0 target g1 word : string) (rest : list (string * string)) :
  connectedSession w = Some (c, s) →
  blank lead = true → blank trail = true →
  is_gap g0 = true → is_word target = true → is_gap g1 = true → is_word word = true →
  Forall (λ gw, is_gap gw.1 = true ∧ is_word gw.2 = true) rest →
  let message := Str.join " " (word :: (snd <$> rest)) in
  commandHandler ctx
    (lead +:+ spaced "send" ((g0, target) :: (g1, word) :: rest) +:+ trail) o w
  = (emit w (ENotify ("Sent to " +:+ target +:+ ": " +:+ message) "info"),
     [CSay c target message]).
Proof.
  intros Hc Hl Ht Hg0 Htarget Hg1 Hword Hrest message.
  unfold commandHandler.
  rewrite (parse_args_spaced lead trail "send" ((g0, target) :: (g1, word) :: rest));
    [|done|done|done|].
  2:{ apply Forall_cons. split; [done|]. apply Forall_cons. by split. }
  cbn [fmap list_fmap snd]. unfold command_params.
  change (action_of "send") with (Some ASend). cbn iota.
  unfold dispatch. change (action_of "send") with (Some ASend). cbn iota.
  unfold handleSend. rewrite Hc. cbn [tp_target tp_message].
  replace (truthy (Some target)) with (Some target) by (by destruct target).
  fold message.
  replace (truthy (Some message)) with (Some message)
    by (symmetry; by apply join_word_truthy).
  cbn [text]. done.
Qed.

(** The property at sample data. *)
Lemma command_send_collapses_whitespace_witness :
  commandHandler sample_ctx ("send  #pi hello   world ") Registered sample_connected
  = (emit sample_connected (ENotify "Sent to #pi: hello world" "info"),
     [CSay 0%nat "#pi" "hello world"]).
Proof.
  apply (command_send_collapses_whitespace sample_ctx Registered sample_connected 0
           sample_session EmptyString " " "  " "#pi" " " "hello" [("   ", "world")]);
    [vm_compute; reflexivity | reflexivity | reflexivity | reflexivity | reflexivity
    | reflexivity | reflexivity |].
  apply Forall_cons. split; [by split|]. apply Forall_nil_2.
Defined.

(** X13: a command line of white space only is not taken as a line without
    arguments: it is refused as an unknown action with an empty name, and
    nothing else happens, whether connected or not. *)
Theorem command_blank_line_is_unknown_action (ctx : Ctx) (argsStr : string)
    (o : ConnectOutcome) (w : World) :
  argsStr ≠ EmptyString → blank argsStr = true →
  ∃ message,
    commandHandler ctx argsStr o w = (emit w (ENotify message "error"), []) ∧
    Str.startsWith ("Unknown action: " +:+ Str.nl +:+ "Supported: ") message = true.
Proof.
  intros Hne Hb. unfold commandHandler. rewrite parse_args_blank by done.
  unfold command_params. change (action_of EmptyString) with (@None Action).
  eexists. split; [reflexivity|]. vm_compute. reflexivity.
Qed.

(** The property at sample data. *)
Lemma command_blank_line_is_unknown_action_witness :
  ∃ message,
    commandHandler sample_ctx "  " Registered sample_connected
    = (emit sample_connected (ENotify message "error"), []) ∧
    Str.startsWith ("Unknown action: " +:+ Str.nl +:+ "Supported: ") message = true.
Proof.
  apply (command_blank_line_is_unknown_action sample_ctx "  " Registered
           sample_connected); [discriminate | reflexivity].
Defined.

(** ** Connecting *)

Lemma join_all_trace (c : nat) (chs : list string) (w : World) :
  trace (foldl (λ acc channel, emit acc (EJoin c channel)) w chs)
  = trace w ++ (EJoin c <$> chs).
Proof.
  revert w. induction chs as [|ch chs IH]; intros w; simpl.
  - by rewrite app_nil_r.
  - rewrite IH. simpl. by rewrite <- app_assoc.
Qed.

Lemma filter_transport_joins (c : nat) (chs : list string) :
  List.filter is_transport (EJoin c <$> chs) = EJoin c <$> chs.
Proof.
  induction chs as [|ch chs IH]; [done|].
  change (EJoin c ch :: List.filter is_transport (EJoin c <$> chs) = EJoin c ch :: (EJoin c <$> chs)).
  by rewrite IH.
Qed.

(** X14: a connect that the server registers records the session with every
    channel name carrying its [#], on port 6667 when no port or port 0 was
    given, and its transport calls are: create, connect, then one join per
    channel in the order given. *)
Theorem connect_joins_channels_in_order (ctx : Ctx) (params : ConnectParams)
    (w : World) :
  isConnected w = false →
  (String.length (p_nickname params) ≤ 8)%nat →
  ∃ w' p,
    handleConnect ctx params Registered w = (w', connect_success p) ∧
    pc_channels p = normalizeChannel <$> default [] (p_channels params) ∧
    Forall (λ ch, Str.startsWith "#" ch = true) (pc_channels p) ∧
    (p_port params = None ∨ p_port params = Some 0%Z → pc_port p = 6667%Z) ∧
    currentState w'
    = Some {| connected := true; host := p_host params; port := pc_port p;
              nick := p_nickname params; channels := pc_channels p;
              profileName := None |} ∧
    List.filter is_transport (trace w')
    = List.filter is_transport (trace w) ++
      ENewClient (next w)
        :: EConnect (next w) (p_host params) (pc_port p) (p_nickname params)
        :: (EJoin (next w) <$> pc_channels p).
Proof.
  intros Hc Hlen. unfold handleConnect, handleConnect_start.
  rewrite Hc. apply Nat.ltb_ge in Hlen. rewrite Hlen.
  unfold handleConnect_settle.
  eexists _, _. split; [reflexivity|]. cbn [pc_channels pc_port].
  split; [done|]. split.
  { apply Forall_fmap, Forall_forall. intros ch _. simpl.
    apply normalizeChannel_prefixed. }
  split.
  { intros [->| ->]; done. }
  unfold on_registered, updateStatus. simpl.
  destruct (hasUI ctx) eqn:Hui; simpl.
  - match goal with |- context [foldl ?f ?a ?l] =>
      destruct (join_all_keeps_session (next w) l a) as [_ ->];
      rewrite (join_all_trace (next w) l a) end.
    split; [done|].
    simpl. rewrite !List.filter_app, filter_transport_joins. simpl.
    by rewrite app_nil_r, <- !app_assoc.
  - match goal with |- context [foldl ?f ?a ?l] =>
      destruct (join_all_keeps_session (next w) l a) as [_ ->];
      rewrite (join_all_trace (next w) l a) end.
    split; [done|].
    simpl. rewrite !List.filter_app, filter_transport_joins. simpl.
    by rewrite <- !app_assoc.
Qed.

(** The property at sample data. *)
Lemma connect_joins_channels_in_order_witness :
  List.filter is_transport (trace sample_connected)
  = [ENewClient 0; EConnect 0 "irc.libera.chat" 6667 "pibot";
     EJoin 0 "#pi"; EJoin 0 "#dev"].
Proof.
  destruct (connect_joins_channels_in_order sample_ctx sample_params init)
    as (w' & p & Heq & Hchs & _ & Hport & _ & Htr); [reflexivity | vm_compute; lia |].
  assert (w' = sample_connected) as -> by (unfold sample_connected; by rewrite Heq).
  rewrite Htr, Hchs, Hport by (by left). reflexivity.
Defined.

(** ** Session hooks *)

Lemma notify_transport (ctx : Ctx) (message level : string) (w : World) :
  List.filter is_transport (trace (notify ctx message level w))
  = List.filter is_transport (trace w).
Proof.
  unfold notify. destruct (hasUI ctx); [|done]. simpl.
  rewrite List.filter_app. simpl. by rewrite app_nil_r.
Qed.

Lemma notify_quiet (ctx : Ctx) (message level : string) (w : World) :
  ircClient (notify ctx message level w) = ircClient w ∧
  currentState (notify ctx message level w) = currentState w ∧
  cachedAgentsContent (notify ctx message level w) = cachedAgentsContent w ∧
  List.filter is_transport (trace (notify ctx message level w))
  = List.filter is_transport (trace w).
Proof.
  destruct (notify_fields ctx message level w) as (? & ? & ? & _).
  by rewrite notify_transport.
Qed.

(** X15: session start creates a transport exactly when a profile name is
    given, the profile resolves to an entry of the configuration, its nickname
    has at most 8 characters, its [autoConnect] is not [false], and the
    extension is not connected; in every other case it touches neither
    transport, session nor cached prompt. The one case the state type cannot
    follow is told apart exactly: the guards pass and the server is a member
    of [Object.prototype]. *)
Theorem session_start_guards (ctx : Ctx) (fs : Host) (file : Profiles.ConfigFile)
    (profileName : string) (w : World) :
  let guards :=
    profileName ≠ EmptyString ∧ isConnected w = false ∧
    ∃ r p, Profiles.getResolvedProfile file profileName = Profiles.Fulfilled (Some r) ∧
           Profiles.profile r = Profiles.Entry p ∧
           (String.length (prof_nick p) ≤ 8)%nat ∧
           prof_autoConnect p ≠ Some false in
  (∀ w' calls,
     on_session_start ctx fs file profileName w = Some (w', calls) →
     (calls ≠ [] ↔ guards) ∧
     (calls = [] →
      ircClient w' = ircClient w ∧ currentState w' = currentState w ∧
      cachedAgentsContent w' = cachedAgentsContent w ∧
      List.filter is_transport (trace w') = List.filter is_transport (trace w))) ∧
  (on_session_start ctx fs file profileName w = None ↔
   guards ∧
   ∃ r n, Profiles.getResolvedProfile file profileName = Profiles.Fulfilled (Some r) ∧
          Profiles.server r = Profiles.ProtoMember n).
Proof.
  intros guards. subst guards. unfold on_session_start.
  destruct profileName as [|a name].
  { split.
    - intros w' calls [= <- <-]. split; [|done]. split; [done | by intros (? & _)].
    - split; [done | by intros [(? & _) _]]. }
  set (pn := String a name).
  destruct (Profiles.getResolvedProfile file pn) as [[r|]|e] eqn:Hr.
  2:{ split.
      - intros w' calls [= <- <-]. split; [|intros _; apply notify_quiet].
        split; [done|]. by intros (_ & _ & r' & p' & ? & _).
      - split; [done | by intros [(_ & _ & r' & p' & ? & _) _]]. }
  2:{ split.
      - intros w' calls [= <- <-]. split; [|intros _; apply notify_quiet].
        split; [done|]. by intros (_ & _ & r' & p' & ? & _).
      - split; [done | by intros [(_ & _ & r' & p' & ? & _) _]]. }
  destruct (Profiles.profile r) as [p|n] eqn:Hp.
  2:{ split.
      - intros w' calls [= <- <-]. split; [|intros _; apply notify_quiet].
        split; [done|]. intros (_ & _ & r' & p' & [= <-] & Hp' & _). congruence.
      - split; [done|]. intros [(_ & _ & r' & p' & [= <-] & Hp' & _) _]. congruence. }
  destruct (8 <? String.length (prof_nick p))%nat eqn:Hlen.
  { apply Nat.ltb_lt in Hlen. split.
    - intros w' calls [= <- <-]. split; [|intros _; apply notify_quiet].
      split; [done|]. intros (_ & _ & r' & p' & [= <-] & Hp' & ? & _).
      rewrite Hp in Hp'. injection Hp' as <-. lia.
    - split; [done|]. intros [(_ & _ & r' & p' & [= <-] & Hp' & ? & _) _].
      rewrite Hp in Hp'. injection Hp' as <-. lia. }
  apply Nat.ltb_ge in Hlen.
  assert (prof_autoConnect p = Some false ∨ prof_autoConnect p ≠ Some false)
    as [Hauto|Hauto] by (destruct (prof_autoConnect p) as [[]|]; auto).
  { rewrite Hauto. split.
    - intros w' calls [= <- <-]. split; [|intros _; apply notify_quiet].
      split; [done|]. intros (_ & _ & r' & p' & [= <-] & Hp' & _ & Hno).
      rewrite Hp in Hp'. injection Hp' as <-. done.
    - split; [done|]. intros [(_ & _ & r' & p' & [= <-] & Hp' & _ & Hno) _].
      rewrite Hp in Hp'. injection Hp' as <-. done. }
  assert (∀ (A : Type) (x y : A),
            match prof_autoConnect p with
            | Some false => x
            | _ => y
            end = y) as Hgo
    by (intros A x y; by destruct (prof_autoConnect p) as [[]|]).
  rewrite Hgo. clear Hgo.
  destruct (isConnected w) eqn:Hc.
  { split.
    - intros w' calls [= <- <-]. split; [|done].
      split; [done | by intros (_ & ? & _)].
    - split; [done | by intros [(_ & ? & _) _]]. }
  assert (pn ≠ EmptyString ∧ false = false ∧
          ∃ r' p', @Profiles.Fulfilled (option Profiles.Resolved) (Some r)
                   = Profiles.Fulfilled (Some r') ∧
                   Profiles.profile r' = Profiles.Entry p' ∧
                   (String.length (prof_nick p') ≤ 8)%nat ∧
                   prof_autoConnect p' ≠ Some false) as Hguards.
  { split; [done|]. split; [done|]. by exists r, p. }
  destruct (Profiles.server r) as [sv|n] eqn:Hsv.
  - split.
    + intros w' calls [= <- <-]. split; [by split | done].
    + split; [done|]. intros [_ (r' & n' & [= <-] & Hn)]. congruence.
  - split; [done|]. split; [|done]. intros _. split; [exact Hguards|].
    by exists r, n.
Qed.

(** The property at sample data: a name without a profile, and a profile
    that passes the guards. *)
Lemma session_start_guards_witness :
  (∃ w', on_session_start sample_ctx sample_host sample_file "ghost" init
         = Some (w', [])) ∧
  (∃ w' calls, on_session_start sample_ctx sample_host sample_prompt_file "docs" init
               = Some (w', calls) ∧ calls ≠ []) ∧
  on_session_start sample_ctx sample_host sample_odd_file "odd" init = None.
Proof.
  split; [|split].
  - destruct (on_session_start sample_ctx sample_host sample_file "ghost" init)
      as [[w' calls]|] eqn:E; [|by vm_compute in E].
    destruct (session_start_guards sample_ctx sample_host sample_file "ghost" init)
      as [H _].
    destruct (H w' calls E) as [[Hto _] _].
    destruct calls as [|c cs]; [by exists w'|].
    destruct (Hto ltac:(done)) as (_ & _ & r & p & Hr & _). by vm_compute in Hr.
  - destruct (on_session_start sample_ctx sample_host sample_prompt_file "docs" init)
      as [[w' calls]|] eqn:E; [|by vm_compute in E].
    destruct (session_start_guards sample_ctx sample_host sample_prompt_file "docs"
                init) as [H _].
    destruct (H w' calls E) as [[_ Hfrom] _].
    exists w', calls. split; [done|]. apply Hfrom.
    split; [discriminate|]. split; [reflexivity|].
    eexists _, sample_docs_profile. split; [vm_compute; reflexivity|].
    split; [reflexivity|]. split; [vm_compute; lia | discriminate].
  - apply (session_start_guards sample_ctx sample_host sample_odd_file "odd" init).
    split.
    + split; [discriminate|]. split; [reflexivity|].
      eexists _, (sample_profile "toString"). split; [vm_compute; reflexivity|].
      split; [reflexivity|]. split; [vm_compute; lia | discriminate].
    + eexists _, "toString". split; [vm_compute; reflexivity | reflexivity].
Defined.

Lemma loadAgentsFile_fields (fs : Host) (file : Profiles.ConfigFile)
    (profileName : string) (w : World) :
  ircClient (loadAgentsFile fs file profileName w) = ircClient w ∧
  currentState (loadAgentsFile fs file profileName w) = currentState w ∧
  next (loadAgentsFile fs file profileName w) = next w ∧
  trace (loadAgentsFile fs file profileName w) = trace w.
Proof.
  unfold loadAgentsFile.
  destruct (Profiles.getResolvedProfile file profileName) as [[r|]|e]; [|done|done].
  destruct (Profiles.profile r) as [p|n]; [|done].
  destruct (truthy (prof_agentsFile p)) as [f|]; [|done].
  by destruct (readFile fs (agentsPath fs f)).
Qed.

Lemma session_start_proceeds (ctx : Ctx) (fs : Host) (file : Profiles.ConfigFile)
    (profileName : string) (w : World) (profile : IRCProfile) (server : IRCServer) :
  profileName ≠ EmptyString →
  Profiles.getResolvedProfile file profileName
  = Profiles.Fulfilled (Some {| Profiles.profile := Profiles.Entry profile;
                                Profiles.server := Profiles.Entry server |}) →
  (String.length (prof_nick profile) ≤ 8)%nat →
  prof_autoConnect profile ≠ Some false →
  isConnected w = false →
  let nick := prof_nick profile in
  let w1 := loadAgentsFile fs file profileName w in
  let w3 := with_next
              (with_ircClient
                 (with_currentState w1
                    (Some {| connected := false; host := srv_host server;
                             port := srv_port server; nick := nick;
                             channels := prof_channels profile;
                             profileName := Some profileName |}))
                 (Some (next w1))) (S (next w1)) in
  on_session_start ctx fs file profileName w
  = Some (notify ctx ("Auto-connecting to " +:+ srv_host server +:+ ":" +:+
                      pretty (srv_port server) +:+ " as " +:+ nick +:+
                      " (profile: " +:+ profileName +:+ ")") "info" w3,
          [CNewClient (next w1) nick (default nick (truthy (prof_username profile)))
             (default nick (truthy (prof_realname profile)))
             (match truthy (prof_nickservPass profile) with
              | Some password => Some (nick, password)
              | None => None
              end);
           CConnect (next w1) (srv_host server) (srv_port server) nick
             (default nick (truthy (prof_username profile)))
             (default false (srv_ssl server))]).
Proof.
  intros Hne Hr Hlen Hauto Hc. unfold on_session_start.
  destruct profileName as [|a name]; [done|]. rewrite Hr. cbn [Profiles.profile
    Profiles.server].
  apply Nat.ltb_ge in Hlen. rewrite Hlen, Hc.
  by destruct (prof_autoConnect profile) as [[]|].
Qed.

Lemma on_session_start_cases (ctx : Ctx) (fs : Host) (file : Profiles.ConfigFile)
    (profileName : string) (w w' : World) (calls : list ProfileCall) :
  on_session_start ctx fs file profileName w = Some (w', calls) →
  (calls = [] ∧ (w' = w ∨ ∃ message level, w' = notify ctx message level w)) ∨
  (∃ profile server,
     profileName ≠ EmptyString ∧
     Profiles.getResolvedProfile file profileName
     = Profiles.Fulfilled (Some {| Profiles.profile := Profiles.Entry profile;
                                   Profiles.server := Profiles.Entry server |}) ∧
     (String.length (prof_nick profile) ≤ 8)%nat ∧
     prof_autoConnect profile ≠ Some false ∧
     isConnected w = false).
Proof.
  unfold on_session_start.
  destruct profileName as [|a name]; [intros [= <- <-]; left; by auto|].
  destruct (Profiles.getResolvedProfile file _) as [[[[p|n] sv]|]|e] eqn:Hr;
    cbn [Profiles.profile Profiles.server];
    try (intros [= <- <-]; left; split; [done|]; right; by eexists _, _).
  destruct (8 <? _)%nat eqn:Hlen;
    [intros [= <- <-]; left; split; [done|]; right; by eexists _, _|].
  apply Nat.ltb_ge in Hlen.
  assert (prof_autoConnect p = Some false ∨ prof_autoConnect p ≠ Some false)
    as [Hauto|Hauto] by (destruct (prof_autoConnect p) as [[]|]; auto).
  { rewrite Hauto. intros [= <- <-]. left. split; [done|]. right. by eexists _, _. }
  assert (∀ (A : Type) (x y : A),
            match prof_autoConnect p with
            | Some false => x
            | _ => y
            end = y) as Hgo
    by (intros A x y; by destruct (prof_autoConnect p) as [[]|]).
  rewrite Hgo. clear Hgo.
  destruct (isConnected w) eqn:Hc; [intros [= <- <-]; left; by auto|].
  destruct sv as [server|n]; [|done]. intros _. right. by exists p, server.
Qed.

(** X16: an auto-connect replaces whatever transport was held without quitting
    it, records the profile's channels as written, and once the server
    registers the connection joins exactly those names, in order, with no
    [#] added. *)
Theorem auto_connect_joins_channels_as_written (ctx : Ctx) (fs : Host)
    (file : Profiles.ConfigFile) (profileName : string) (w : World)
    (profile : IRCProfile) (server : IRCServer) :
  profileName ≠ EmptyString →
  Profiles.getResolvedProfile file profileName
  = Profiles.Fulfilled (Some {| Profiles.profile := Profiles.Entry profile;
                                Profiles.server := Profiles.Entry server |}) →
  (String.length (prof_nick profile) ≤ 8)%nat →
  prof_autoConnect profile ≠ Some false →
  isConnected w = false →
  ∃ w' calls,
    on_session_start ctx fs file profileName w = Some (w', calls) ∧
    ircClient w' = Some (next w) ∧
    currentState w'
    = Some {| connected := false; host := srv_host server;
              port := srv_port server;
              nick := prof_nick profile;
              channels := prof_channels profile;
              profileName := Some profileName |} ∧
    List.filter is_transport (trace w') = List.filter is_transport (trace w) ∧
    isConnected (on_registered ctx w') = true ∧
    List.filter is_transport (trace (on_registered ctx w'))
    = List.filter is_transport (trace w) ++
      (EJoin (next w) <$> prof_channels profile).
Proof.
  intros Hne Hr Hlen Hauto Hc.
  rewrite (session_start_proceeds ctx fs file profileName w profile server) by done.
  eexists _, _. split; [reflexivity|].
  destruct (loadAgentsFile_fields fs file profileName w) as (Hcl & Hs & Hnx & Htr).
  rewrite Hnx.
  set (w3 := with_next _ _). set (msg := "Auto-connecting to " +:+ _).
  destruct (notify_fields ctx msg "info" w3) as (Hcl4 & Hs4 & _ & _).
  pose proof (notify_transport ctx msg "info" w3) as Htr4.
  set (w4 := notify ctx msg "info" w3) in *.
  assert (trace w3 = trace w) as Htr3 by (by rewrite <- Htr).
  rewrite Htr3 in Htr4.
  split; [by rewrite Hcl4|]. split; [by rewrite Hs4|]. split; [done|].
  unfold on_registered. rewrite Hs4. subst w3. cbn [currentState with_next with_ircClient
    with_currentState].
  set (s := {| connected := false; host := _ |}).
  set (w5 := with_currentState w4 (Some (set_connected true s))).
  assert (ircClient w5 = Some (next w)) as Hcl5 by (subst w5; simpl; by rewrite Hcl4).
  assert (List.filter is_transport (trace w5) = List.filter is_transport (trace w))
    as Htr5 by (by subst w5).
  destruct (hasUI ctx) eqn:Hui.
  - set (w6 := updateStatus ctx _).
    assert (ircClient w6 = Some (next w) ∧
            currentState w6 = Some (set_connected true s) ∧
            List.filter is_transport (trace w6) = List.filter is_transport (trace w))
      as (Hcl6 & Hs6 & Htr6).
    { subst w6. unfold updateStatus. simpl. rewrite Hui. simpl.
      rewrite !List.filter_app. simpl. rewrite !app_nil_r. by rewrite Hcl4. }
    rewrite Hcl6. change (channels s) with (prof_channels profile).
    destruct (join_all_keeps_session (next w) (prof_channels profile) w6)
      as [Hj1 Hj2].
    split.
    + unfold isConnected. rewrite Hj1, Hj2, Hcl6, Hs6. done.
    + rewrite join_all_trace, List.filter_app, filter_transport_joins. by rewrite Htr6.
  - rewrite Hcl5. change (channels s) with (prof_channels profile).
    destruct (join_all_keeps_session (next w) (prof_channels profile) w5)
      as [Hj1 Hj2].
    split.
    + unfold isConnected. rewrite Hj1, Hj2, Hcl5. done.
    + rewrite join_all_trace, List.filter_app, filter_transport_joins. by rewrite Htr5.
Qed.

(** The property at sample data. *)
Lemma auto_connect_joins_channels_as_written_witness :
  ∃ w' calls,
    on_session_start sample_ctx sample_host sample_prompt_file "docs" sample_connecting
    = Some (w', calls) ∧
    List.filter is_transport (trace (on_registered sample_ctx w'))
    = List.filter is_transport (trace sample_connecting) ++
      [EJoin 1 "pi"; EJoin 1 "#dev"].
Proof.
  destruct (auto_connect_joins_channels_as_written sample_ctx sample_host
              sample_prompt_file "docs" sample_connecting
              sample_docs_profile sample_server)
    as (w' & calls & Heq & _ & _ & _ & _ & H);
    [discriminate | vm_compute; reflexivity | vm_compute; lia | discriminate
    | vm_compute; reflexivity |].
  exists w', calls. split; [exact Heq | exact H].
Defined.

Lemma join_all_cached (c : nat) (chs : list string) (w : World) :
  cachedAgentsContent (foldl (λ acc channel, emit acc (EJoin c channel)) w chs)
  = cachedAgentsContent w.
Proof. revert w. induction chs as [|ch chs IH]; intros w; simpl; [done | by rewrite IH]. Qed.

Lemma on_registered_connects (ctx : Ctx) (w : World) (c : nat) (s : IRCState) :
  ircClient w = Some c → currentState w = Some s →
  isConnected (on_registered ctx w) = true ∧
  cachedAgentsContent (on_registered ctx w) = cachedAgentsContent w.
Proof.
  intros Hcl Hs. unfold on_registered. rewrite Hs.
  set (w1 := with_currentState w (Some (set_connected true s))).
  destruct (hasUI ctx).
  - set (w2 := emit w1 _).
    destruct (updateStatus_fields ctx w2) as (H1 & H2 & H3 & _).
    rewrite H1. subst w2 w1. simpl. rewrite Hcl.
    match goal with |- context [foldl ?f ?a ?l] =>
      destruct (join_all_keeps_session c l a) as [Hj1 Hj2];
      pose proof (join_all_cached c l a) as Hj3 end.
    unfold isConnected. rewrite Hj1, Hj2, Hj3, H1, H2, H3. simpl. by rewrite Hcl.
  - subst w1. simpl. rewrite Hcl.
    match goal with |- context [foldl ?f ?a ?l] =>
      destruct (join_all_keeps_session c l a) as [Hj1 Hj2];
      pose proof (join_all_cached c l a) as Hj3 end.
    unfold isConnected. rewrite Hj1, Hj2, Hj3. simpl. by rewrite Hcl.
Qed.



(** ** Every state of the running extension *)

Lemma same_buffers_notify (ctx : Ctx) (message level : string) (w : World) :
  same_buffers w (notify ctx message level w).
Proof. unfold notify. destruct (hasUI ctx); by repeat split. Qed.

Lemma same_buffers_dispatch (ctx : Ctx) (action : string) (params : ToolParams)
    (o : ConnectOutcome) (w : World) :
  same_buffers w (dispatch ctx action params o w).1.1.
Proof.
  unfold dispatch. destruct (action_of action) as [[]|].
  - destruct (truthy (tp_host params)) as [h|],
      (truthy (tp_nickname params)) as [n|]; try apply same_buffers_refl.
    pose proof (same_buffers_handleConnect ctx
                  {| p_host := h; p_port := tp_port params; p_nickname := n;
                     p_channels := tp_channels params |} o w) as H.
    by destruct (handleConnect _ _ _ _).
  - pose proof (same_buffers_handleDisconnect ctx w) as H.
    by destruct (handleDisconnect ctx w).
  - unfold handleInfo. destruct (connectedSession w) as [[c s]|]; apply same_buffers_refl.
  - unfold handleSend. destruct (connectedSession w) as [[c s]|];
      [|apply same_buffers_refl].
    destruct (truthy (tp_target params)), (truthy (tp_message params));
      apply same_buffers_refl.
  - unfold handleChangeNick. destruct (connectedSession w) as [[c s]|];
      [|apply same_buffers_refl].
    destruct (truthy (tp_new_nick params)); apply same_buffers_refl.
  - unfold handleListChannels.
    destruct (connectedSession w) as [[c s]|]; apply same_buffers_refl.
  - unfold handleJoin. destruct (connectedSession w) as [[c s]|];
      [|apply same_buffers_refl].
    destruct (truthy (tp_channel params)); [|apply same_buffers_refl].
    simpl. case_bool_decide; by repeat split.
  - unfold handleLeave. destruct (connectedSession w) as [[c s]|];
      [|apply same_buffers_refl].
    destruct (truthy (tp_channel params)); [|apply same_buffers_refl].
    simpl. eapply same_buffers_trans; [|apply same_buffers_notify]. by repeat split.
  - apply same_buffers_refl.
Qed.

Lemma same_buffers_commandHandler (ctx : Ctx) (argsStr : string) (o : ConnectOutcome)
    (w : World) :
  same_buffers w (commandHandler ctx argsStr o w).1.
Proof.
  unfold commandHandler. destruct (parse_args argsStr) as [|action rest].
  - destruct (currentState w) as [s|]; [destruct (connected s)|]; by repeat split.
  - destruct (command_params action (action :: rest)) as [m|params]; [by repeat split|].
    pose proof (same_buffers_dispatch ctx action params o w) as H.
    destruct (dispatch ctx action params o w) as [[w1 calls] r]. simpl in *.
    eapply same_buffers_trans; [exact H | by repeat split].
Qed.

Lemma same_buffers_loadAgentsFile (fs : Host) (file : Profiles.ConfigFile)
    (profileName : string) (w : World) :
  same_buffers w (loadAgentsFile fs file profileName w).
Proof.
  unfold loadAgentsFile.
  destruct (Profiles.getResolvedProfile file profileName) as [[r|]|e];
    [|by repeat split..].
  destruct (Profiles.profile r) as [p|n]; [|by repeat split].
  destruct (truthy (prof_agentsFile p)) as [f|]; [|by repeat split].
  destruct (readFile fs (agentsPath fs f)); by repeat split.
Qed.

Lemma same_buffers_on_session_start (ctx : Ctx) (fs : Host)
    (file : Profiles.ConfigFile) (profileName : string) (w w' : World)
    (calls : list ProfileCall) :
  on_session_start ctx fs file profileName w = Some (w', calls) →
  same_buffers w w'.
Proof.
  unfold on_session_start. destruct profileName as [|a name];
    [intros [= <- <-]; apply same_buffers_refl|].
  destruct (Profiles.getResolvedProfile file _) as [[r|]|e];
    [|intros [= <- <-]; apply same_buffers_notify..].
  destruct (Profiles.profile r) as [p|n];
    [|intros [= <- <-]; apply same_buffers_notify].
  destruct (8 <? _)%nat; [intros [= <- <-]; apply same_buffers_notify|].
  assert (∀ o : option (World * list ProfileCall),
            (o = Some (w', calls) → same_buffers w w') →
            (if isConnected w then Some (w, []) else o) = Some (w', calls) →
            same_buffers w w') as Hconn.
  { intros o Ho. destruct (isConnected w); [|exact Ho].
    intros [= <- <-]. apply same_buffers_refl. }
  assert (match Profiles.server r with
          | Profiles.ProtoMember _ => None
          | Profiles.Entry server =>
              Some (notify ctx
                      ("Auto-connecting to " +:+ srv_host server +:+ ":" +:+
                       pretty (srv_port server) +:+ " as " +:+ prof_nick p +:+
                       " (profile: " +:+ String a name +:+ ")") "info"
                      (with_next
                         (with_ircClient
                            (with_currentState (loadAgentsFile fs file (String a name) w)
                               (Some {| connected := false; host := srv_host server;
                                        port := srv_port server; nick := prof_nick p;
                                        channels := prof_channels p;
                                        profileName := Some (String a name) |}))
                            (Some (next (loadAgentsFile fs file (String a name) w))))
                         (S (next (loadAgentsFile fs file (String a name) w)))),
                    [CNewClient (next (loadAgentsFile fs file (String a name) w))
                       (prof_nick p)
                       (default (prof_nick p) (truthy (prof_username p)))
                       (default (prof_nick p) (truthy (prof_realname p)))
                       (match truthy (prof_nickservPass p) with
                        | Some password => Some (prof_nick p, password)
                        | None => None
                        end);
                     CConnect (next (loadAgentsFile fs file (String a name) w))
                       (srv_host server) (srv_port server) (prof_nick p)
                       (default (prof_nick p) (truthy (prof_username p)))
                       (default false (srv_ssl server))])
          end = Some (w', calls) → same_buffers w w') as Hgo.
  { destruct (Profiles.server r) as [sv|n]; [|done]. intros [= <- <-].
    eapply same_buffers_trans; [|apply same_buffers_notify].
    eapply same_buffers_trans; [apply same_buffers_loadAgentsFile|].
    repeat split. simpl. lia. }
  destruct (prof_autoConnect p) as [[]|];
    [by apply Hconn | intros [= <- <-]; apply same_buffers_notify | by apply Hconn].
Qed.

Lemma same_buffers_on_session_shutdown (w : World) :
  same_buffers w (on_session_shutdown w).
Proof.
  unfold on_session_shutdown. destruct (connectedSession w) as [[c s]|]; by repeat split.
Qed.

Lemma op_wf (w w' : World) : op w w' → wf w → wf w'.
Proof.
  intros Hop Hwf. destruct Hop.
  - by eapply step_wf.
  - eapply same_buffers_wf; [apply same_buffers_dispatch | done].
  - eapply same_buffers_wf; [apply same_buffers_commandHandler | done].
  - eapply same_buffers_wf; [by eapply same_buffers_on_session_start | done].
  - eapply same_buffers_wf; [apply same_buffers_on_session_shutdown | done].
Qed.

Lemma operating_wf (w : World) : operating w → wf w.
Proof. induction 1 as [|w w' _ IH Hop]; [apply wf_init | by eapply op_wf]. Qed.

Lemma operating_handleConnect (ctx : Ctx) (params : ConnectParams) (o : ConnectOutcome)
    (w : World) :
  operating w → operating (handleConnect ctx params o w).1.
Proof.
  intros H. unfold handleConnect.
  pose proof (operating_op _ _ H (op_step _ _ (step_connect_start params w))) as H1.
  destruct (handleConnect_start params w) as [w1 [r|p]]; [done|].
  exact (operating_op _ _ H1 (op_step _ _ (step_connect_settle ctx p o w1))).
Qed.

Lemma operating_deliver_all (l : list (N * MessageEvent)) (w : World) :
  operating w → operating (deliver_all w l).
Proof.
  revert w. induction l as [|x l IH]; intros w H; [done|].
  apply IH. unfold deliver.
  eapply operating_op; [|apply op_step, step_message].
  eapply operating_op; [exact H | apply op_step, step_time].
Qed.

Lemma operating_sample_busy : operating sample_busy.
Proof. apply operating_deliver_all, operating_handleConnect, operating_init. Qed.

Lemma pending_has_buffer {B : Type} (sel : Callback → option (string * nat))
    (timer_of : B → option nat) (bufs : gmap string nat) (store : gmap nat B)
    (tm : gmap nat (N * Callback)) (nx : nat) (k : string) (t : nat)
    (x : N * Callback) :
  family_ok sel bufs (timer_of <$> store) tm nx →
  pending_of sel k tm !! t = Some x →
  ∃ b, bufs !! k ≫= (λ l, store !! l) = Some b ∧ timer_of b = Some t.
Proof.
  intros Hok Hp. unfold pending_of in Hp.
  apply map_lookup_filter_Some in Hp as [Ht Hsel]. destruct x as [d cb]. simpl in Hsel.
  destruct (sel cb) as [[k' l]|] eqn:Hcb; [|done]. simpl in Hsel.
  injection Hsel as ->.
  destruct (fo_timer _ _ _ _ _ Hok t d cb k l Ht Hcb) as [Hk Hl].
  rewrite lookup_fmap in Hl. destruct (store !! l) as [b|] eqn:Hb; [|done].
  exists b. rewrite Hk. simpl. split; [done|]. by injection Hl.
Qed.

(** X18: in every state the running extension can be in, whatever tools,
    commands, hooks, transport events and timers brought it there, a pending
    flush timer of a key has the key's buffer, that buffer names this very
    timer, and so no key has two pending flush timers. *)
Theorem pending_flush_owns_buffer (w : World) (k : string) :
  operating w →
  (∀ t x, chat_pending k w !! t = Some x →
          ∃ b, chat_buffer k w = Some b ∧ mb_timer b = Some t) ∧
  (∀ t x, membership_pending k w !! t = Some x →
          ∃ b, membership_buffer k w = Some b ∧ eb_timer b = Some t) ∧
  (∀ t1 t2 x1 x2, chat_pending k w !! t1 = Some x1 →
                  chat_pending k w !! t2 = Some x2 → t1 = t2) ∧
  (∀ t1 t2 x1 x2, membership_pending k w !! t1 = Some x1 →
                  membership_pending k w !! t2 = Some x2 → t1 = t2).
Proof.
  intros Hop. destruct (operating_wf w Hop) as [Hmsg Hevt _].
  assert (∀ t x, chat_pending k w !! t = Some x →
                 ∃ b, chat_buffer k w = Some b ∧ mb_timer b = Some t) as Hchat.
  { intros t x. by apply (pending_has_buffer sel_msg mb_timer _ _ _ (next w)). }
  assert (∀ t x, membership_pending k w !! t = Some x →
                 ∃ b, membership_buffer k w = Some b ∧ eb_timer b = Some t) as Hmem.
  { intros t x. by apply (pending_has_buffer sel_evt eb_timer _ _ _ (next w)). }
  split; [done|]. split; [done|]. split.
  - intros t1 t2 x1 x2 H1 H2.
    destruct (Hchat _ _ H1) as (b1 & Hb1 & Ht1), (Hchat _ _ H2) as (b2 & Hb2 & Ht2).
    congruence.
  - intros t1 t2 x1 x2 H1 H2.
    destruct (Hmem _ _ H1) as (b1 & Hb1 & Ht1), (Hmem _ _ H2) as (b2 & Hb2 & Ht2).
    congruence.
Qed.

(** The property at sample data. *)
Lemma pending_flush_owns_buffer_witness :
  ∃ b, chat_buffer "#pi:bob" sample_busy = Some b ∧ mb_timer b = Some 4%nat.
Proof.
  destruct (pending_flush_owns_buffer sample_busy "#pi:bob" operating_sample_busy)
    as (H & _).
  apply (H 4%nat (1100%N, CbFlushMessage false "#pi:bob" 3)).
  vm_compute. reflexivity.
Defined.

Lemma same_session_refl (w : World) : same_session w w.
Proof. done. Qed.

Lemma same_session_trans (w1 w2 w3 : World) :
  same_session w1 w2 → same_session w2 w3 → same_session w1 w3.
Proof. intros (? & ? & ?) (? & ? & ?). repeat split; congruence. Qed.

Lemma same_session_on_message (event : MessageEvent) (w : World) :
  same_session w (on_message event w) ∧ trace (on_message event w) = trace w.
Proof.
  unfold on_message. destruct (currentState w) as [s|] eqn:Hs; [|done].
  destruct (messageBuffers w !! _) as [l|].
  - destruct (msgStore w !! l) as [b|]; [|done].
    destruct (mb_timer b); simpl; by rewrite ?Hs.
  - simpl. rewrite lookup_insert_eq. simpl. by rewrite ?Hs.
Qed.

Lemma same_session_bufferEvent (channel line : string) (w : World) :
  same_session w (bufferEvent channel line w) ∧
  trace (bufferEvent channel line w) = trace w.
Proof.
  unfold bufferEvent. destruct (eventBuffers w !! channel) as [l|].
  - destruct (evtStore w !! l) as [b|]; [|done].
    by destruct (eb_timer b).
  - simpl. by rewrite lookup_insert_eq.
Qed.

Lemma same_session_flushBuffer (isDM : bool) (k : string) (l : nat) (w : World) :
  same_session w (flushBuffer isDM k l w) ∧
  ∃ ext, trace (flushBuffer isDM k l w) = trace w ++ ext.
Proof.
  unfold flushBuffer. destruct (msgStore w !! l) as [b|];
    [|split; [done | exists []; by rewrite app_nil_r]].
  destruct (mb_messages b); [split; [done | exists []; by rewrite app_nil_r]|].
  destruct isDM; [split; [done | by eexists]|].
  destruct (currentState w) eqn:Hs; (split; [by repeat split | by eexists]).
Qed.

Lemma same_session_flushEventBuffer (k : string) (l : nat) (w : World) :
  same_session w (flushEventBuffer k l w) ∧
  ∃ ext, trace (flushEventBuffer k l w) = trace w ++ ext.
Proof.
  unfold flushEventBuffer. destruct (evtStore w !! l) as [b|];
    [|split; [done | exists []; by rewrite app_nil_r]].
  destruct (eb_events b); [split; [done | exists []; by rewrite app_nil_r]|].
  split; [done | by eexists].
Qed.

Lemma same_session_fire (t : nat) (w : World) :
  same_session w (fire t w) ∧ ∃ ext, trace (fire t w) = trace w ++ ext.
Proof.
  unfold fire. destruct (timers w !! t) as [[d cb]|];
    [|split; [done | exists []; by rewrite app_nil_r]].
  set (w1 := emit _ _).
  assert (same_session w w1) as H1 by done.
  assert (trace w1 = trace w ++ [ETimerFired cb]) as Ht1 by done.
  destruct cb as [isDM k l | k l]; simpl.
  - destruct (same_session_flushBuffer isDM k l w1) as [H2 [ext Hext]].
    split; [by eapply same_session_trans|].
    exists (ETimerFired (CbFlushMessage isDM k l) :: ext).
    rewrite Hext, Ht1. by rewrite <- app_assoc.
  - destruct (same_session_flushEventBuffer k l w1) as [H2 [ext Hext]].
    split; [by eapply same_session_trans|].
    exists (ETimerFired (CbFlushEvent k l) :: ext).
    rewrite Hext, Ht1. by rewrite <- app_assoc.
Qed.

Lemma same_session_advance (t : N) (w : World) :
  same_session w (advance t w) ∧ ∃ ext, trace (advance t w) = trace w ++ ext.
Proof.
  unfold advance. generalize (due t w). intros l.
  assert (same_session w (foldl (λ acc x, fire x.1 acc) w l) ∧
          ∃ ext, trace (foldl (λ acc x, fire x.1 acc) w l) = trace w ++ ext) as [H [ext He]].
  { revert w. induction l as [|x l IH]; intros w; simpl.
    - split; [done | exists []; by rewrite app_nil_r].
    - destruct (same_session_fire x.1 w) as [H1 [e1 He1]].
      destruct (IH (fire x.1 w)) as [H2 [e2 He2]].
      split; [by eapply same_session_trans|].
      exists (e1 ++ e2). rewrite He2, He1. by rewrite <- app_assoc. }
  split; [|by exists ext].
  destruct H as (? & ? & ?). by repeat split.
Qed.

Lemma paired_same (w w' : World) :
  ircClient w' = ircClient w → (currentState w' = None ↔ currentState w = None) →
  paired w → paired w'.
Proof. unfold paired. intros -> ->. done. Qed.

Lemma paired_same_session (w w' : World) : same_session w w' → paired w → paired w'.
Proof. intros (H1 & H2 & _). apply paired_same; [done | by rewrite H2]. Qed.

Lemma paired_on_registered (ctx : Ctx) (w : World) : paired w → paired (on_registered ctx w).
Proof.
  intros Hp. destruct (currentState w) as [s|] eqn:Hs.
  - destruct (ircClient w) as [c|] eqn:Hcl.
    + destruct (on_registered_connects ctx w c s Hcl Hs) as [Hon _].
      unfold isConnected in Hon. unfold paired.
      destruct (ircClient (on_registered ctx w)); [|done].
      destruct (currentState (on_registered ctx w)); [|done]. done.
    + destruct Hp as [Hp _]. specialize (Hp Hcl). congruence.
  - unfold on_registered. by rewrite Hs.
Qed.

Lemma paired_connect_rollback (w : World) : paired (connect_rollback w).
Proof. unfold paired. by destruct (connect_rollback_idle w) as [-> ->]. Qed.

Lemma paired_notify (ctx : Ctx) (message level : string) (w : World) :
  paired w → paired (notify ctx message level w).
Proof.
  destruct (notify_fields ctx message level w) as (H1 & H2 & _ & _).
  apply paired_same; [done | by rewrite H2].
Qed.

Lemma paired_updateStatus (ctx : Ctx) (w : World) : paired w → paired (updateStatus ctx w).
Proof.
  destruct (updateStatus_fields ctx w) as (H1 & H2 & _ & _).
  apply paired_same; [done | by rewrite H2].
Qed.

Lemma paired_handleConnect_start (params : ConnectParams) (w : World) :
  paired w → paired (handleConnect_start params w).1.
Proof.
  unfold handleConnect_start.
  destruct (if isConnected w then _ else _); [done|].
  destruct (8 <? _)%nat; [done|]. intros _. by split.
Qed.

Lemma paired_handleConnect_settle (ctx : Ctx) (p : PendingConnect) (o : ConnectOutcome)
    (w : World) :
  paired w → paired (handleConnect_settle ctx p o w).1.
Proof.
  destruct o; simpl; [apply paired_on_registered | |];
    intros _; apply paired_connect_rollback.
Qed.

Lemma paired_handleDisconnect (ctx : Ctx) (w : World) :
  paired w → paired (handleDisconnect ctx w).1.
Proof.
  unfold handleDisconnect. destruct (ircClient w); [|done].
  destruct (isConnected w); [|done]. intros _. by destruct (hasUI ctx).
Qed.

Lemma paired_on_close (ctx : Ctx) (w : World) : paired w → paired (on_close ctx w).
Proof.
  intros Hp. unfold on_close. apply paired_updateStatus, paired_notify.
  destruct (currentState w) eqn:Hs; [|done].
  revert Hp. apply paired_same; [done|]. simpl. by rewrite Hs.
Qed.

Lemma paired_on_nick (ctx : Ctx) (event : NickEvent) (w : World) :
  paired w → paired (on_nick ctx event w).
Proof.
  intros Hp. unfold on_nick. destruct (currentState w) as [s|] eqn:Hs; [|done].
  destruct (String.eqb _ _); [|done].
  assert (paired (with_currentState w (Some (set_nick (nev_new_nick event) s)))) as H1.
  { revert Hp. apply paired_same; [done|]. simpl. by rewrite Hs. }
  destruct (hasUI ctx); [|done].
  apply paired_updateStatus. revert H1. by apply paired_same.
Qed.

Lemma step_paired (w w' : World) : step w w' → paired w → paired w'.
Proof.
  intros Hstep Hp. destruct Hstep.
  - by apply paired_handleConnect_start.
  - by apply paired_handleConnect_settle.
  - by apply paired_handleDisconnect.
  - by apply paired_on_registered.
  - by apply paired_on_close.
  - by apply paired_notify.
  - by apply paired_on_nick.
  - eapply paired_same_session; [apply same_session_on_message | done].
  - unfold on_join. destruct (hasUI ctx && _); [by revert Hp; apply paired_same|].
    destruct (negb _); [|done].
    eapply paired_same_session; [apply same_session_bufferEvent | done].
  - unfold on_part. destruct (negb _); [|done].
    eapply paired_same_session; [apply same_session_bufferEvent | done].
  - eapply paired_same_session; [apply same_session_advance | done].
Qed.

Lemma paired_connectedSession (w : World) (c : nat) (s s' : IRCState) :
  connectedSession w = Some (c, s) → paired (with_currentState w (Some s')).
Proof.
  intros (Hcl & _ & _)%connectedSession_Some. unfold paired. simpl. by rewrite Hcl.
Qed.

Lemma paired_dispatch (ctx : Ctx) (action : string) (params : ToolParams)
    (o : ConnectOutcome) (w : World) :
  paired w → paired (dispatch ctx action params o w).1.1.
Proof.
  intros Hp. unfold dispatch. destruct (action_of action) as [[]|].
  - destruct (truthy (tp_host params)) as [h|],
      (truthy (tp_nickname params)) as [n|]; try done.
    unfold handleConnect.
    pose proof (paired_handleConnect_start
                  {| p_host := h; p_port := tp_port params; p_nickname := n;
                     p_channels := tp_channels params |} w Hp) as H1.
    destruct (handleConnect_start _ w) as [w1 [r|p]]; [done|].
    pose proof (paired_handleConnect_settle ctx p o w1 H1) as H2.
    by destruct (handleConnect_settle ctx p o w1).
  - pose proof (paired_handleDisconnect ctx w Hp) as H.
    by destruct (handleDisconnect ctx w).
  - unfold handleInfo. by destruct (connectedSession w) as [[c s]|].
  - unfold handleSend. destruct (connectedSession w) as [[c s]|]; [|done].
    by destruct (truthy (tp_target params)), (truthy (tp_message params)).
  - unfold handleChangeNick. destruct (connectedSession w) as [[c s]|]; [|done].
    by destruct (truthy (tp_new_nick params)).
  - unfold handleListChannels. by destruct (connectedSession w) as [[c s]|].
  - unfold handleJoin. destruct (connectedSession w) as [[c s]|] eqn:Hc; [|done].
    destruct (truthy (tp_channel params)) as [ch|]; [|done]. simpl.
    case_bool_decide; [by revert Hp; apply paired_same|].
    pose proof (paired_connectedSession w c s
                  (set_channels (channels s ++ [normalizeChannel ch]) s) Hc) as Hnew.
    revert Hnew. by apply paired_same.
  - unfold handleLeave. destruct (connectedSession w) as [[c s]|] eqn:Hc; [|done].
    destruct (truthy (tp_channel params)); [|done]. simpl.
    apply paired_notify. by eapply paired_connectedSession.
  - done.
Qed.

Lemma op_paired (w w' : World) : op w w' → paired w → paired w'.
Proof.
  intros Hop Hp.
  destruct Hop as [w w' Hstep | ctx action params o w | ctx argsStr o w
                 | ctx fs file pname w w' calls Hstart | w].
  - by eapply step_paired.
  - by apply paired_dispatch.
  - unfold commandHandler. destruct (parse_args argsStr) as [|action rest].
    + destruct (currentState w) as [s|] eqn:Hs; [destruct (connected s)|];
        revert Hp; by apply paired_same.
    + destruct (command_params action (action :: rest)) as [m|params];
        [revert Hp; by apply paired_same|].
      pose proof (paired_dispatch ctx action params o w Hp) as H.
      destruct (dispatch ctx action params o w) as [[w1 calls] r]. simpl in *.
      revert H. by apply paired_same.
  - destruct (on_session_start_cases _ _ _ _ _ _ _ Hstart)
      as [[_ [-> | (m & l & ->)]] | (p & sv & Hne & Hr & Hlen & Hauto & Hc)];
      [done | by apply paired_notify |].
    rewrite (session_start_proceeds ctx fs file pname w p sv) in Hstart by done.
    injection Hstart as <- _. by apply paired_notify.
  - unfold on_session_shutdown. destruct (connectedSession w) as [[c s]|]; [|done].
    revert Hp. by apply paired_same.
Qed.

Lemma operating_paired (w : World) : operating w → paired w.
Proof. induction 1 as [|w w' _ IH Hop]; [done | by eapply op_paired]. Qed.

(** X19: in every state the running extension can be in, a transport is held
    exactly when a session is recorded. So the test on the session alone that
    the command's status display makes agrees with the test on transport and
    session that the tools make, and registration always finds a transport to
    join the channels with. *)
Theorem transport_and_session_paired (w : World) :
  operating w →
  (ircClient w = None ↔ currentState w = None) ∧
  (∀ s, currentState w = Some s → connected s = true →
        ∃ c, connectedSession w = Some (c, s)) ∧
  (∀ ctx s, currentState w = Some s →
            ∃ c ext, trace (on_registered ctx w)
                     = trace w ++ ext ++ (EJoin c <$> channels s) ∧
                     Forall (λ e, is_transport e = false) ext).
Proof.
  intros Hop. pose proof (operating_paired w Hop) as Hp. split; [exact Hp|].
  assert (∀ s, currentState w = Some s → ∃ c, ircClient w = Some c) as Hcl.
  { intros s Hs. destruct (ircClient w) as [c|] eqn:E; [by exists c|].
    destruct Hp as [Hp _]. by rewrite Hp in Hs. }
  split.
  - intros s Hs Hon. destruct (Hcl s Hs) as [c Hc]. exists c.
    by apply connectedSession_Some.
  - intros ctx s Hs. destruct (Hcl s Hs) as [c Hc]. exists c.
    unfold on_registered. rewrite Hs.
    set (w1 := with_currentState w (Some (set_connected true s))).
    destruct (hasUI ctx) eqn:Hui.
    + set (w2 := emit w1 _).
      destruct (updateStatus_fields ctx w2) as (H1 & _ & _ & _).
      rewrite H1. subst w2 w1. simpl. rewrite Hc. rewrite join_all_trace.
      unfold updateStatus. simpl. rewrite Hui. simpl.
      eexists [_; _]. rewrite <- !app_assoc. split; [reflexivity|].
      by repeat constructor.
    + subst w1. simpl. rewrite Hc. rewrite join_all_trace. exists [].
      split; [done | constructor].
Qed.

(** The property at sample data. *)
Lemma transport_and_session_paired_witness :
  ircClient sample_busy = None ↔ currentState sample_busy = None.
Proof.
  destruct (transport_and_session_paired sample_busy operating_sample_busy) as [H _].
  exact H.
Defined.

(** ** What reaches the agent, and when *)

Lemma extends_by_refl (P : Effect → Prop) (w : World) : extends_by P w w.
Proof. exists []. by rewrite app_nil_r. Qed.

Lemma extends_by_trans (P : Effect → Prop) (w1 w2 w3 : World) :
  extends_by P w1 w2 → extends_by P w2 w3 → extends_by P w1 w3.
Proof.
  intros (e1 & H1 & F1) (e2 & H2 & F2). exists (e1 ++ e2).
  split; [by rewrite H2, H1, <- app_assoc | by apply Forall_app].
Qed.

Lemma extends_by_same (P : Effect → Prop) (w w' : World) :
  trace w' = trace w → extends_by P w w'.
Proof. intros H. exists []. by rewrite app_nil_r. Qed.

Lemma extends_by_emit (P : Effect → Prop) (w : World) (e : Effect) :
  P e → extends_by P w (emit w e).
Proof. intros H. exists [e]. split; [done | by apply Forall_singleton]. Qed.

Lemma extends_by_weaken (P Q : Effect → Prop) (w w' : World) :
  (∀ e, P e → Q e) → extends_by P w w' → extends_by Q w w'.
Proof.
  intros HPQ (ext & H & F). exists ext. split; [done|].
  eapply Forall_impl; [exact F | exact HPQ].
Qed.

Lemma silent_notify (ctx : Ctx) (message level : string) (w : World) :
  silent w (notify ctx message level w).
Proof.
  unfold notify. destruct (hasUI ctx); [by apply extends_by_emit | apply extends_by_refl].
Qed.

Lemma silent_updateStatus (ctx : Ctx) (w : World) : silent w (updateStatus ctx w).
Proof.
  unfold updateStatus. destruct (currentState w) as [s|]; [|apply extends_by_refl].
  destruct (negb (hasUI ctx)); [apply extends_by_refl|].
  destruct (connected s); by apply extends_by_emit.
Qed.

Lemma silent_join_all (c : nat) (chs : list string) (w : World) :
  silent w (foldl (λ acc channel, emit acc (EJoin c channel)) w chs).
Proof.
  exists (EJoin c <$> chs). split; [apply join_all_trace|].
  apply Forall_fmap, Forall_forall. done.
Qed.

Lemma silent_on_registered (ctx : Ctx) (w : World) : silent w (on_registered ctx w).
Proof.
  unfold on_registered. destruct (currentState w) as [s|]; [|apply extends_by_refl].
  set (w1 := with_currentState w (Some (set_connected true s))).
  set (w2 := if hasUI ctx then _ else w1).
  assert (silent w w2) as H2.
  { unfold w2. destruct (hasUI ctx); [|by apply extends_by_same].
    eapply extends_by_trans; [|apply silent_updateStatus].
    eapply extends_by_trans; [|by apply extends_by_emit]. by apply extends_by_same. }
  destruct (ircClient w2).
  - eapply extends_by_trans; [exact H2 | apply silent_join_all].
  - destruct (channels s); [done|].
    eapply extends_by_trans; [exact H2 | by apply extends_by_emit].
Qed.

Lemma silent_connect_rollback (w : World) : silent w (connect_rollback w).
Proof.
  unfold connect_rollback. destruct (ircClient w) as [c|]; [|by apply extends_by_same].
  exists [EQuit c None]. split; [done | by apply Forall_singleton].
Qed.

Lemma silent_handleConnect_start (params : ConnectParams) (w : World) :
  silent w (handleConnect_start params w).1.
Proof.
  unfold handleConnect_start.
  destruct (if isConnected w then _ else _); [apply extends_by_refl|].
  destruct (8 <? _)%nat; [apply extends_by_refl|].
  eexists [_; _]. simpl. rewrite <- app_assoc. split; [reflexivity|].
  by repeat constructor.
Qed.

Lemma silent_handleConnect_settle (ctx : Ctx) (p : PendingConnect) (o : ConnectOutcome)
    (w : World) :
  silent w (handleConnect_settle ctx p o w).1.
Proof.
  destruct o as [|m|]; simpl.
  - apply silent_on_registered.
  - eapply extends_by_trans; [apply silent_notify | apply silent_connect_rollback].
  - apply silent_connect_rollback.
Qed.

Lemma silent_handleConnect (ctx : Ctx) (params : ConnectParams) (o : ConnectOutcome)
    (w : World) :
  silent w (handleConnect ctx params o w).1.
Proof.
  unfold handleConnect. pose proof (silent_handleConnect_start params w) as H1.
  destruct (handleConnect_start params w) as [w1 [r|p]]; [done|].
  eapply extends_by_trans; [exact H1 | apply silent_handleConnect_settle].
Qed.

Lemma silent_handleDisconnect (ctx : Ctx) (w : World) :
  silent w (handleDisconnect ctx w).1.
Proof.
  unfold handleDisconnect. destruct (ircClient w) as [c|]; [|apply extends_by_refl].
  destruct (isConnected w); [|apply extends_by_refl]. simpl.
  destruct (hasUI ctx).
  - eexists [_; _]. simpl. rewrite <- app_assoc. split; [reflexivity|].
    by repeat constructor.
  - eexists [_]. simpl. split; [reflexivity | by repeat constructor].
Qed.

Lemma silent_on_close (ctx : Ctx) (w : World) : silent w (on_close ctx w).
Proof.
  unfold on_close. eapply extends_by_trans; [|apply silent_updateStatus].
  eapply extends_by_trans; [|apply silent_notify].
  destruct (currentState w); by apply extends_by_same.
Qed.

Lemma silent_on_nick (ctx : Ctx) (event : NickEvent) (w : World) :
  silent w (on_nick ctx event w).
Proof.
  unfold on_nick. destruct (currentState w) as [s|]; [|apply extends_by_refl].
  destruct (String.eqb _ _); [|apply extends_by_refl].
  destruct (hasUI ctx); [|by apply extends_by_same].
  eapply extends_by_trans; [|apply silent_updateStatus].
  eapply extends_by_trans; [|by apply extends_by_emit]. by apply extends_by_same.
Qed.

Lemma silent_on_join (ctx : Ctx) (userNick : option string) (event : MembershipEvent)
    (w : World) :
  silent w (on_join ctx userNick event w).
Proof.
  unfold on_join. destruct (hasUI ctx && _); [by apply extends_by_emit|].
  destruct (negb _); [|apply extends_by_refl].
  apply extends_by_same, same_session_bufferEvent.
Qed.

Lemma silent_on_part (userNick : option string) (event : MembershipEvent) (w : World) :
  silent w (on_part userNick event w).
Proof.
  unfold on_part. destruct (negb _); [|apply extends_by_refl].
  apply extends_by_same, same_session_bufferEvent.
Qed.

Lemma silent_dispatch (ctx : Ctx) (action : string) (params : ToolParams)
    (o : ConnectOutcome) (w : World) :
  silent w (dispatch ctx action params o w).1.1.
Proof.
  unfold dispatch. destruct (action_of action) as [[]|].
  - destruct (truthy (tp_host params)) as [h|],
      (truthy (tp_nickname params)) as [n|]; try apply extends_by_refl.
    pose proof (silent_handleConnect ctx
                  {| p_host := h; p_port := tp_port params; p_nickname := n;
                     p_channels := tp_channels params |} o w) as H.
    by destruct (handleConnect _ _ _ _).
  - pose proof (silent_handleDisconnect ctx w) as H.
    by destruct (handleDisconnect ctx w).
  - unfold handleInfo. destruct (connectedSession w) as [[c s]|]; apply extends_by_refl.
  - unfold handleSend. destruct (connectedSession w) as [[c s]|];
      [|apply extends_by_refl].
    destruct (truthy (tp_target params)), (truthy (tp_message params));
      apply extends_by_refl.
  - unfold handleChangeNick. destruct (connectedSession w) as [[c s]|];
      [|apply extends_by_refl].
    destruct (truthy (tp_new_nick params)); apply extends_by_refl.
  - unfold handleListChannels.
    destruct (connectedSession w) as [[c s]|]; apply extends_by_refl.
  - unfold handleJoin. destruct (connectedSession w) as [[c s]|];
      [|apply extends_by_refl].
    destruct (truthy (tp_channel params)) as [ch|]; [|apply extends_by_refl].
    simpl. case_bool_decide; eexists [_]; (split; [reflexivity | by repeat constructor]).
  - unfold handleLeave. destruct (connectedSession w) as [[c s]|];
      [|apply extends_by_refl].
    destruct (truthy (tp_channel params)) as [ch|]; [|apply extends_by_refl].
    simpl. eapply extends_by_trans; [|apply silent_notify]. by apply extends_by_same.
  - apply extends_by_refl.
Qed.

Lemma silent_commandHandler (ctx : Ctx) (argsStr : string) (o : ConnectOutcome)
    (w : World) :
  silent w (commandHandler ctx argsStr o w).1.
Proof.
  unfold commandHandler. destruct (parse_args argsStr) as [|action rest].
  - destruct (currentState w) as [s|]; [destruct (connected s)|];
      by apply extends_by_emit.
  - destruct (command_params action (action :: rest)) as [m|params];
      [by apply extends_by_emit|].
    pose proof (silent_dispatch ctx action params o w) as H.
    destruct (dispatch ctx action params o w) as [[w1 calls] r]. simpl in *.
    eapply extends_by_trans; [exact H | by apply extends_by_emit].
Qed.

Lemma silent_on_session_start (ctx : Ctx) (fs : Host) (file : Profiles.ConfigFile)
    (profileName : string) (w w' : World) (calls : list ProfileCall) :
  on_session_start ctx fs file profileName w = Some (w', calls) →
  silent w w'.
Proof.
  intros Hstart.
  destruct (on_session_start_cases _ _ _ _ _ _ _ Hstart)
    as [[_ [-> | (m & l & ->)]] | (p & sv & Hne & Hr & Hlen & Hauto & Hc)];
    [apply extends_by_refl | apply silent_notify |].
  rewrite (session_start_proceeds ctx fs file profileName w p sv) in Hstart by done.
  injection Hstart as <- _.
  eapply extends_by_trans; [|apply silent_notify].
  apply extends_by_same. simpl. apply loadAgentsFile_fields.
Qed.

Lemma silent_on_session_shutdown (w : World) : silent w (on_session_shutdown w).
Proof.
  unfold on_session_shutdown. destruct (connectedSession w) as [[c s]|];
    [by apply extends_by_emit | apply extends_by_refl].
Qed.

(** X20: nothing is handed to the agent while a tool, a command, a session
    hook or a listener for registration, close, socket error, nick, chat line,
    join or part runs; chat lines and membership events reach the agent only
    while time passes, from a timer. The trace only ever grows. *)
Theorem delivery_only_from_timers (w w' : World) :
  op w w' →
  (∃ ext, trace w' = trace w ++ ext) ∧
  (silent w w' ∨ ∃ t, w' = advance t w).
Proof.
  intros Hop.
  assert (silent w w' ∨ ∃ t, w' = advance t w) as H.
  { destruct Hop as [w w' Hstep| | | |].
    - destruct Hstep.
      + left. apply silent_handleConnect_start.
      + left. apply silent_handleConnect_settle.
      + left. apply silent_handleDisconnect.
      + left. apply silent_on_registered.
      + left. apply silent_on_close.
      + left. apply silent_notify.
      + left. apply silent_on_nick.
      + left. apply extends_by_same, same_session_on_message.
      + left. apply silent_on_join.
      + left. apply silent_on_part.
      + right. by eexists.
    - left. apply silent_dispatch.
    - left. apply silent_commandHandler.
    - left. by eapply silent_on_session_start.
    - left. apply silent_on_session_shutdown. }
  split; [|done].
  destruct H as [(ext & He & _) | [t ->]]; [by exists ext|].
  apply same_session_advance.
Qed.

(** The property at sample data. *)
Lemma delivery_only_from_timers_witness :
  silent sample_busy (on_message dm_event sample_busy) ∨
  ∃ t, on_message dm_event sample_busy = advance t sample_busy.
Proof.
  destruct (delivery_only_from_timers sample_busy (on_message dm_event sample_busy))
    as [_ H]; [apply op_step, step_message | exact H].
Defined.

Lemma wakes_flushBuffer (isDM : bool) (k : string) (l : nat) (w : World) :
  extends_by (wakes_on_mention (currentState w)) w (flushBuffer isDM k l w).
Proof.
  unfold flushBuffer. destruct (msgStore w !! l) as [b|]; [|apply extends_by_refl].
  destruct (mb_messages b) as [|m ms]; [apply extends_by_refl|].
  destruct isDM.
  - eexists [_]. split; [reflexivity|]. by apply Forall_singleton.
  - destruct (currentState w) as [s|].
    + eexists [_]. split; [reflexivity|]. apply Forall_singleton. simpl.
      intros Hm. split; [done|]. by eexists _, _, _, s.
    + eexists [_]. split; [reflexivity|]. by apply Forall_singleton.
Qed.

Lemma wakes_flushEventBuffer (k : string) (l : nat) (w : World) :
  extends_by (wakes_on_mention (currentState w)) w (flushEventBuffer k l w).
Proof.
  unfold flushEventBuffer. destruct (evtStore w !! l) as [b|]; [|apply extends_by_refl].
  destruct (eb_events b); [apply extends_by_refl|].
  eexists [_]. split; [reflexivity|]. by apply Forall_singleton.
Qed.

Lemma wakes_fire (t : nat) (w : World) :
  extends_by (wakes_on_mention (currentState w)) w (fire t w).
Proof.
  unfold fire. destruct (timers w !! t) as [[d cb]|]; [|apply extends_by_refl].
  set (w1 := emit (with_now (with_timers w (delete t (timers w))) (N.max (now w) d))
               (ETimerFired cb)).
  assert (extends_by (wakes_on_mention (currentState w)) w w1) as H1.
  { exists [ETimerFired cb]. split; [done | by apply Forall_singleton]. }
  eapply extends_by_trans; [exact H1|].
  change (currentState w) with (currentState w1).
  destruct cb; [apply wakes_flushBuffer | apply wakes_flushEventBuffer].
Qed.

Lemma wakes_advance (t : N) (w : World) :
  extends_by (wakes_on_mention (currentState w)) w (advance t w).
Proof.
  unfold advance. generalize (due t w). intros l.
  assert (extends_by (wakes_on_mention (currentState w)) w
            (foldl (λ acc x, fire x.1 acc) w l)) as H.
  { revert w. induction l as [|x l IH]; intros w; simpl; [apply extends_by_refl|].
    eapply extends_by_trans; [apply wakes_fire|].
    destruct (same_session_fire x.1 w) as [(_ & Hs & _) _].
    rewrite <- Hs. apply IH. }
  eapply extends_by_trans; [exact H | by apply extends_by_same].
Qed.

Lemma op_silent_or_time (w w' : World) :
  op w w' → silent w w' ∨ ∃ t, w' = advance t w.
Proof.
  intros Hop. destruct Hop as [w w' Hstep| | | |].
  - destruct Hstep.
    + left. apply silent_handleConnect_start.
    + left. apply silent_handleConnect_settle.
    + left. apply silent_handleDisconnect.
    + left. apply silent_on_registered.
    + left. apply silent_on_close.
    + left. apply silent_notify.
    + left. apply silent_on_nick.
    + left. apply extends_by_same, same_session_on_message.
    + left. apply silent_on_join.
    + left. apply silent_on_part.
    + right. by eexists.
  - left. apply silent_dispatch.
  - left. apply silent_commandHandler.
  - left. by eapply silent_on_session_start.
  - left. apply silent_on_session_shutdown.
Qed.

(** X21: whenever a step of the extension hands the agent a message with
    [triggerTurn] set, the step is a passage of time, the session is the same
    before and after it, and the message is a channel message whose text
    contains an at-sign followed by the nick of that session, the nick the
    session had when the buffer was flushed. Membership notices never start a
    turn, and with no session no message does. *)
Theorem only_mentions_start_a_turn (w w' : World) (ext : list Effect)
    (customType content : string) (details : MessageDetails) :
  op w w' → trace w' = trace w ++ ext →
  ESendMessage customType content details true ∈ ext →
  (∃ t, w' = advance t w) ∧
  customType = "irc_channel_message" ∧
  ∃ channel sender message s,
    details = DChannelMessage channel sender message ∧
    currentState w = Some s ∧ currentState w' = Some s ∧
    Str.includes ("@" +:+ nick s) message = true.
Proof.
  intros Hop Hext Hin.
  destruct (op_silent_or_time w w' Hop) as [(ext' & Hext' & Hsilent) | [t ->]].
  - rewrite Hext in Hext'. apply app_inv_head in Hext' as <-.
    rewrite Forall_forall in Hsilent. by specialize (Hsilent _ Hin).
  - split; [by exists t|].
    destruct (wakes_advance t w) as (ext' & Hext' & Hwakes).
    rewrite Hext in Hext'. apply app_inv_head in Hext' as <-.
    rewrite Forall_forall in Hwakes.
    destruct (Hwakes _ Hin eq_refl) as (Hct & channel & sender & message & s & Hd & Hs & Hm).
    split; [done|]. exists channel, sender, message, s.
    destruct (same_session_advance t w) as [(_ & Hs' & _) _].
    split; [done|]. split; [done|]. split; [by rewrite Hs' | done].
Qed.

(** The property at sample data. *)
Lemma only_mentions_start_a_turn_witness :
  ∃ channel sender message s,
    DChannelMessage "#pi" "alice" "ping @pibot" = DChannelMessage channel sender message ∧
    currentState sample_busy = Some s ∧
    currentState (advance 2000 sample_busy) = Some s ∧
    Str.includes ("@" +:+ nick s) message = true.
Proof.
  apply (only_mentions_start_a_turn sample_busy (advance 2000 sample_busy)
           [ETimerFired (CbFlushMessage false "#pi:alice" 1);
            ESendMessage "irc_channel_message" "[#pi] alice: ping @pibot"
              (DChannelMessage "#pi" "alice" "ping @pibot") true;
            ETimerFired (CbFlushMessage false "#pi:bob" 3);
            ESendMessage "irc_channel_message" "[#pi] bob: morning"
              (DChannelMessage "#pi" "bob" "morning") false]
           "irc_channel_message" "[#pi] alice: ping @pibot"
           (DChannelMessage "#pi" "alice" "ping @pibot")).
  - apply op_step, step_time.
  - vm_compute. reflexivity.
  - apply (list_elem_of_lookup_2 _ 1%nat). reflexivity.
Defined.

(** ** Membership notices *)

Lemma pending_after_record (sel : Callback → option (string * nat))
    (bufs : gmap string nat) (tv : gmap nat (option nat))
    (tm : gmap nat (N * Callback)) (nx : nat) (k : string) (told : option nat)
    (tn : nat) (d : N) (cb : Callback) :
  family_ok sel bufs tv tm nx →
  (∀ l, bufs !! k = Some l → tv !! l = Some told) →
  fst <$> sel cb = Some k →
  pending_of sel k (<[tn := (d, cb)]> (cancel told tm)) = {[ tn := (d, cb) ]}.
Proof.
  intros Hok Hold Hkey. apply map_eq. intros i. apply option_eq. intros [d' cb'].
  rewrite pending_of_lookup, lookup_singleton_Some, lookup_insert_Some. split.
  - intros [[[-> [= -> ->]] | [Hne Hc]] Hsel]; [done|]. exfalso.
    apply cancel_lookup_Some in Hc as [Hi Hnot].
    destruct (sel cb') as [[k' l']|] eqn:Hcb; [|done]. simpl in Hsel.
    injection Hsel as ->.
    destruct (fo_timer _ _ _ _ _ Hok i d' cb' k l' Hi Hcb) as [Hk Hl].
    rewrite (Hold l' Hk) in Hl. congruence.
  - intros [-> [= -> ->]]. split; [by left | done].
Qed.

Lemma bufferEvent_schedules (channel line : string) (w : World) :
  wf w →
  ∃ t l b,
    eventBuffers (bufferEvent channel line w) !! channel = Some l ∧
    evtStore (bufferEvent channel line w) !! l = Some b ∧
    eb_timer b = Some t ∧
    eb_events b
    = match membership_buffer channel w with
      | Some old => eb_events old
      | None => []
      end ++ [line] ∧
    membership_pending channel (bufferEvent channel line w)
    = {[ t := ((now w + EVENT_BUFFER_DELAY_MS)%N, CbFlushEvent channel l) ]}.
Proof.
  intros [_ He _]. unfold membership_buffer, membership_pending.
  destruct (eventBuffers w !! channel) as [l|] eqn:Hk.
  - destruct (fo_store _ _ _ _ _ He _ _ Hk) as [ot Hot].
    rewrite lookup_fmap in Hot.
    destruct (evtStore w !! l) as [b|] eqn:Hb; [|done].
    rewrite (bufferEvent_existing channel line w l b Hk Hb). simpl.
    eexists (next w), l, _. rewrite lookup_insert_eq, Hb.
    split; [done|]. split; [done|]. split; [done|]. split; [done|].
    apply (pending_after_record sel_evt (eventBuffers w) (eb_timer <$> evtStore w)
             (timers w) (next w)); [done| |done].
    intros l' Hl'. rewrite Hk in Hl'. injection Hl' as <-.
    by rewrite lookup_fmap, Hb.
  - rewrite (bufferEvent_fresh channel line w Hk). simpl.
    eexists (S (next w)), (next w), _. rewrite !lookup_insert_eq.
    split; [done|]. split; [done|]. split; [done|]. split; [done|].
    apply (pending_after_record sel_evt (eventBuffers w) (eb_timer <$> evtStore w)
             (timers w) (next w) channel None); [done| |done].
    intros l' Hl'. by rewrite Hk in Hl'.
Qed.

(** X22: a join or part is buffered unless a transport is held and the
    event's nick is the nick that transport tracks for itself. A buffered
    event is appended to the channel's buffer and restarts the channel's
    two-second timer: afterwards exactly one flush timer is pending for the
    channel, due 2000 ms from now, and nothing has been handed to the agent.
    With no transport held, the extension's own join or part is buffered like
    anybody else's. *)
Theorem membership_record_restarts_timer (ctx : Ctx) (userNick : option string)
    (event : MembershipEvent) (w : World) :
  operating w →
  (ircClient w ≠ None → Some (mev_nick event) = userNick →
     same_buffers w (on_join ctx userNick event w) ∧
     on_part userNick event w = w) ∧
  (ircClient w = None ∨ Some (mev_nick event) ≠ userNick →
     ∀ w' verb,
       (w' = on_join ctx userNick event w ∧ verb = " joined ") ∨
       (w' = on_part userNick event w ∧ verb = " left ") →
       trace w' = trace w ∧
       ∃ t l b,
         membership_buffer (mev_channel event) w' = Some b ∧
         eb_timer b = Some t ∧
         eb_events b
         = match membership_buffer (mev_channel event) w with
           | Some old => eb_events old
           | None => []
           end ++ [mev_nick event +:+ verb +:+ mev_channel event] ∧
         membership_pending (mev_channel event) w'
         = {[ t := ((now w + 2000)%N, CbFlushEvent (mev_channel event) l) ]}).
Proof.
  intros Hop. pose proof (operating_wf w Hop) as Hwf. split.
  - intros Hheld Hself. unfold on_join, on_part, transportNick.
    destruct (ircClient w) as [c|]; [|done].
    rewrite bool_decide_eq_true_2 by done. simpl. split; [|done].
    destruct (hasUI ctx); [by repeat split | apply same_buffers_refl].
  - intros Hother w' verb Hcase.
    assert (Some (mev_nick event) ≠ transportNick userNick w) as Hne.
    { unfold transportNick. destruct Hother as [-> | Hne]; [done|].
      by destruct (ircClient w). }
    assert (w' = bufferEvent (mev_channel event)
                   (mev_nick event +:+ verb +:+ mev_channel event) w) as ->.
    { destruct Hcase as [[-> ->] | [-> ->]]; unfold on_join, on_part;
        rewrite bool_decide_eq_false_2 by done; simpl; [|done].
      by rewrite andb_false_r. }
    split; [apply same_session_bufferEvent|].
    destruct (bufferEvent_schedules (mev_channel event)
                (mev_nick event +:+ verb +:+ mev_channel event) w Hwf)
      as (t & l & b & Hk & Hb & Ht & Hev & Hp).
    exists t, l, b. unfold membership_buffer at 1. rewrite Hk. simpl.
    by repeat split.
Qed.

(** The property at sample data: somebody else's part after somebody else's
    join, and the extension's own join after a disconnect. *)
Lemma membership_record_restarts_timer_witness :
  (∃ t l b,
     membership_buffer "#pi" sample_crowd = Some b ∧
     eb_timer b = Some t ∧
     eb_events b = ["carol joined #pi"; "dave left #pi"] ∧
     membership_pending "#pi" sample_crowd
     = {[ t := (2000%N, CbFlushEvent "#pi" l) ]}) ∧
  (∃ t l b,
     membership_buffer "#pi"
       (on_join sample_ctx (Some "pibot") {| mev_nick := "pibot"; mev_channel := "#pi" |}
          (handleDisconnect sample_ctx sample_connected).1) = Some b ∧
     eb_timer b = Some t ∧
     eb_events b = ["pibot joined #pi"] ∧
     membership_pending "#pi"
       (on_join sample_ctx (Some "pibot") {| mev_nick := "pibot"; mev_channel := "#pi" |}
          (handleDisconnect sample_ctx sample_connected).1)
     = {[ t := (2000%N, CbFlushEvent "#pi" l) ]}).
Proof.
  split.
  - destruct (membership_record_restarts_timer sample_ctx (Some "pibot") dave_leaves
                (on_join sample_ctx (Some "pibot") carol_joins sample_connected))
      as [_ H].
    { eapply operating_op; [|apply op_step, step_join].
      apply operating_handleConnect, operating_init. }
    destruct (H ltac:(by right) sample_crowd " left " ltac:(by right))
      as (_ & t & l & b & Hb & Ht & Hev & Hp).
    exists t, l, b. split; [exact Hb|]. split; [exact Ht|]. split; [exact Hev|].
    exact Hp.
  - destruct (membership_record_restarts_timer sample_ctx (Some "pibot")
                {| mev_nick := "pibot"; mev_channel := "#pi" |}
                (handleDisconnect sample_ctx sample_connected).1)
      as [_ H].
    { eapply operating_op; [|apply op_step, step_disconnect].
      apply operating_handleConnect, operating_init. }
    destruct (H ltac:(left; vm_compute; reflexivity) _ " joined " ltac:(by left))
      as (_ & t & l & b & Hb & Ht & Hev & Hp).
    exists t, l, b. split; [exact Hb|]. split; [exact Ht|]. split; [exact Hev|].
    exact Hp.
Defined.

(** X23: when the flush timer of a channel's membership buffer fires, the
    agent gets one notice with the buffered lines joined by line feeds, which
    never starts a turn; the channel's buffer is dropped and no flush timer is
    left for the channel, so the next join or part starts a new notice. *)
Theorem membership_flush_delivers_once (w : World) (channel : string) (t : nat)
    (x : N * Callback) (b : EventBuffer) :
  operating w →
  membership_pending channel w !! t = Some x →
  membership_buffer channel w = Some b → eb_events b ≠ [] →
  trace (fire t w)
  = trace w ++ [ETimerFired x.2;
                ESendMessage "irc_join_part" (Str.join Str.nl (eb_events b))
                  (DJoinPart (eb_channel b) (eb_events b)) false] ∧
  membership_buffer channel (fire t w) = None ∧
  membership_pending channel (fire t w) = ∅ ∧
  ∀ line, ∃ b',
    membership_buffer channel (bufferEvent channel line (fire t w)) = Some b' ∧
    eb_events b' = [line].
Proof.
  intros Hop Hp Hb Hne. pose proof (operating_wf w Hop) as Hwf.
  destruct x as [d cb]. apply pending_of_lookup in Hp as [Ht Hsel].
  destruct cb as [isDM k l | k l]; [done|]. simpl in Hsel. injection Hsel as ->.
  destruct Hwf as [Hm He Hf].
  destruct (fo_timer _ _ _ _ _ He t d (CbFlushEvent channel l) channel l Ht eq_refl)
    as [Hk Hl].
  unfold membership_buffer in Hb. rewrite Hk in Hb. simpl in Hb.
  assert (fire t w
          = with_eventBuffers
              (emit (emit (with_now (with_timers w (delete t (timers w)))
                             (N.max (now w) d))
                       (ETimerFired (CbFlushEvent channel l)))
                 (ESendMessage "irc_join_part" (Str.join Str.nl (eb_events b))
                    (DJoinPart (eb_channel b) (eb_events b)) false))
              (delete channel (eventBuffers w))) as Hfire.
  { unfold fire. rewrite Ht. simpl. unfold flushEventBuffer. simpl. rewrite Hb.
    by destruct (eb_events b). }
  assert (membership_buffer channel (fire t w) = None) as Hgone.
  { rewrite Hfire. unfold membership_buffer. simpl. by rewrite lookup_delete_eq. }
  split; [rewrite Hfire; simpl; by rewrite <- app_assoc|].
  split; [done|]. split.
  - rewrite Hfire. unfold membership_pending. simpl.
    apply map_eq. intros i. rewrite lookup_empty. apply option_eq. intros [d' cb'].
    rewrite pending_of_lookup, lookup_delete_Some. split; [|done].
    intros [[Hne' Hi] Hsel']. destruct (sel_evt cb') as [[k' l']|] eqn:Hcb; [|done].
    simpl in Hsel'. injection Hsel' as ->.
    destruct (fo_timer _ _ _ _ _ He i d' cb' channel l' Hi Hcb) as [Hk' Hl'].
    rewrite Hk in Hk'. injection Hk' as <-. rewrite Hl in Hl'. congruence.
  - intros line.
    assert (eventBuffers (fire t w) !! channel = None) as Hnone
      by (rewrite Hfire; simpl; by rewrite lookup_delete_eq).
    rewrite (bufferEvent_fresh channel line (fire t w) Hnone).
    unfold membership_buffer. simpl. rewrite !lookup_insert_eq. simpl.
    rewrite lookup_insert_eq. by eexists.
Qed.

(** The property at sample data. *)
Lemma membership_flush_delivers_once_witness :
  trace (fire 3 sample_crowd)
  = trace sample_crowd ++
    [ETimerFired (CbFlushEvent "#pi" 1);
     ESendMessage "irc_join_part"
       ("carol joined #pi" +:+ Str.nl +:+ "dave left #pi")
       (DJoinPart "#pi" ["carol joined #pi"; "dave left #pi"]) false].
Proof.
  destruct (membership_flush_delivers_once sample_crowd "#pi" 3
              (2000%N, CbFlushEvent "#pi" 1)
              {| eb_channel := "#pi";
                 eb_events := ["carol joined #pi"; "dave left #pi"];
                 eb_timer := Some 3%nat |}) as [H _].
  - eapply operating_op; [|apply op_step, step_part].
    eapply operating_op; [|apply op_step, step_join].
    apply operating_handleConnect, operating_init.
  - vm_compute. reflexivity.
  - vm_compute. reflexivity.
  - discriminate.
  - exact H.
Defined.

(** ** Server announcements *)

Lemma trimStart_not_blank (s : string) :
  blank s = false → ∃ c rest, trimStart s = String c rest ∧ is_space c = false.
Proof.
  induction s as [|c s IH]; [done|]. unfold blank. simpl.
  destruct (is_space c) eqn:Hc; simpl; [exact IH | by eauto].
Qed.

Lemma trim_empty_iff_blank (s : string) :
  trim s = EmptyString ↔ blank s = true.
Proof.
  unfold trim. split.
  - intros Ht. destruct (blank s) eqn:Hb; [done|].
    destruct (trimStart_not_blank s Hb) as (c & rest & Heq & Hc).
    rewrite Heq in Ht. simpl in Ht. rewrite Hc in Ht. by destruct (trimEnd rest).
  - intros Hb. by rewrite (trimStart_blank_only s Hb).
Qed.

(** X24: a MOTD is announced exactly when it has a character that is not
    white space, and then with its text as received, untrimmed; a topic is
    announced whenever it is not empty, so a topic of white space only is
    announced where such a MOTD is dropped. Neither announcement starts a
    turn. *)
Theorem announcements_skip_blank_motd (channel text : string) :
  on_motd (Some text)
  = (if blank text then None
     else Some {| an_customType := "irc_motd";
                  an_content := "Server MOTD:" +:+ Str.nl +:+ text;
                  an_details := [("motd", text)];
                  an_triggerTurn := false |}) ∧
  (text ≠ EmptyString →
   on_topic channel (Some text)
   = Some {| an_customType := "irc_channel_topic";
             an_content := "Topic for " +:+ channel +:+ ": " +:+ text;
             an_details := [("channel", channel); ("topic", text)];
             an_triggerTurn := false |}).
Proof.
  split.
  - unfold on_motd. destruct (blank text) eqn:Hb.
    + by rewrite (proj2 (trim_empty_iff_blank text) Hb).
    + destruct (trim text) eqn:Ht; [|done].
      apply trim_empty_iff_blank in Ht. congruence.
  - intros Hne. unfold on_topic. by destruct text.
Qed.

(** The property at sample data. *)
Lemma announcements_skip_blank_motd_witness :
  on_motd (Some "  ") = None ∧ on_topic "#pi" (Some "  ") ≠ None.
Proof.
  destruct (announcements_skip_blank_motd "#pi" "  ") as [Hm Ht]. split.
  - exact Hm.
  - rewrite Ht; discriminate.
Defined.


(** ** Lines pending at a disconnect *)

Lemma handleDisconnect_connected (ctx : Ctx) (w : World) (c : nat) (s : IRCState) :
  connectedSession w = Some (c, s) →
  currentState (handleDisconnect ctx w).1 = None ∧
  same_buffers w (handleDisconnect ctx w).1.
Proof.
  intros (Hcl & Hs & Hon)%connectedSession_Some.
  split; [|apply same_buffers_handleDisconnect].
  unfold handleDisconnect, isConnected. rewrite Hcl, Hs, Hon. by destruct (hasUI ctx).
Qed.

(** X25: a disconnect does not flush what is buffered. A direct message
    pending at the disconnect is still delivered when its timer fires; a
    channel line pending at the disconnect is not: its flush reads the nick
    of the session that is gone, throws before anything is sent, and leaves
    the buffer in the map. *)
Theorem disconnect_strands_channel_lines (ctx : Ctx) (event : MessageEvent)
    (w : World) (c : nat) (s : IRCState) :
  operating w → connectedSession w = Some (c, s) →
  let isDM := String.eqb (ev_target event) (nick s) in
  let w1 := (handleDisconnect ctx (on_message event w)).1 in
  ∃ t l,
    timers w1 !! t
    = Some ((now w + 1000)%N, CbFlushMessage isDM (chat_key event) l) ∧
    is_Some (chat_buffer (chat_key event) w1) ∧
    (isDM = true →
       ∃ content,
         trace (fire t w1)
         = trace w1 ++ [ETimerFired (CbFlushMessage true (chat_key event) l);
                        ESendUserMessage content "steer"] ∧
         chat_buffer (chat_key event) (fire t w1) = None) ∧
    (isDM = false →
       trace (fire t w1)
       = trace w1 ++ [ETimerFired (CbFlushMessage false (chat_key event) l);
                      EUncaughtTypeError] ∧
       chat_buffer (chat_key event) (fire t w1) = chat_buffer (chat_key event) w1).
Proof.
  intros Hop Hc isDM w1.
  pose proof (operating_wf w Hop) as Hwf.
  pose proof (proj1 (connectedSession_Some w c s) Hc) as (Hcl & Hs & Hon).
  destruct (on_message_schedules event w s Hwf Hs)
    as (t & l & b & Hk & Hb & Ht & [earlier Hmsgs] & _ & Htimer).
  destruct (same_session_on_message event w) as [(Hcl0 & Hs0 & _) _].
  assert (connectedSession (on_message event w) = Some (c, s)) as Hc0
    by (apply connectedSession_Some; by rewrite Hcl0, Hs0).
  destruct (handleDisconnect_connected ctx (on_message event w) c s Hc0)
    as [Hnone (Hmb & _ & Hms & _ & Htm & _)].
  fold w1 in Hnone, Hmb, Hms, Htm.
  assert (mb_messages b ≠ []) as Hne by (rewrite Hmsgs; by destruct earlier).
  exists t, l. fold isDM in Htimer.
  split; [by rewrite Htm|].
  assert (chat_buffer (chat_key event) w1 = Some b) as Hbuf.
  { unfold chat_buffer. rewrite Hmb, Hk. simpl. by rewrite Hms. }
  split; [by rewrite Hbuf|].
  split.
  - intros Hdm. rewrite Hdm in Htimer. unfold fire. rewrite Htm, Htimer.
    simpl run_callback.
    erewrite flushBuffer_dm; [|simpl; by rewrite Hms|done].
    eexists. simpl. rewrite <- app_assoc. split; [reflexivity|].
    unfold chat_buffer. simpl. by rewrite lookup_delete_eq.
  - intros Hdm. rewrite Hdm in Htimer. unfold fire. rewrite Htm, Htimer.
    simpl run_callback.
    erewrite flushBuffer_channel_no_session; [|simpl; by rewrite Hms|done|done].
    simpl. rewrite <- app_assoc. split; [reflexivity|].
    unfold chat_buffer. simpl. done.
Qed.

(** The property at sample data. *)
Lemma disconnect_strands_channel_lines_witness :
  ∃ t l,
    trace (fire t (handleDisconnect sample_ctx
                     (on_message channel_event sample_connected)).1)
    = trace (handleDisconnect sample_ctx
               (on_message channel_event sample_connected)).1 ++
      [ETimerFired (CbFlushMessage false "#pi:alice" l); EUncaughtTypeError].
Proof.
  destruct (disconnect_strands_channel_lines sample_ctx channel_event sample_connected
              0 sample_session)
    as (t & l & _ & _ & _ & Hchannel).
  - apply operating_handleConnect, operating_init.
  - vm_compute. reflexivity.
  - exists t, l. by apply Hchannel.
Defined.

(** ** Flushes that find no session, and connects that overlap *)

(** C2: two bursts that do not end in one flush of their lines. Two lines
    400 ms apart are followed by a disconnect: the one timer runs at 1400 ms,
    throws on the nick of the session that is gone, and nothing is sent. And
    a line that was stranded this way stays in its buffer: after a reconnect,
    a burst of two lines under the same key is sent together with it, three
    lines in one message. *)
Theorem burst_flush_without_session :
  (let lines := burst "#general" "alice" [(0%N, "hi"); (400%N, "there")] in
   let w := (handleDisconnect sample_ctx
               (advance 500 (deliver_all sample_connected lines))).1 in
   chat_pending "#general:alice" w
   = {[ 3%nat := (1400%N, CbFlushMessage false "#general:alice" 1) ]} ∧
   trace (advance 1400 w)
   = trace w ++ [ETimerFired (CbFlushMessage false "#general:alice" 1);
                 EUncaughtTypeError] ∧
   timers (advance 1400 w) = ∅) ∧
  (let stranded :=
     advance 1000
       (handleDisconnect sample_ctx (on_message channel_event sample_connected)).1 in
   let w := (handleConnect sample_ctx sample_params Registered stranded).1 in
   let lines := burst "#pi" "alice" [(2000%N, "hi"); (2400%N, "there")] in
   timers w = ∅ ∧
   chat_pending "#pi:alice" (deliver_all w lines)
   = {[ 5%nat := (3400%N, CbFlushMessage false "#pi:alice" 1) ]} ∧
   trace (advance 3400 (deliver_all w lines))
   = trace w ++
     [ETimerFired (CbFlushMessage false "#pi:alice" 1);
      ESendMessage "irc_channel_message"
        ("[#pi] alice: " +:+ Str.join Str.nl ["ping @pibot"; "hi"; "there"])
        (DChannelMessage "#pi" "alice" (Str.join Str.nl ["ping @pibot"; "hi"; "there"]))
        true]).
Proof. repeat split; vm_compute; reflexivity. Qed.

(** C3: a channel unit that is flushed but not delivered. The line mentions
    the nick of the session that received it; the session is disconnected
    before the second is over; the flush runs, reads the nick of a session
    that is gone, and throws before anything is sent. *)
Theorem channel_unit_lost_without_session :
  let w := (handleDisconnect sample_ctx (on_message channel_event sample_connected)).1 in
  ev_target channel_event ≠ nick sample_session ∧
  Str.includes ("@" +:+ nick sample_session) (ev_message channel_event) = true ∧
  chat_pending "#pi:alice" w
  = {[ 2%nat := (1000%N, CbFlushMessage false "#pi:alice" 1) ]} ∧
  trace (advance 1000 w)
  = trace w ++ [ETimerFired (CbFlushMessage false "#pi:alice" 1); EUncaughtTypeError] ∧
  List.filter is_delivery (trace (advance 1000 w)) = [].
Proof. repeat split; try discriminate; vm_compute; reflexivity. Qed.

(** C6: a connect that times out while another one has taken its place. The
    first connect waits on a host that never answers; a second connect is let
    through and the server registers it; then the first one's ten seconds are
    over. Its rollback quits the transport of the second connect and discards
    the registered session; the transport the first connect made is never
    quit. *)
Theorem overlapping_connect_timeout :
  let first := handleConnect_start stalled_params init in
  let second := handleConnect_start sample_params first.1 in
  let registered := handleConnect_settle sample_ctx sample_pending Registered second.1 in
  let timed_out := handleConnect_settle sample_ctx stalled_pending TimedOut registered.1 in
  first.2 = Pending stalled_pending ∧ ircClient first.1 = Some 0%nat ∧
  second.2 = Pending sample_pending ∧ ircClient second.1 = Some 1%nat ∧
  has_error registered.2 = false ∧ isConnected registered.1 = true ∧
  timed_out.2 = connect_error "Connection timeout (10s)" ∧
  ircClient timed_out.1 = None ∧ currentState timed_out.1 = None ∧
  List.filter is_transport (trace timed_out.1)
  = [ENewClient 0; EConnect 0 "irc.invalid.example" 6667 "pibot";
     ENewClient 1; EConnect 1 "irc.libera.chat" 6667 "pibot";
     EJoin 1 "#pi"; EJoin 1 "#dev"; EQuit 1 None].
Proof. repeat split; vm_compute; reflexivity. Qed.

(** ** The injected prompt *)










